(** * Host/guest marshalling of the RCP19 WebAssembly example

    A shallow embedding of the Node.js host code of the repository
    (evaluate.js, the module [evaluate] that index.js requires, evaluator.js
    and index.js) together with the parts of the platform it calls: [JSON.stringify], [JSON.parse], [TextEncoder], [TextDecoder],
    [fs.readFileSync], [WebAssembly.compile] and [WebAssembly.instantiate].

    Conventions.
    - A JavaScript string is a Rocq [string] holding the UTF-8 encoding of
      the text, so [TextEncoder.encode] and [TextDecoder.decode] are the
      conversions between [string] and [list byte]; [TextDecoder.decode]
      leaves a byte order mark at the start out.  (The replacement of
      malformed UTF-8 by U+FFFD is not modelled; a surrogate that a \u
      escape gives and that has no partner is carried as three bytes.)
    - A JavaScript number is carried by its decimal literal; of the rounding
      to an IEEE double only what decides whether the number is 0 is
      modelled, which is all the host code asks of a number.
    - An object is the list of its members in the order they were written;
      [JSON.parse] keeps a key that is repeated, and every read of a member
      takes the last one, as JavaScript does.
    - The WebAssembly instance is a state machine over its linear memory and
      a private state; what the compiled artifact does is a parameter. *)

From Stdlib Require Import List String Ascii ZArith Lia Bool Arith.
From Stdlib.Strings Require Import Byte.
From Stdlib Require Import DecimalString.
Import ListNotations.
Local Open Scope string_scope.
Set Warnings "-register-all".

(** ** JavaScript values *)

Inductive jsval : Type :=
| VUndef
| VNull
| VBool (b : bool)
| VNum (lit : string)
| VStr (s : string)
| VArr (elems : list jsval)
| VObj (members : list (string * jsval)).

(** The quotation mark, and a helper to write JSON texts with apostrophes in
    place of quotation marks. *)
Definition dquote : ascii := "034"%char.

Fixpoint dq (s : string) : string :=
  match s with
  | EmptyString => EmptyString
  | String c s' => String (if Ascii.eqb c "'"%char then dquote else c) (dq s')
  end.

Definition snoc (s : string) (c : ascii) : string := s ++ String c EmptyString.

Module JSON.

(** *** JSON.stringify *)

Definition hex_digit (n : nat) : ascii :=
  nth n (list_ascii_of_string "0123456789abcdef") "0"%char.

(** QuoteJSONString, one character at a time. *)
Definition quote_char (c : ascii) : string :=
  let n := nat_of_ascii c in
  if Nat.eqb n 34 then "\" ++ String dquote EmptyString
  else if Nat.eqb n 92 then "\\"
  else if Nat.eqb n 8 then "\b"
  else if Nat.eqb n 9 then "\t"
  else if Nat.eqb n 10 then "\n"
  else if Nat.eqb n 12 then "\f"
  else if Nat.eqb n 13 then "\r"
  else if Nat.ltb n 32 then
    "\u00" ++ String (hex_digit (n / 16)) (String (hex_digit (n mod 16)) EmptyString)
  else String c EmptyString.

Fixpoint quote_body (s : string) : string :=
  match s with
  | EmptyString => EmptyString
  | String c s' => quote_char c ++ quote_body s'
  end.

Definition quote (s : string) : string :=
  String dquote (quote_body s) ++ String dquote EmptyString.

(** A member of an object as it is written: the key quoted, a colon, the
    text of the value. *)
Definition member_text (kt : string * string) : string :=
  quote (fst kt) ++ ":" ++ snd kt.

(** SerializeJSONProperty: [None] is the result [undefined].  A member whose
    value is [undefined] is left out of an object; an [undefined] element of
    an array is written [null]. *)
Fixpoint serialize (v : jsval) : option string :=
  match v with
  | VUndef => None
  | VNull => Some "null"
  | VBool true => Some "true"
  | VBool false => Some "false"
  | VNum lit => Some lit
  | VStr s => Some (quote s)
  | VArr elems =>
      Some ("[" ++ String.concat ","
                     (map (fun x => match serialize x with
                                    | Some t => t
                                    | None => "null"
                                    end) elems) ++ "]")
  | VObj members =>
      Some ("{" ++ String.concat ","
                     (map member_text
                        ((fix go (ms : list (string * jsval)) : list (string * string) :=
                            match ms with
                            | [] => []
                            | (k, x) :: ms' =>
                                match serialize x with
                                | Some t => (k, t) :: go ms'
                                | None => go ms'
                                end
                            end) members)) ++ "}")
  end.

(** The members of an object that [serialize] writes, in order, each with
    the text of its value. *)
Fixpoint written_members (ms : list (string * jsval)) : list (string * string) :=
  match ms with
  | [] => []
  | (k, x) :: ms' =>
      match serialize x with
      | Some t => (k, t) :: written_members ms'
      | None => written_members ms'
      end
  end.

(** [JSON.stringify] of an object (the only use in the source). *)
Definition stringify (v : jsval) : option string := serialize v.

(** *** JSON.parse: the lexer *)

Inductive token : Type :=
| TLBrace | TRBrace | TLBracket | TRBracket | TColon | TComma
| TString (s : string)
| TNumber (lit : string)
| TTrue | TFalse | TNull.

(** Where the lexer is inside a number literal: an optional minus sign, an
    integer part (a single 0, or digits that do not start with 0), an
    optional fraction (a dot and digits) and an optional exponent (e or E,
    an optional sign, digits). *)
Inductive num_state : Type :=
| NMinus | NZero | NInt | NDot | NFrac | NE | NESign | NExp.

Inductive lex_state : Type :=
| LStart
| LStr (acc : string)
| LEsc (acc : string)
| LHex (acc : string) (seen : nat) (code : nat)
| LNum (ns : num_state) (acc : string)
| LWord (rest : string) (tok : token).

Definition is_ws (c : ascii) : bool :=
  let n := nat_of_ascii c in
  Nat.eqb n 32 || Nat.eqb n 9 || Nat.eqb n 10 || Nat.eqb n 13.

Definition is_digit (c : ascii) : bool :=
  let n := nat_of_ascii c in Nat.leb 48 n && Nat.leb n 57.

Definition hex_value (c : ascii) : option nat :=
  let n := nat_of_ascii c in
  if Nat.leb 48 n && Nat.leb n 57 then Some (n - 48)
  else if Nat.leb 65 n && Nat.leb n 70 then Some (n - 55)
  else if Nat.leb 97 n && Nat.leb n 102 then Some (n - 87)
  else None.

(** The UTF-8 encoding of a code unit given by a \u escape. *)
Definition utf8 (n : nat) : string :=
  if Nat.ltb n 128 then String (ascii_of_nat n) EmptyString
  else if Nat.ltb n 2048 then
    String (ascii_of_nat (192 + n / 64))
      (String (ascii_of_nat (128 + n mod 64)) EmptyString)
  else
    String (ascii_of_nat (224 + n / 4096))
      (String (ascii_of_nat (128 + (n / 64) mod 64))
         (String (ascii_of_nat (128 + n mod 64)) EmptyString)).

(** The text so far ends with an escaped high surrogate (U+D800 to U+DBFF,
    the bytes ED A0..AF 80..BF): the text before it and the ten bits it
    carries. *)
Fixpoint ends_with_high_surrogate (s : string) : option (string * nat) :=
  match s with
  | String a (String b (String c EmptyString)) =>
      let x := nat_of_ascii a in
      let y := nat_of_ascii b in
      let z := nat_of_ascii c in
      if Nat.eqb x 237 && Nat.leb 160 y && Nat.leb y 175
         && Nat.leb 128 z && Nat.leb z 191
      then Some (EmptyString, (y - 160) * 64 + (z - 128))
      else None
  | String a rest =>
      match ends_with_high_surrogate rest with
      | Some (before, hi) => Some (String a before, hi)
      | None => None
      end
  | EmptyString => None
  end.

(** The four bytes of a character outside the basic plane, given by the
    ten bits of its high and of its low surrogate. *)
Definition utf8_pair (hi lo : nat) : string :=
  let w := hi + 64 in
  String (ascii_of_nat (240 + w / 256))
    (String (ascii_of_nat (128 + (w / 4) mod 64))
       (String (ascii_of_nat (128 + (w mod 4) * 16 + lo / 64))
          (String (ascii_of_nat (128 + lo mod 64)) EmptyString))).

(** The text with the code unit of a \u escape added: a low surrogate
    (U+DC00 to U+DFFF) right after a high one makes one character with it. *)
Definition add_code_unit (acc : string) (n : nat) : string :=
  if Nat.eqb (n / 1024) 55 then
    match ends_with_high_surrogate acc with
    | Some (before, hi) => before ++ utf8_pair hi (n mod 1024)
    | None => acc ++ utf8 n
    end
  else acc ++ utf8 n.

Definition num_accepting (ns : num_state) : bool :=
  match ns with
  | NZero | NInt | NFrac | NExp => true
  | NMinus | NDot | NE | NESign => false
  end.

(** The next state inside a number, if the character continues it. *)
Definition num_step (ns : num_state) (c : ascii) : option num_state :=
  let n := nat_of_ascii c in
  let digit := is_digit c in
  let dot := Nat.eqb n 46 in
  let e := Nat.eqb n 101 || Nat.eqb n 69 in
  let sign := Nat.eqb n 43 || Nat.eqb n 45 in
  match ns with
  | NMinus => if Nat.eqb n 48 then Some NZero else if digit then Some NInt else None
  | NZero => if dot then Some NDot else if e then Some NE else None
  | NInt => if digit then Some NInt else if dot then Some NDot
            else if e then Some NE else None
  | NDot => if digit then Some NFrac else None
  | NFrac => if digit then Some NFrac else if e then Some NE else None
  | NE => if sign then Some NESign else if digit then Some NExp else None
  | NESign => if digit then Some NExp else None
  | NExp => if digit then Some NExp else None
  end.

Definition lex_start (c : ascii) : option (lex_state * list token) :=
  let n := nat_of_ascii c in
  if is_ws c then Some (LStart, [])
  else if Nat.eqb n 123 then Some (LStart, [TLBrace])
  else if Nat.eqb n 125 then Some (LStart, [TRBrace])
  else if Nat.eqb n 91 then Some (LStart, [TLBracket])
  else if Nat.eqb n 93 then Some (LStart, [TRBracket])
  else if Nat.eqb n 58 then Some (LStart, [TColon])
  else if Nat.eqb n 44 then Some (LStart, [TComma])
  else if Nat.eqb n 34 then Some (LStr EmptyString, [])
  else if Nat.eqb n 45 then Some (LNum NMinus (String c EmptyString), [])
  else if Nat.eqb n 48 then Some (LNum NZero (String c EmptyString), [])
  else if is_digit c then Some (LNum NInt (String c EmptyString), [])
  else if Nat.eqb n 116 then Some (LWord "rue" TTrue, [])
  else if Nat.eqb n 102 then Some (LWord "alse" TFalse, [])
  else if Nat.eqb n 110 then Some (LWord "ull" TNull, [])
  else None.

Definition lex_step (st : lex_state) (c : ascii) : option (lex_state * list token) :=
  let n := nat_of_ascii c in
  match st with
  | LStart => lex_start c
  | LStr acc =>
      if Nat.eqb n 34 then Some (LStart, [TString acc])
      else if Nat.eqb n 92 then Some (LEsc acc, [])
      else if Nat.ltb n 32 then None
      else Some (LStr (snoc acc c), [])
  | LEsc acc =>
      if Nat.eqb n 34 || Nat.eqb n 92 || Nat.eqb n 47 then Some (LStr (snoc acc c), [])
      else if Nat.eqb n 98 then Some (LStr (snoc acc (ascii_of_nat 8)), [])
      else if Nat.eqb n 102 then Some (LStr (snoc acc (ascii_of_nat 12)), [])
      else if Nat.eqb n 110 then Some (LStr (snoc acc (ascii_of_nat 10)), [])
      else if Nat.eqb n 114 then Some (LStr (snoc acc (ascii_of_nat 13)), [])
      else if Nat.eqb n 116 then Some (LStr (snoc acc (ascii_of_nat 9)), [])
      else if Nat.eqb n 117 then Some (LHex acc 0 0, [])
      else None
  | LHex acc seen code =>
      match hex_value c with
      | None => None
      | Some d =>
          if Nat.eqb seen 3 then Some (LStr (add_code_unit acc (16 * code + d)), [])
          else Some (LHex acc (S seen) (16 * code + d), [])
      end
  | LNum ns acc =>
      match num_step ns c with
      | Some ns' => Some (LNum ns' (snoc acc c), [])
      | None =>
          if num_accepting ns then
            match lex_start c with
            | Some (st', toks) => Some (st', TNumber acc :: toks)
            | None => None
            end
          else None
      end
  | LWord rest tok =>
      match rest with
      | EmptyString => None
      | String e rest' =>
          if Ascii.eqb c e then
            match rest' with
            | EmptyString => Some (LStart, [tok])
            | _ => Some (LWord rest' tok, [])
            end
          else None
      end
  end.

Definition lex_finish (st : lex_state) : option (list token) :=
  match st with
  | LStart => Some []
  | LNum ns acc => if num_accepting ns then Some [TNumber acc] else None
  | _ => None
  end.

Fixpoint lex (st : lex_state) (s : string) : option (list token) :=
  match s with
  | EmptyString => lex_finish st
  | String c s' =>
      match lex_step st c with
      | None => None
      | Some (st', toks) =>
          match lex st' s' with
          | None => None
          | Some rest => Some (toks ++ rest)%list
          end
      end
  end.

(** *** JSON.parse: the parser, a stack machine over the tokens *)

Inductive frame : Type :=
| FArr (done : list jsval)
| FObj (done : list (string * jsval)) (key : string).

Inductive parse_state : Type :=
| SVal (stk : list frame)
| SArr0 (stk : list frame)
| SObj0 (stk : list frame)
| SKey (stk : list frame) (done : list (string * jsval))
| SColon (stk : list frame) (done : list (string * jsval)) (key : string)
| SDone (v : jsval) (stk : list frame).

Definition parse_value_token (stk : list frame) (t : token) : option parse_state :=
  match t with
  | TString s => Some (SDone (VStr s) stk)
  | TNumber lit => Some (SDone (VNum lit) stk)
  | TTrue => Some (SDone (VBool true) stk)
  | TFalse => Some (SDone (VBool false) stk)
  | TNull => Some (SDone VNull stk)
  | TLBracket => Some (SArr0 stk)
  | TLBrace => Some (SObj0 stk)
  | _ => None
  end.

Definition parse_step (st : parse_state) (t : token) : option parse_state :=
  match st with
  | SVal stk => parse_value_token stk t
  | SArr0 stk =>
      match t with
      | TRBracket => Some (SDone (VArr []) stk)
      | _ => parse_value_token (FArr [] :: stk) t
      end
  | SObj0 stk =>
      match t with
      | TRBrace => Some (SDone (VObj []) stk)
      | TString k => Some (SColon stk [] k)
      | _ => None
      end
  | SKey stk done =>
      match t with
      | TString k => Some (SColon stk done k)
      | _ => None
      end
  | SColon stk done k =>
      match t with
      | TColon => Some (SVal (FObj done k :: stk))
      | _ => None
      end
  | SDone v stk =>
      match stk, t with
      | FArr done :: stk', TComma => Some (SVal (FArr (v :: done) :: stk'))
      | FArr done :: stk', TRBracket => Some (SDone (VArr (rev (v :: done))) stk')
      | FObj done k :: stk', TComma => Some (SKey stk' ((k, v) :: done))
      | FObj done k :: stk', TRBrace => Some (SDone (VObj (rev ((k, v) :: done))) stk')
      | _, _ => None
      end
  end.

Fixpoint parse_tokens (st : parse_state) (ts : list token) : option jsval :=
  match ts with
  | [] => match st with
          | SDone v [] => Some v
          | _ => None
          end
  | t :: ts' =>
      match parse_step st t with
      | None => None
      | Some st' => parse_tokens st' ts'
      end
  end.

(** [JSON.parse] of a text: [None] is the SyntaxError. *)
Definition parse (s : string) : option jsval :=
  match lex LStart s with
  | None => None
  | Some ts => parse_tokens (SVal []) ts
  end.

End JSON.

(** *** Conversions the host code applies to values *)

Definition digit_value (c : ascii) : option Z :=
  let n := nat_of_ascii c in
  if Nat.leb 48 n && Nat.leb n 57 then Some (Z.of_nat (n - 48)) else None.

(** The part of a number literal before its exponent: the integer its
    digits spell (those of the fraction included), the number of digits of
    the fraction, and the text after the [e]. *)
Fixpoint read_mantissa (lit : string) (point : bool) (m frac : Z) : Z * Z * string :=
  match lit with
  | EmptyString => (m, frac, EmptyString)
  | String c lit' =>
      let n := nat_of_ascii c in
      if Nat.eqb n 101 || Nat.eqb n 69 then (m, frac, lit')
      else if Nat.eqb n 46 then read_mantissa lit' true m frac
      else match digit_value c with
           | Some d => read_mantissa lit' point (10 * m + d)
                         (if point then frac + 1 else frac)
           | None => read_mantissa lit' point m frac
           end
  end.

Fixpoint read_digits (s : string) (e : Z) : Z :=
  match s with
  | EmptyString => e
  | String c s' =>
      match digit_value c with
      | Some d => read_digits s' (10 * e + d)
      | None => read_digits s' e
      end
  end.

(** The exponent: an optional sign and digits. *)
Definition read_exponent (s : string) : Z :=
  match s with
  | String c s' => if Nat.eqb (nat_of_ascii c) 45 then (- read_digits s' 0)%Z
                   else read_digits s 0
  | EmptyString => 0%Z
  end.

(** A number literal denotes the number 0 (or -0) when its digits are all
    0, or when its value [m * 10 ^ e] is so small that the nearest double is
    0: when it is at most 2 ^ -1075, half the least positive double (a tie
    goes to the even neighbour, which is 0). *)
Definition literal_is_zero (lit : string) : bool :=
  match read_mantissa lit false 0 0 with
  | (m, frac, exponent) =>
      let e := (read_exponent exponent - frac)%Z in
      (m =? 0)%Z || ((e <? 0)%Z && (m * 2 ^ 1075 <=? 10 ^ (- e))%Z)
  end.

(** ToBoolean, the test of an [if]. *)
Definition ToBoolean (v : jsval) : bool :=
  match v with
  | VUndef | VNull => false
  | VBool b => b
  | VNum lit => negb (literal_is_zero lit)
  | VStr s => negb (String.eqb s EmptyString)
  | VArr _ | VObj _ => true
  end.

(** The last binding of a key: a later duplicate overwrites an earlier one. *)
Fixpoint lookup_member (k : string) (ms : list (string * jsval)) : option jsval :=
  match ms with
  | [] => None
  | (k', v) :: ms' =>
      match lookup_member k ms' with
      | Some v' => Some v'
      | None => if String.eqb k' k then Some v else None
      end
  end.

(** ** Failures and completions *)

Inductive js_error : Type :=
| JsError (message : jsval)   (* [new Error(message)], made by the host code *)
| SyntaxError                 (* raised by JSON.parse *)
| TypeError                   (* a property read on null or undefined *)
| RangeError                  (* a typed-array view outside the buffer *)
| CompileError                (* WebAssembly.compile rejects *)
| LinkError                   (* WebAssembly.instantiate: an import does not fit *)
| RuntimeError.               (* a trap inside the sandbox *)

Inductive completion (A : Type) : Type :=
| Return (a : A)
| Throw (e : js_error).
Arguments Return {A} a.
Arguments Throw {A} e.

(** The failures the host code constructs itself; the others are raised by
    the platform under it. *)
Definition host_made (e : js_error) : bool :=
  match e with
  | JsError _ => true
  | _ => false
  end.

(** The value read by [v.k] for the keys the source reads ([error], [data]),
    which no array, string, number or boolean has. *)
Definition get_property (v : jsval) (k : string) : completion jsval :=
  match v with
  | VUndef | VNull => Throw TypeError
  | VObj ms => match lookup_member k ms with
               | Some x => Return x
               | None => Return VUndef
               end
  | _ => Return VUndef
  end.

(** The tail of both [evaluate] functions (from line 142 of evaluate.js and
    line 92 of evaluator.js): the error of the envelope is thrown when it is
    truthy, otherwise the data are returned. *)
Definition interpret (output : jsval) : completion jsval :=
  match get_property output "error" with
  | Throw e => Throw e
  | Return error =>
      if ToBoolean error then Throw (JsError error)
      else get_property output "data"
  end.

(** The holding location of the output text: [let outputStr;] starts
    undefined, the field [_outputStr] starts null. *)
Inductive slot : Type :=
| SUndefined
| SNull
| SText (s : string).

(** [JSON.parse(x)] first converts [x] to a string. *)
Definition JSON_parse (x : slot) : completion jsval :=
  let text := match x with
              | SUndefined => "undefined"
              | SNull => "null"
              | SText s => s
              end in
  match JSON.parse text with
  | Some v => Return v
  | None => Throw SyntaxError
  end.

(** [new TextEncoder().encode(s)]; an undefined argument encodes as the
    empty string. *)
Definition TextEncoder_encode (s : option string) : list byte :=
  match s with
  | Some t => list_byte_of_string t
  | None => []
  end.

(** The UTF-8 byte order mark, EF BB BF. *)
Definition has_BOM (bytes : list byte) : bool :=
  match bytes with
  | a :: rest =>
      Byte.eqb a xef
      && match rest with
         | b :: rest' =>
             Byte.eqb b xbb
             && match rest' with
                | c :: _ => Byte.eqb c xbf
                | [] => false
                end
         | [] => false
         end
  | [] => false
  end.

(** [new TextDecoder().decode(bytes)]: a byte order mark at the start is
    left out of the text ([ignoreBOM] is false by default). *)
Definition TextDecoder_decode (bytes : list byte) : string :=
  string_of_list_byte (if has_BOM bytes then skipn 3 bytes else bytes).

(** [new Uint8Array(buffer, ptr, len)]: the bytes in view, or [None] for the
    RangeError of a view that does not fit the buffer. *)
Definition Uint8Array_view (buffer : list byte) (ptr len : Z) : option (list byte) :=
  if ((0 <=? ptr) && (0 <=? len) && (ptr + len <=? Z.of_nat (List.length buffer)))%Z
  then Some (firstn (Z.to_nat len) (skipn (Z.to_nat ptr) buffer))
  else None.

(** [view.set(bytes)] for a view of [length bytes] bytes at [ptr]. *)
Definition Uint8Array_set (buffer : list byte) (ptr : Z) (bytes : list byte) : list byte :=
  (firstn (Z.to_nat ptr) buffer ++ bytes
     ++ skipn (Z.to_nat ptr + List.length bytes) buffer)%list.

(** ** Dates and the Request Envelope *)

Record Date : Type := {
  toISOString : string;
  getFullYear : Z;
  getMonth : nat;
  getDate : nat
}.

Definition string_of_Z (z : Z) : string := NilZero.string_of_int (Z.to_int z).

(** Reading an array of strings inside a template literal: an index out of
    range gives undefined, printed as such. *)
Definition index_text (l : list string) (i : nat) : string := nth i l "undefined".

Definition nowToDate (now : Date) : string :=
  let months := ["01"; "02"; "03"; "04"; "05"; "06";
                 "07"; "08"; "09"; "10"; "11"; "12"] in
  let days := ["00"; "01"; "02"; "03"; "04"; "05"; "06"; "07"; "08"; "09";
               "10"; "11"; "12"; "13"; "14"; "15"; "16"; "17"; "18"; "19";
               "20"; "21"; "22"; "23"; "24"; "25"; "26"; "27"; "28"; "29";
               "30"; "31"] in
  string_of_Z (getFullYear now) ++ "-" ++ index_text months (getMonth now)
    ++ "-" ++ index_text days (getDate now).

(** The object literal [inputJson], the same in evaluate.js and
    evaluator.js. *)
Definition inputJson (expression : string) (value previousValue : jsval) (now : Date)
  : list (string * jsval) :=
  [ ("expression", VStr expression);
    ("value", match value with VUndef => VNull | _ => value end);
    ("previousValue", previousValue);
    ("now", VStr (toISOString now));
    ("date", VStr (nowToDate now)) ].

Definition inputStr (expression : string) (value previousValue : jsval) (now : Date)
  : option string :=
  JSON.stringify (VObj (inputJson expression value previousValue now)).

Definition inputBytes (expression : string) (value previousValue : jsval) (now : Date)
  : list byte :=
  TextEncoder_encode (inputStr expression value previousValue now).


(** ** The sandbox, the process and the host code *)

Section Host.

(** The private state of a sandbox instance (globals, allocator
    bookkeeping); the linear memory is kept beside it. *)
Context {X : Type}.

Record instance_state : Type := {
  memory : list byte;
  internals : X
}.

(** What a call of an export gives back: a result and the state of the
    instance after it, or a trap. *)
Inductive call_result (A : Type) : Type :=
| Returned (a : A) (st : instance_state)
| Trapped (st : instance_state).
Arguments Returned {A} a st.
Arguments Trapped {A} st.

(** What a call of the entry point does: it calls the import
    [evaluator.output] any number of times, each time with the instance in
    some state, and then returns or traps. *)
Inductive run_outcome : Type :=
| RunOutput (st : instance_state) (outputPtr outputLen : Z) (k : run_outcome)
| RunReturn (st : instance_state)
| RunTrap (st : instance_state).

(** A compiled module: the state of a fresh instance ([None] when
    instantiation fails, and then [start_failure] is what it fails with: a
    LinkError for an import that does not fit, a RuntimeError for a start
    function that traps) and its exports [alloc], [free] and [run].  The
    exports receive the numbers the host passes and the state of the
    instance, memory included.  Only [run] calls the import; instantiation,
    [alloc] and [free] do not. *)
Record compiled_module : Type := {
  start : option instance_state;
  start_failure : js_error;
  alloc : Z -> instance_state -> call_result Z;
  free : Z -> Z -> instance_state -> call_result unit;
  run : Z -> Z -> instance_state -> run_outcome
}.

(** What the platform's compiler makes of the bytes of an artifact. *)
Variable compiles_to : list byte -> option compiled_module.

(** What the process does that can be observed from outside the host code. *)
Inductive event : Type :=
| EReadFile
| ECompile
| EInstantiate
| EAlloc (len : Z)
| EWrite (ptr : Z) (bytes : list byte)
| ERun (ptr len : Z)
| EOutput (ptr len : Z)
| EFree (ptr len : Z).

(** The calls into the sandbox. *)
Definition sandbox_call (e : event) : bool :=
  match e with
  | EInstantiate | EAlloc _ | ERun _ _ | EFree _ _ => true
  | _ => false
  end.

Definition is_alloc (e : event) : bool :=
  match e with EAlloc _ => true | _ => false end.
Definition is_free (e : event) : bool :=
  match e with EFree _ _ => true | _ => false end.
Definition is_compile (e : event) : bool :=
  match e with ECompile => true | _ => false end.
Definition is_read (e : event) : bool :=
  match e with EReadFile => true | _ => false end.

(** A promise made by [WebAssembly.compile]: its identity and what it
    settles to. *)
Record promise : Type := {
  pid : nat;
  outcome : completion compiled_module
}.

(** The top-level bindings of evaluate.js and of evaluator.js (lines 12 to
    33, the same text in both files). *)
Record jsmod : Type := {
  loaded : bool;
  file : option (list byte);
  modulePromise : option promise
}.

Inductive js_file : Type := evaluate_js | evaluator_js.

Record instance : Type := {
  exports : compiled_module;
  state : instance_state
}.

(** An object of class [Evaluator].  The field [_memory] is the memory of
    [_instance], set in the same step of [create]; it is read here as
    [memory (state _instance)]. *)
Record Evaluator : Type := {
  _instance : option instance;
  _outputStr : slot
}.

Record world : Type := {
  artifact : option (list byte);   (* evaluator.wasm, when it is there *)
  log : list event;                (* oldest first *)
  next_promise : nat;
  settled : list nat;
  vars_evaluate_js : jsmod;
  vars_evaluator_js : jsmod;
  objects : nat -> Evaluator;
  next_object : nat
}.

Definition unloaded : jsmod :=
  {| loaded := false; file := None; modulePromise := None |}.

Definition new_Evaluator : Evaluator :=
  {| _instance := None; _outputStr := SNull |}.

(** A process that has loaded nothing yet. *)
Definition boot (artifact : option (list byte)) : world :=
  {| artifact := artifact; log := []; next_promise := 0; settled := [];
     vars_evaluate_js := unloaded; vars_evaluator_js := unloaded;
     objects := fun _ => new_Evaluator; next_object := 0 |}.

Definition vars (f : js_file) (w : world) : jsmod :=
  match f with
  | evaluate_js => vars_evaluate_js w
  | evaluator_js => vars_evaluator_js w
  end.

Definition set_vars (f : js_file) (c : jsmod) (w : world) : world :=
  {| artifact := artifact w; log := log w; next_promise := next_promise w;
     settled := settled w;
     vars_evaluate_js := match f with evaluate_js => c | _ => vars_evaluate_js w end;
     vars_evaluator_js := match f with evaluator_js => c | _ => vars_evaluator_js w end;
     objects := objects w; next_object := next_object w |}.

Definition add_event (e : event) (w : world) : world :=
  {| artifact := artifact w; log := log w ++ [e]; next_promise := next_promise w;
     settled := settled w; vars_evaluate_js := vars_evaluate_js w;
     vars_evaluator_js := vars_evaluator_js w;
     objects := objects w; next_object := next_object w |}.

Definition set_object (this : nat) (o : Evaluator) (w : world) : world :=
  {| artifact := artifact w; log := log w; next_promise := next_promise w;
     settled := settled w; vars_evaluate_js := vars_evaluate_js w;
     vars_evaluator_js := vars_evaluator_js w;
     objects := fun i => if Nat.eqb i this then o else objects w i;
     next_object := next_object w |}.

(** *** Computations of the host: a state and exception monad *)

Definition M (A : Type) : Type := world -> completion A * world.

Definition ret {A : Type} (a : A) : M A := fun w => (Return a, w).
Definition throw {A : Type} (e : js_error) : M A := fun w => (Throw e, w).
Definition bind {A B : Type} (c : M A) (k : A -> M B) : M B :=
  fun w => match c w with
           | (Return a, w') => k a w'
           | (Throw e, w') => (Throw e, w')
           end.
Definition lift {A : Type} (c : completion A) : M A := fun w => (c, w).
Definition emit (e : event) : M unit := fun w => (Return tt, add_event e w).

Notation "x <- c ;; k" := (bind c (fun x => k))
  (at level 61, c at next level, right associativity).
Notation "' pat <- c ;; k" := (bind c (fun x => match x with pat => k end))
  (at level 61, pat pattern, c at next level, right associativity).
Notation "c ;; k" := (bind c (fun _ => k))
  (at level 61, right associativity).

(** *** Lines 12 to 33 of both files: the artifact and the module cache *)

Definition not_found_message : string :=
  "Could not find evaluator.wasm; you probably need to build it first. See the README.md or the Makefile.".

(** [require] of one of the two files: its top-level code runs unless Node
    has the file loaded already. *)
Definition require (f : js_file) : M unit :=
  fun w =>
    if loaded (vars f w) then (Return tt, w)
    else
      let w1 := add_event EReadFile w in
      match artifact w with
      | Some bytes =>
          (Return tt,
           set_vars f {| loaded := true; file := Some bytes; modulePromise := None |} w1)
      | None => (Throw (JsError (VStr not_found_message)), w1)
      end.

(** What [WebAssembly.compile(file)] settles to: the module, a CompileError
    for bytes that are no module, a TypeError for an undefined [file]. *)
Definition compile_outcome (file : option (list byte)) : completion compiled_module :=
  match file with
  | None => Throw TypeError
  | Some bytes =>
      match compiles_to bytes with
      | Some m => Return m
      | None => Throw CompileError
      end
  end.

(** [WebAssembly.compile(file)]: a new promise. *)
Definition WebAssembly_compile (file : option (list byte)) : M promise :=
  fun w =>
    let p := {| pid := next_promise w; outcome := compile_outcome file |} in
    let w1 := add_event ECompile w in
    (Return p,
     {| artifact := artifact w1; log := log w1; next_promise := S (next_promise w1);
        settled := settled w1; vars_evaluate_js := vars_evaluate_js w1;
        vars_evaluator_js := vars_evaluator_js w1;
        objects := objects w1; next_object := next_object w1 |}).

Definition loadModule (f : js_file) : M promise :=
  fun w =>
    match modulePromise (vars f w) with
    | Some p => (Return p, w)
    | None =>
        (p <- WebAssembly_compile (file (vars f w)) ;;
         fun w' => (Return p,
                    set_vars f {| loaded := loaded (vars f w');
                                  file := file (vars f w');
                                  modulePromise := Some p |} w')) w
    end.

(** [await p]: the promise has settled when the caller goes on. *)
Definition await (p : promise) : M compiled_module :=
  fun w =>
    (outcome p,
     {| artifact := artifact w; log := log w; next_promise := next_promise w;
        settled := pid p :: settled w; vars_evaluate_js := vars_evaluate_js w;
        vars_evaluator_js := vars_evaluator_js w;
        objects := objects w; next_object := next_object w |}).

(** [const module = await loadModule()], as both files have it. *)
Definition loaded_module (f : js_file) : M compiled_module :=
  p <- loadModule f ;; await p.

(** [WebAssembly.instantiate(module, imports)]. *)
Definition WebAssembly_instantiate (module : compiled_module) : M instance_state :=
  emit EInstantiate ;;
  match start module with
  | Some st => ret st
  | None => throw (start_failure module)
  end.

(** *** The import [evaluator.output]

    The body of the closure is the same in both files: a view of the
    current buffer of the memory, decoded as UTF-8.  What differs is the
    variable the text is assigned to. *)
Definition output (buffer : list byte) (outputPtr outputLen : Z) : completion string :=
  match Uint8Array_view buffer outputPtr outputLen with
  | Some outputMem => Return (TextDecoder_decode outputMem)
  | None => Throw RangeError
  end.

(** *** evaluate.js: the function [evaluate] *)

(** A call of an export of the local instance. *)
Definition call {A : Type} (e : event) (r : call_result A) : M (A * instance_state) :=
  emit e ;;
  match r with
  | Returned a st => ret (a, st)
  | Trapped _ => throw RuntimeError
  end.

(** [new Uint8Array(memory.buffer, inputPtr, inputLen)] and [inputMem.set(bytes)]. *)
Definition inputMem_set (st : instance_state) (inputPtr inputLen : Z) (bytes : list byte)
  : M instance_state :=
  match Uint8Array_view (memory st) inputPtr inputLen with
  | None => throw RangeError
  | Some _ =>
      emit (EWrite inputPtr bytes) ;;
      ret {| memory := Uint8Array_set (memory st) inputPtr bytes;
             internals := internals st |}
  end.

(** The call [run(inputPtr, inputLen)] with the closure of line 81 as its
    import: each call of the import assigns the local [outputStr]. *)
Fixpoint run_with_output (r : run_outcome) (outputStr : slot) : M (slot * instance_state) :=
  match r with
  | RunOutput st outputPtr outputLen k =>
      emit (EOutput outputPtr outputLen) ;;
      s <- lift (output (memory st) outputPtr outputLen) ;;
      run_with_output k (SText s)
  | RunReturn st => ret (outputStr, st)
  | RunTrap _ => throw RuntimeError
  end.

Definition evaluate (expression : string) (value previousValue : jsval) (now : Date)
  : M jsval :=
  module <- loaded_module evaluate_js ;;
  let outputStr := SUndefined in
  st <- WebAssembly_instantiate module ;;
  let bytes := inputBytes expression value previousValue now in
  ' (inputPtr, st) <- call (EAlloc (Z.of_nat (List.length bytes)))
                           (alloc module (Z.of_nat (List.length bytes)) st) ;;
  let inputLen := Z.of_nat (List.length bytes) in
  st <- inputMem_set st inputPtr inputLen bytes ;;
  ' (outputStr, st) <- (emit (ERun inputPtr inputLen) ;;
                        run_with_output (run module inputPtr inputLen st) outputStr) ;;
  ' (_, st) <- call (EFree inputPtr inputLen) (free module inputPtr inputLen st) ;;
  output <- lift (JSON_parse outputStr) ;;
  lift (interpret output).

(** *** evaluator.js: the class [Evaluator] *)

Definition set_state (this : nat) (st : instance_state) : M unit :=
  fun w =>
    let self := objects w this in
    (Return tt,
     set_object this
       {| _instance := match _instance self with
                       | Some i => Some {| exports := exports i; state := st |}
                       | None => None
                       end;
          _outputStr := _outputStr self |} w).

Definition set_outputStr (this : nat) (x : slot) : M unit :=
  fun w =>
    let self := objects w this in
    (Return tt, set_object this {| _instance := _instance self; _outputStr := x |} w).

Definition get_object (this : nat) : M Evaluator := fun w => (Return (objects w this), w).

(** [new Evaluator()]. *)
Definition Evaluator_new : M nat :=
  fun w =>
    (Return (next_object w),
     {| artifact := artifact w; log := log w; next_promise := next_promise w;
        settled := settled w; vars_evaluate_js := vars_evaluate_js w;
        vars_evaluator_js := vars_evaluator_js w;
        objects := fun i => if Nat.eqb i (next_object w) then new_Evaluator else objects w i;
        next_object := S (next_object w) |}).

Definition Evaluator_create : M nat :=
  self <- Evaluator_new ;;
  module <- loaded_module evaluator_js ;;
  st <- WebAssembly_instantiate module ;;
  (fun w => (Return tt,
             set_object self {| _instance := Some {| exports := module; state := st |};
                                _outputStr := _outputStr (objects w self) |} w)) ;;
  ret self.

(** A call of an export of [this._instance]: the instance keeps the state
    the call leaves it in, also after a trap. *)
Definition call_on {A : Type} (this : nat) (e : event) (r : call_result A)
  : M (A * instance_state) :=
  emit e ;;
  match r with
  | Returned a st => set_state this st ;; ret (a, st)
  | Trapped st => set_state this st ;; throw RuntimeError
  end.

(** The call [run(inputPtr, inputLen)] with the closure of line 50 as its
    import: each call of the import assigns [self._outputStr]. *)
Fixpoint run_on (this : nat) (r : run_outcome) : M instance_state :=
  match r with
  | RunOutput st outputPtr outputLen k =>
      set_state this st ;;
      emit (EOutput outputPtr outputLen) ;;
      s <- lift (output (memory st) outputPtr outputLen) ;;
      set_outputStr this (SText s) ;;
      run_on this k
  | RunReturn st => set_state this st ;; ret st
  | RunTrap st => set_state this st ;; throw RuntimeError
  end.

Definition Evaluator_evaluate (this : nat)
  (expression : string) (value previousValue : jsval) (now : Date) : M jsval :=
  self <- get_object this ;;
  match _instance self with
  | None => throw TypeError
  | Some i =>
      let module := exports i in
      let bytes := inputBytes expression value previousValue now in
      ' (inputPtr, st) <- call_on this (EAlloc (Z.of_nat (List.length bytes)))
                               (alloc module (Z.of_nat (List.length bytes)) (state i)) ;;
      let inputLen := Z.of_nat (List.length bytes) in
      st <- inputMem_set st inputPtr inputLen bytes ;;
      set_state this st ;;
      emit (ERun inputPtr inputLen) ;;
      st <- run_on this (run module inputPtr inputLen st) ;;
      _ <- call_on this (EFree inputPtr inputLen) (free module inputPtr inputLen st) ;;
      self <- get_object this ;;
      output <- lift (JSON_parse (_outputStr self)) ;;
      set_outputStr this SNull ;;
      lift (interpret output)
  end.

(** *** index.js and other callers *)

(** [const evaluate = require("./evaluate")] followed by a call, and
    [const { Evaluator } = require("./evaluator")] followed by
    [Evaluator.create()]. *)
Definition use_evaluate (expression : string) (value previousValue : jsval) (now : Date)
  : M jsval :=
  require evaluate_js ;; evaluate expression value previousValue now.

Definition use_Evaluator_create : M nat :=
  require evaluator_js ;; Evaluator_create.

(** The program index.js, without its printing; [clock k] is the time at
    the k-th call. *)
Definition index_js (clock : nat -> Date) : M unit :=
  require evaluate_js ;;
  require evaluator_js ;;
  let expression :=
    "ListPrice < LAST ListPrice .OR. (ClosePrice != .EMPTY. .AND. LAST ClosePrice = .EMPTY. .AND. ClosePrice < ListPrice)" in
  let resourceData := VObj [("ListPrice", VNum "490000")] in
  let previousResourceData := VObj [("ListPrice", VNum "500000")] in
  let bathroomsTotalIntegerExpression :=
    "IIF(BathroomsFull = .EMPTY., 0, BathroomsFull) + IIF(BathroomsPartial = .EMPTY., IIF(BathroomsHalf = .EMPTY., 0, BathroomsHalf), BathroomsPartial)" in
  evaluate expression resourceData previousResourceData (clock 0) ;;
  evaluate bathroomsTotalIntegerExpression
    (VObj [("BathroomsFull", VNum "2")]) VUndef (clock 1) ;;
  evaluate bathroomsTotalIntegerExpression
    (VObj [("BathroomsFull", VNum "2"); ("BathroomsPartial", VNum "1")]) VUndef (clock 2) ;;
  evaluate ".NOW." VUndef VUndef (clock 3) ;;
  evaluator <- Evaluator_create ;;
  Evaluator_evaluate evaluator expression resourceData previousResourceData (clock 4) ;;
  Evaluator_evaluate evaluator bathroomsTotalIntegerExpression
    (VObj [("BathroomsFull", VNum "2")]) VUndef (clock 5) ;;
  Evaluator_evaluate evaluator bathroomsTotalIntegerExpression
    (VObj [("BathroomsFull", VNum "2"); ("BathroomsPartial", VNum "1")]) VUndef (clock 6) ;;
  Evaluator_evaluate evaluator ".NOW." VUndef VUndef (clock 7) ;;
  ret tt.

(** Callers of [loadModule] of one file, between which the promise it
    caches may settle. *)
Inductive cache_step : Type :=
| CallLoadModule
| Settle.

Definition is_call (c : cache_step) : bool :=
  match c with CallLoadModule => true | Settle => false end.

Definition settle (f : js_file) : M unit :=
  fun w =>
    match modulePromise (vars f w) with
    | Some p => (Return tt, snd (await p w))
    | None => (Return tt, w)
    end.

Fixpoint load_steps (f : js_file) (steps : list cache_step) : M (list promise) :=
  match steps with
  | [] => ret []
  | CallLoadModule :: rest =>
      p <- loadModule f ;;
      ps <- load_steps f rest ;;
      ret (p :: ps)
  | Settle :: rest => settle f ;; load_steps f rest
  end.

(** *** Calls of [evaluate] that overlap

    An async function runs without interruption up to an [await] and goes
    on when the promise it awaits has settled; in between, other calls may
    run.  [evaluate] has two: [await loadModule()] on line 52 and
    [await WebAssembly.instantiate(module, imports)] on line 93. *)

(** Lines 95 to 147 of evaluate.js, which run without an [await]. *)
Definition evaluate_body (module : compiled_module) (st : instance_state)
  (expression : string) (value previousValue : jsval) (now : Date) : M jsval :=
  let outputStr := SUndefined in
  let bytes := inputBytes expression value previousValue now in
  ' (inputPtr, st) <- call (EAlloc (Z.of_nat (List.length bytes)))
                           (alloc module (Z.of_nat (List.length bytes)) st) ;;
  let inputLen := Z.of_nat (List.length bytes) in
  st <- inputMem_set st inputPtr inputLen bytes ;;
  ' (outputStr, st) <- (emit (ERun inputPtr inputLen) ;;
                        run_with_output (run module inputPtr inputLen st) outputStr) ;;
  ' (_, st) <- call (EFree inputPtr inputLen) (free module inputPtr inputLen st) ;;
  output <- lift (JSON_parse outputStr) ;;
  lift (interpret output).

(** Where a call of [evaluate] stands: just called, waiting for the module,
    waiting for the instance, or settled with its result. *)
Inductive pending : Type :=
| Called (expression : string) (value previousValue : jsval) (now : Date)
| AwaitsModule (p : promise)
    (expression : string) (value previousValue : jsval) (now : Date)
| AwaitsInstance (module : compiled_module) (c : completion instance_state)
    (expression : string) (value previousValue : jsval) (now : Date)
| Settled (c : completion jsval).

(** The call runs up to its next [await], or to its end. *)
Definition resume (c : pending) : M pending :=
  match c with
  | Called expression value previousValue now =>
      p <- loadModule evaluate_js ;;
      ret (AwaitsModule p expression value previousValue now)
  | AwaitsModule p expression value previousValue now =>
      fun w =>
        match await p w with
        | (Throw e, w1) => (Return (Settled (Throw e)), w1)
        | (Return module, w1) =>
            match WebAssembly_instantiate module w1 with
            | (c, w2) =>
                (Return (AwaitsInstance module c expression value previousValue now), w2)
            end
        end
  | AwaitsInstance module c expression value previousValue now =>
      match c with
      | Throw e => ret (Settled (Throw e))
      | Return st =>
          fun w =>
            match evaluate_body module st expression value previousValue now w with
            | (r, w1) => (Return (Settled r), w1)
            end
      end
  | Settled r => ret (Settled r)
  end.

(** Two calls that overlap: the schedule tells which of the two goes on
    next, [true] for the first. *)
Fixpoint overlap (schedule : list bool) (a b : pending) : M (pending * pending) :=
  match schedule with
  | [] => ret (a, b)
  | true :: rest => a' <- resume a ;; overlap rest a' b
  | false :: rest => b' <- resume b ;; overlap rest a b'
  end.

Definition settled_as (c : pending) : option (completion jsval) :=
  match c with
  | Settled r => Some r
  | _ => None
  end.

(** How often the schedule lets the given call go on. *)
Definition turns (who : bool) (schedule : list bool) : nat :=
  List.length (filter (Bool.eqb who) schedule).

(** What a call of [loadModule] adds to the log. *)
Definition compile_events (f : js_file) (w : world) : list event :=
  match modulePromise (vars f w) with
  | Some _ => []
  | None => [ECompile]
  end.

(** *** The per-call protocol, as the specification words it

    Steps 2 to 6 of an Evaluation Session written as one function of the
    module, the state of the instance, the request bytes and what the
    output variable holds when the call starts.  The two [evaluate]
    functions above are compared with it below. *)

Definition add_events (evs : list event) (w : world) : world :=
  fold_left (fun w e => add_event e w) evs w.

(** The events a computation added to the log. *)
Definition events_since (w w' : world) : list event :=
  skipn (List.length (log w)) (log w').

(** What a call of [run] amounts to for the host: how it completes, the
    state it leaves the instance in, the text the output variable holds
    afterwards and the calls of the import. *)
Record observed : Type := {
  completes : completion unit;
  leaves : instance_state;
  holds : slot;
  calls : list event
}.

Fixpoint observe (r : run_outcome) (x : slot) : observed :=
  match r with
  | RunOutput st outputPtr outputLen k =>
      match output (memory st) outputPtr outputLen with
      | Return s =>
          let o := observe k (SText s) in
          {| completes := completes o; leaves := leaves o; holds := holds o;
             calls := EOutput outputPtr outputLen :: calls o |}
      | Throw e =>
          {| completes := Throw e; leaves := st; holds := x;
             calls := [EOutput outputPtr outputLen] |}
      end
  | RunReturn st =>
      {| completes := Return tt; leaves := st; holds := x; calls := [] |}
  | RunTrap st =>
      {| completes := Throw RuntimeError; leaves := st; holds := x; calls := [] |}
  end.

(** [run] returns to the host: no trap, and no failure in the import. *)
Definition returns_to_host (r : run_outcome) : bool :=
  match completes (observe r SUndefined) with
  | Return _ => true
  | Throw _ => false
  end.

(** [run] returns to the host without having called the import. *)
Definition returns_silently (r : run_outcome) : bool :=
  match r with
  | RunReturn _ => true
  | _ => false
  end.

Record session : Type := {
  result : completion jsval;
  issued : list event;
  left_in : instance_state;
  held : slot;        (* the output text when the call ends, before it is cleared *)
  parsed : bool       (* the output text was parsed as JSON *)
}.

Definition per_call_protocol (m : compiled_module) (st0 : instance_state)
  (bytes : list byte) (x0 : slot) : session :=
  let len := Z.of_nat (List.length bytes) in
  match alloc m len st0 with
  | Trapped st =>
      {| result := Throw RuntimeError; issued := [EAlloc len];
         left_in := st; held := x0; parsed := false |}
  | Returned ptr st1 =>
      match Uint8Array_view (memory st1) ptr len with
      | None =>
          {| result := Throw RangeError; issued := [EAlloc len];
             left_in := st1; held := x0; parsed := false |}
      | Some _ =>
          let st2 := {| memory := Uint8Array_set (memory st1) ptr bytes;
                        internals := internals st1 |} in
          let o := observe (run m ptr len st2) x0 in
          let evs := ([EAlloc len; EWrite ptr bytes; ERun ptr len] ++ calls o)%list in
          match completes o with
          | Throw e =>
              {| result := Throw e; issued := evs;
                 left_in := leaves o; held := holds o; parsed := false |}
          | Return _ =>
              let evs := (evs ++ [EFree ptr len])%list in
              match free m ptr len (leaves o) with
              | Trapped st =>
                  {| result := Throw RuntimeError; issued := evs;
                     left_in := st; held := holds o; parsed := false |}
              | Returned _ st =>
                  match JSON_parse (holds o) with
                  | Throw e =>
                      {| result := Throw e; issued := evs;
                         left_in := st; held := holds o; parsed := false |}
                  | Return output =>
                      {| result := interpret output; issued := evs;
                         left_in := st; held := holds o; parsed := true |}
                  end
              end
          end
      end
  end.

(** The one-shot function after [await loadModule()]: nothing more when the
    promise is rejected, an instantiation and, if it succeeds, the per-call
    protocol on the fresh instance otherwise. *)
Definition one_shot_outcome (c : completion compiled_module) (bytes : list byte)
  : completion jsval * list event :=
  match c with
  | Throw e => (Throw e, [])
  | Return m =>
      match start m with
      | None => (Throw (start_failure m), [EInstantiate])
      | Some st0 =>
          let s := per_call_protocol m st0 bytes SUndefined in
          (result s, EInstantiate :: issued s)
      end
  end.

(** A call that overlaps with others is on its course: after [k] turns it
    stands where it would stand by itself, with the promise, the module and
    the result that [await loadModule()] settling to [c0] gives it. *)
Definition on_course (c0 : completion compiled_module)
  (expression : string) (value previousValue : jsval) (now : Date)
  (c : pending) (k : nat) : Prop :=
  match c with
  | Called e v pv n =>
      k = 0 /\ (e, v, pv, n) = (expression, value, previousValue, now)
  | AwaitsModule p e v pv n =>
      k = 1 /\ outcome p = c0
      /\ (e, v, pv, n) = (expression, value, previousValue, now)
  | AwaitsInstance m c e v pv n =>
      k = 2 /\ c0 = Return m
      /\ c = match start m with
             | Some st => Return st
             | None => Throw (start_failure m)
             end
      /\ (e, v, pv, n) = (expression, value, previousValue, now)
  | Settled r =>
      2 <= k
      /\ r = fst (one_shot_outcome c0 (inputBytes expression value previousValue now))
  end.

End Host.

Arguments instance_state X : clear implicits.
Arguments call_result X A : clear implicits.
Arguments run_outcome X : clear implicits.
Arguments compiled_module X : clear implicits.
Arguments promise X : clear implicits.
Arguments jsmod X : clear implicits.
Arguments instance X : clear implicits.
Arguments Evaluator X : clear implicits.
Arguments world X : clear implicits.
Arguments M X A : clear implicits.
Arguments observed X : clear implicits.
Arguments pending X : clear implicits.
Arguments session X : clear implicits.
Arguments Returned {X A} a st.
Arguments Trapped {X A} st.

(** ** Some sandboxes

    Small compiled modules over a memory of 1024 bytes and no private
    state, to run the host code on. *)

Definition blank : instance_state unit :=
  {| memory := repeat x00 1024; internals := tt |}.

Definition poke (st : instance_state unit) (ptr : Z) (text : string) : instance_state unit :=
  {| memory := Uint8Array_set (memory st) ptr (list_byte_of_string text);
     internals := tt |}.

(** [run] writes [text] at address 512 and hands it to [evaluator.output]. *)
Definition answering (text : string) : compiled_module unit :=
  {| start := Some blank;
     start_failure := LinkError;
     alloc := fun _ st => Returned 16%Z st;
     free := fun _ _ st => Returned tt st;
     run := fun _ _ st =>
              RunOutput (poke st 512 text) 512 (Z.of_nat (String.length text))
                (RunReturn (poke st 512 text)) |}.

(** [run] returns without calling [evaluator.output]. *)
Definition silent : compiled_module unit :=
  {| start := Some blank;
     start_failure := LinkError;
     alloc := fun _ st => Returned 16%Z st;
     free := fun _ _ st => Returned tt st;
     run := fun _ _ st => RunReturn st |}.

(** [run] traps. *)
Definition trapping : compiled_module unit :=
  {| start := Some blank;
     start_failure := LinkError;
     alloc := fun _ st => Returned 16%Z st;
     free := fun _ _ st => Returned tt st;
     run := fun _ _ st => RunTrap st |}.

(** The allocator is exhausted: [alloc] returns 0. *)
Definition exhausted (text : string) : compiled_module unit :=
  {| start := Some blank;
     start_failure := LinkError;
     alloc := fun _ st => Returned 0%Z st;
     free := fun _ _ st => Returned tt st;
     run := fun _ _ st =>
              RunOutput (poke st 512 text) 512 (Z.of_nat (String.length text))
                (RunReturn (poke st 512 text)) |}.

(** A compiler that makes the given module of any artifact. *)
Definition always {X : Type} (m : compiled_module X)
  : list byte -> option (compiled_module X) :=
  fun _ => Some m.

Definition noon : Date :=
  {| toISOString := "2024-03-05T12:00:00.000Z";
     getFullYear := 2024; getMonth := 2; getDate := 5 |}.

(** A process in which evaluate.js has been loaded, and one in which
    evaluator.js has been loaded and an [Evaluator] created. *)
Definition with_evaluate : world unit := snd (require evaluate_js (boot (Some [x00]))).

Definition with_Evaluator {X : Type} (m : compiled_module X) : world X :=
  snd (bind (require evaluator_js) (fun _ => Evaluator_create (always m))
         (boot (Some [x00]))).

(** A module with one bit of private state: the first [run] hands over
    [text] and then traps, every later [run] returns without calling
    [evaluator.output]. *)
Definition answering_once (text : string) : compiled_module bool :=
  {| start := Some {| memory := repeat x00 1024; internals := false |};
     start_failure := LinkError;
     alloc := fun _ st => Returned 16%Z st;
     free := fun _ _ st => Returned tt st;
     run := fun _ _ st =>
              if internals st then RunReturn st
              else
                let st' := {| memory := Uint8Array_set (memory st) 512
                                          (list_byte_of_string text);
                              internals := true |} in
                RunOutput st' 512 (Z.of_nat (String.length text)) (RunTrap st') |}.

(** A clock that stands still. *)
Definition always_noon : nat -> Date := fun _ => noon.

(** A process whose handle has been used for one call, and the state that
    call left the instance of the handle in. *)
Definition used_Evaluator {X : Type} (m : compiled_module X) : world X :=
  snd (Evaluator_evaluate 0 "before" VUndef VUndef noon (with_Evaluator m)).

Definition state_of_handle (w : world unit) : instance_state unit :=
  match _instance (objects w 0) with
  | Some i => state i
  | None => blank
  end.

(** ** Definitions for the further properties *)

(** Two decimal digits. *)
Definition pad2 (n : nat) : string :=
  String (ascii_of_nat (48 + n / 10))
    (String (ascii_of_nat (48 + n mod 10)) EmptyString).

(** A test holds of the [n] integers from [y] on. *)
Fixpoint all_from (f : Z -> bool) (y : Z) (n : nat) : bool :=
  match n with
  | O => true
  | S n' => f y && all_from f (y + 1) n'
  end.

(** The events of a call on an instance that exists already. *)
Definition per_call_event (e : event) : bool :=
  match e with
  | EAlloc _ | EWrite _ _ | ERun _ _ | EOutput _ _ | EFree _ _ => true
  | _ => false
  end.

(** *** Reading back what [JSON.stringify] writes *)

(** The lexer run over the first part of a text: the state it is in and
    the tokens it has given out. *)
Fixpoint lex_steps (st : JSON.lex_state) (s : string)
  : option (JSON.lex_state * list JSON.token) :=
  match s with
  | EmptyString => Some (st, [])
  | String c s' =>
      match JSON.lex_step st c with
      | None => None
      | Some (st', toks) =>
          match lex_steps st' s' with
          | None => None
          | Some (st'', toks') => Some (st'', (toks ++ toks')%list)
          end
      end
  end.

(** A literal that the grammar of JSON numbers accepts. *)
Definition valid_number (lit : string) : bool :=
  match lex_steps JSON.LStart lit with
  | Some (JSON.LNum ns acc, []) => JSON.num_accepting ns && String.eqb acc lit
  | _ => false
  end.

(** The values of JSON: no undefined anywhere, and numbers with a valid
    literal. *)
Fixpoint is_json (v : jsval) : bool :=
  match v with
  | VUndef => false
  | VNull | VBool _ | VStr _ => true
  | VNum lit => valid_number lit
  | VArr elems => forallb is_json elems
  | VObj members => forallb (fun kv => match kv with (_, x) => is_json x end) members
  end.

Fixpoint joined (parts : list (list JSON.token)) : list JSON.token :=
  match parts with
  | [] => []
  | [p] => p
  | p :: rest => (p ++ JSON.TComma :: joined rest)%list
  end.

(** The tokens of the text of a value. *)
Fixpoint tokens_of (v : jsval) : list JSON.token :=
  match v with
  | VUndef | VNull => [JSON.TNull]
  | VBool true => [JSON.TTrue]
  | VBool false => [JSON.TFalse]
  | VNum lit => [JSON.TNumber lit]
  | VStr s => [JSON.TString s]
  | VArr elems =>
      (JSON.TLBracket :: joined (map tokens_of elems) ++ [JSON.TRBracket])%list
  | VObj members =>
      (JSON.TLBrace
         :: joined (map (fun kv => match kv with
                                   | (k, x) => JSON.TString k :: JSON.TColon :: tokens_of x
                                   end) members)
         ++ [JSON.TRBrace])%list
  end.

Definition prepend (toks : list JSON.token) (o : option (list JSON.token))
  : option (list JSON.token) :=
  match o with
  | Some rest => Some (toks ++ rest)%list
  | None => None
  end.

(** The text of an element of an array: [null] for what has no text. *)
Definition elem_text (x : jsval) : string :=
  match JSON.serialize x with Some t => t | None => "null" end.

(** The tokens of a member of an object. *)
Definition member_tokens (kv : string * jsval) : list JSON.token :=
  match kv with (k, x) => JSON.TString k :: JSON.TColon :: tokens_of x end.

(** What may follow the text of a value inside the text of another. *)
Definition closes (rest : string) : bool :=
  match rest with
  | EmptyString => true
  | String c _ =>
      let n := nat_of_ascii c in
      Nat.eqb n 44 || Nat.eqb n 93 || Nat.eqb n 125
  end.


(** The events that are no read of the artifact. *)
Definition no_read (e : event) : bool := negb (is_read e).

Definition only_evaluate_js (f : js_file) : bool :=
  match f with evaluate_js => true | evaluator_js => false end.

Definition only_evaluator_js (f : js_file) : bool :=
  match f with evaluate_js => false | evaluator_js => true end.

Definition anything (i : nat) : bool := true.

Definition any_file (f : js_file) : bool := true.

Section Frames.

Context {X : Type}.

(** [w'] comes after [w]: the log has grown by events that satisfy [P], the
    artifact is the one it was, and so are the objects outside [touched] and
    the bindings of the files outside [files]. *)
Definition extends (P : event -> bool) (touched : nat -> bool) (files : js_file -> bool)
  (w w' : world X) : Prop :=
  (exists evs : list event, log w' = (log w ++ evs)%list /\ forallb P evs = true)
  /\ artifact w' = artifact w
  /\ (forall i : nat, touched i = false -> objects w' i = objects w i)
  /\ (forall f : js_file, files f = false -> vars f w' = vars f w).

(** A computation keeps a relation between the world it starts in and the
    world it leaves, however it completes. *)
Definition preserves {A : Type} (R : world X -> world X -> Prop) (c : M X A) : Prop :=
  forall w : world X, R w (snd (c w)).

(** The texts a call of [run] hands to [evaluator.output], each decoded
    when it is handed over, up to the first view that does not fit. *)
Fixpoint handed_over (r : run_outcome X) : list string :=
  match r with
  | RunOutput st outputPtr outputLen k =>
      match output (memory st) outputPtr outputLen with
      | Return s => s :: handed_over k
      | Throw _ => []
      end
  | RunReturn _ | RunTrap _ => []
  end.

End Frames.

(** More sandboxes. *)

(** [alloc] returns the given pointer. *)
Definition allocating_at (ptr : Z) : compiled_module unit :=
  {| start := Some blank;
     start_failure := LinkError;
     alloc := fun _ st => Returned ptr st;
     free := fun _ _ st => Returned tt st;
     run := fun _ _ st => RunReturn st |}.

(** [run] hands over [first], then [second], and wipes its memory before it
    returns. *)
Definition answering_twice (first second : string) : compiled_module unit :=
  {| start := Some blank;
     start_failure := LinkError;
     alloc := fun _ st => Returned 16%Z st;
     free := fun _ _ st => Returned tt st;
     run := fun _ _ st =>
              RunOutput (poke st 512 first) 512 (Z.of_nat (String.length first))
                (RunOutput (poke st 512 second) 512 (Z.of_nat (String.length second))
                   (RunReturn blank)) |}.

(** Instantiation fails: an import does not fit. *)
Definition unlinkable : compiled_module unit :=
  {| start := None;
     start_failure := LinkError;
     alloc := fun _ st => Returned 16%Z st;
     free := fun _ _ st => Returned tt st;
     run := fun _ _ st => RunReturn st |}.

(** Instantiation fails in the start function. *)
Definition start_traps : compiled_module unit :=
  {| start := None;
     start_failure := RuntimeError;
     alloc := fun _ st => Returned 16%Z st;
     free := fun _ _ st => Returned tt st;
     run := fun _ _ st => RunReturn st |}.

(** A compiler that rejects every artifact. *)
Definition never : list byte -> option (compiled_module unit) := fun _ => None.

(** * Properties *)

Section Properties.

Context {X : Type}.
Variable compiles_to : list byte -> option (compiled_module X).

(** ** The log *)

Ltac same_log :=
  unfold add_events; simpl; rewrite ?fold_left_app; simpl; reflexivity.

Lemma log_add_events (evs : list event) (w : world X) :
  log (add_events evs w) = (log w ++ evs)%list.
Proof.
  revert w. induction evs as [|e evs IH]; intros w; simpl.
  - now rewrite app_nil_r.
  - unfold add_events in *. simpl. rewrite IH. simpl.
    now rewrite <- app_assoc.
Qed.

Lemma events_since_app (w w' : world X) (evs : list event) :
  log w' = (log w ++ evs)%list -> events_since w w' = evs.
Proof.
  intros H. unfold events_since. rewrite H.
  rewrite skipn_app, skipn_all, Nat.sub_diag. reflexivity.
Qed.

(** ** The one-shot function against the per-call protocol *)

Lemma run_with_output_observe (r : run_outcome X) (x : slot) (w : world X) :
  run_with_output r x w =
  (match completes (observe r x) with
   | Return _ => Return (holds (observe r x), leaves (observe r x))
   | Throw e => Throw e
   end,
   add_events (calls (observe r x)) w).
Proof.
  revert x w. induction r as [st p l k IH|st|st]; intros x w; simpl.
  - unfold bind, emit, lift. simpl.
    destruct (output (memory st) p l) as [s|e]; simpl.
    + rewrite IH. reflexivity.
    + reflexivity.
  - reflexivity.
  - reflexivity.
Qed.

Lemma evaluate_protocol (w : world X) (m : compiled_module X) (st0 : instance_state X)
  (expression : string) (value previousValue : jsval) (now : Date) :
  fst (loaded_module compiles_to evaluate_js w) = Return m ->
  start m = Some st0 ->
  let s := per_call_protocol m st0 (inputBytes expression value previousValue now)
             SUndefined in
  evaluate compiles_to expression value previousValue now w =
  (result s,
   add_events (EInstantiate :: issued s) (snd (loaded_module compiles_to evaluate_js w))).
Proof.
  intros Hm Hst. unfold evaluate, per_call_protocol.
  set (bytes := inputBytes expression value previousValue now).
  set (len := Z.of_nat (List.length bytes)).
  unfold bind at 1.
  destruct (loaded_module compiles_to evaluate_js w) as [c w1]. simpl in Hm. subst c.
  simpl snd.
  unfold WebAssembly_instantiate, bind, emit. rewrite Hst. unfold ret.
  unfold call, bind, emit.
  destruct (alloc m len st0) as [ptr st1|st1]; simpl.
  2: reflexivity.
  unfold inputMem_set.
  destruct (Uint8Array_view (memory st1) ptr len) as [v|]; simpl.
  2: reflexivity.
  unfold bind, emit, ret. simpl.
  rewrite run_with_output_observe.
  set (o := observe _ _).
  destruct (completes o) as [[]|e]; simpl.
  2: same_log.
  destruct (free m ptr len (leaves o)) as [[] st4|st4]; simpl.
  2: same_log.
  unfold lift.
  destruct (JSON_parse (holds o)) as [out|e]; simpl.
  - same_log.
  - same_log.
Qed.

(** ** The method of the handle against the per-call protocol *)

Lemma run_on_observe (r : run_outcome X) (this : nat) :
  forall (w : world X) (i : instance X),
  _instance (objects w this) = Some i ->
  let o := observe r (_outputStr (objects w this)) in
  fst (run_on this r w) =
    match completes o with
    | Return _ => Return (leaves o)
    | Throw e => Throw e
    end
  /\ log (snd (run_on this r w)) = (log w ++ calls o)%list
  /\ objects (snd (run_on this r w)) this =
       {| _instance := Some {| exports := exports i; state := leaves o |};
          _outputStr := holds o |}.
Proof.
  induction r as [st p l k IH|st|st]; intros w i Hi; simpl.
  - unfold bind, set_state, emit, lift, set_outputStr. simpl.
    rewrite ?Nat.eqb_refl, Hi. simpl.
    destruct (output (memory st) p l) as [s|e]; simpl.
    + rewrite ?Nat.eqb_refl. simpl.
      match goal with
      | |- context [run_on this k ?w3] =>
          specialize (IH w3 {| exports := exports i; state := st |})
      end.
      simpl in IH. rewrite ?Nat.eqb_refl in IH. simpl in IH.
      destruct (IH eq_refl) as (H1 & H2 & H3).
      rewrite H1, H2, H3. simpl. rewrite <- app_assoc. simpl. auto.
    + rewrite ?Nat.eqb_refl. simpl. auto.
  - unfold bind, set_state, ret. simpl. rewrite ?Nat.eqb_refl, Hi, app_nil_r.
    destruct (objects w this); simpl in *. auto.
  - unfold bind, set_state, throw. simpl. rewrite ?Nat.eqb_refl, Hi, app_nil_r.
    destruct (objects w this); simpl in *. auto.
Qed.

Lemma Evaluator_protocol (w : world X) (this : nat) (i : instance X)
  (expression : string) (value previousValue : jsval) (now : Date) :
  _instance (objects w this) = Some i ->
  let s := per_call_protocol (exports i) (state i)
             (inputBytes expression value previousValue now)
             (_outputStr (objects w this)) in
  exists w' : world X,
    Evaluator_evaluate this expression value previousValue now w = (result s, w')
    /\ log w' = (log w ++ issued s)%list
    /\ objects w' this =
         {| _instance := Some {| exports := exports i; state := left_in s |};
            _outputStr := if parsed s then SNull else held s |}.
Proof.
  intros Hi. unfold Evaluator_evaluate, per_call_protocol.
  set (bytes := inputBytes expression value previousValue now).
  set (len := Z.of_nat (List.length bytes)).
  unfold bind at 1. unfold get_object at 1. rewrite Hi.
  unfold call_on at 1. unfold bind, emit, set_state, throw, ret.
  destruct (alloc (exports i) len (state i)) as [ptr st1|st1]; simpl.
  2: { eexists; split; [reflexivity|]. simpl. rewrite ?Nat.eqb_refl, ?Hi. auto. }
  unfold inputMem_set.
  destruct (Uint8Array_view (memory st1) ptr len) as [v|]; simpl.
  2: { eexists; split; [reflexivity|]. simpl. rewrite ?Nat.eqb_refl, ?Hi. auto. }
  unfold bind, emit, ret, throw. simpl.
  rewrite ?Nat.eqb_refl, ?Hi. simpl.
  match goal with
  | |- context [run_on this ?r ?w3] =>
      edestruct (run_on_observe r this w3) as (H1 & H2 & H3);
      [simpl; rewrite ?Nat.eqb_refl; reflexivity|]
  end.
  simpl in H1, H2, H3. rewrite ?Nat.eqb_refl in H1, H2, H3. simpl in H1, H2, H3.
  match goal with
  | |- context [run_on this ?r ?w3] => destruct (run_on this r w3) as [c w4]
  end.
  simpl in H1, H2, H3. subst c.
  set (o := observe _ _) in *.
  destruct (completes o) as [[]|e]; simpl.
  2: { eexists; split; [reflexivity|]. rewrite H2, H3. simpl.
       rewrite <- !app_assoc. auto. }
  unfold call_on, bind, emit, set_state, throw, ret, get_object, lift, set_outputStr.
  destruct (free (exports i) ptr len (leaves o)) as [[] st4|st4]; simpl.
  2: { eexists; split; [reflexivity|]. simpl. rewrite ?Nat.eqb_refl, H2, H3. simpl.
       rewrite <- !app_assoc. auto. }
  rewrite ?Nat.eqb_refl, H3. simpl.
  destruct (JSON_parse (holds o)) as [out|e]; simpl.
  - eexists; split; [reflexivity|]. simpl.
    rewrite ?Nat.eqb_refl, H2. simpl. rewrite <- !app_assoc. auto.
  - eexists; split; [reflexivity|]. simpl.
    rewrite ?Nat.eqb_refl, H2, ?H3. simpl. rewrite <- !app_assoc. auto.
Qed.

(** ** The Request Envelope *)

Lemma serialize_object (ms : list (string * jsval)) :
  JSON.serialize (VObj ms) =
  Some ("{" ++ String.concat "," (map JSON.member_text (JSON.written_members ms)) ++ "}").
Proof. reflexivity. Qed.


Lemma append_assoc (a b c : string) : (a ++ b) ++ c = a ++ (b ++ c).
Proof. induction a as [|x a IH]; simpl; [reflexivity|now rewrite IH]. Qed.




(** The envelope of the second call of index.js, read back: no
    [previousValue] member; with an explicit null there is one. *)
Example envelope_without_previousValue :
  match inputStr "IIF(BathroomsFull = .EMPTY., 0, BathroomsFull)"
          (VObj [("BathroomsFull", VNum "2")]) VUndef noon with
  | Some text => JSON.parse text
  | None => None
  end
  = Some (VObj [("expression", VStr "IIF(BathroomsFull = .EMPTY., 0, BathroomsFull)");
                ("value", VObj [("BathroomsFull", VNum "2")]);
                ("now", VStr "2024-03-05T12:00:00.000Z");
                ("date", VStr "2024-03-05")]).
Proof. vm_compute. reflexivity. Qed.

Example envelope_with_null_previousValue :
  match inputStr "IIF(BathroomsFull = .EMPTY., 0, BathroomsFull)"
          VUndef VNull noon with
  | Some text => JSON.parse text
  | None => None
  end
  = Some (VObj [("expression", VStr "IIF(BathroomsFull = .EMPTY., 0, BathroomsFull)");
                ("value", VNull);
                ("previousValue", VNull);
                ("now", VStr "2024-03-05T12:00:00.000Z");
                ("date", VStr "2024-03-05")]).
Proof. vm_compute. reflexivity. Qed.


(** ** What a run leaves, whatever the output variable held *)

Lemma observe_independent (r : run_outcome X) (x y : slot) :
  completes (observe r x) = completes (observe r y)
  /\ leaves (observe r x) = leaves (observe r y)
  /\ calls (observe r x) = calls (observe r y)
  /\ (returns_silently r = false ->
      completes (observe r x) = Return tt ->
      holds (observe r x) = holds (observe r y)).
Proof.
  destruct r as [st p l k|st|st]; simpl.
  - destruct (output (memory st) p l) as [s|e]; simpl.
    + auto.
    + repeat split. intros _ H. discriminate H.
  - repeat split. intros H. discriminate H.
  - repeat split. intros _ H. discriminate H.
Qed.

Lemma calls_filtered (f : event -> bool) (r : run_outcome X) (x : slot) :
  (forall p l, f (EOutput p l) = false) ->
  filter f (calls (observe r x)) = [].
Proof.
  intros Hf. revert x. induction r as [st p l k IH|st|st]; intros x; simpl.
  - destruct (output (memory st) p l) as [s|e]; simpl; rewrite Hf; auto.
  - reflexivity.
  - reflexivity.
Qed.

Lemma returns_to_host_completes (r : run_outcome X) (x : slot) :
  returns_to_host r = true -> completes (observe r x) = Return tt.
Proof.
  unfold returns_to_host.
  destruct (observe_independent r x SUndefined) as (H & _). rewrite H.
  destruct (completes (observe r SUndefined)) as [[]|e]; [reflexivity|discriminate].
Qed.

(** ** The module cache *)

Lemma loaded_module_log (f : js_file) (w : world X) :
  log (snd (loaded_module compiles_to f w)) = (log w ++ compile_events f w)%list.
Proof.
  unfold loaded_module, loadModule, compile_events, bind.
  destruct (modulePromise (vars f w)) as [p|]; simpl.
  - now rewrite app_nil_r.
  - reflexivity.
Qed.

Lemma compile_events_filtered (g : event -> bool) (f : js_file) (w : world X) :
  g ECompile = false -> filter g (compile_events f w) = [].
Proof.
  intros Hg. unfold compile_events.
  destruct (modulePromise (vars f w)); simpl; [reflexivity|now rewrite Hg].
Qed.

(** The events of a call of the one-shot function that gets a module and an
    instance. *)
Lemma evaluate_events (w : world X) (m : compiled_module X) (st0 : instance_state X)
  (expression : string) (value previousValue : jsval) (now : Date) :
  fst (loaded_module compiles_to evaluate_js w) = Return m ->
  start m = Some st0 ->
  events_since w (snd (evaluate compiles_to expression value previousValue now w)) =
  (compile_events evaluate_js w ++ EInstantiate
     :: issued (per_call_protocol m st0
                  (inputBytes expression value previousValue now) SUndefined))%list.
Proof.
  intros Hm Hst. apply events_since_app.
  rewrite (evaluate_protocol w m st0) by assumption.
  unfold snd at 1. change (add_events (EInstantiate :: ?l) ?w0)
    with (add_events l (add_event EInstantiate w0)).
  rewrite log_add_events. simpl log.
  rewrite loaded_module_log, <- !app_assoc. reflexivity.
Qed.

Lemma Evaluator_events (w : world X) (this : nat) (i : instance X)
  (expression : string) (value previousValue : jsval) (now : Date) :
  _instance (objects w this) = Some i ->
  events_since w (snd (Evaluator_evaluate this expression value previousValue now w)) =
  issued (per_call_protocol (exports i) (state i)
            (inputBytes expression value previousValue now)
            (_outputStr (objects w this))).
Proof.
  intros Hi. apply events_since_app.
  destruct (Evaluator_protocol w this i expression value previousValue now Hi)
    as (w' & E & Hlog & _).
  rewrite E. exact Hlog.
Qed.

(** The events the protocol issues on the paths on which [run] returns. *)
Lemma issued_when_run_returns (m : compiled_module X) (st0 st1 : instance_state X)
  (bytes : list byte) (x : slot) (ptr : Z) :
  let len := Z.of_nat (List.length bytes) in
  let st2 := {| memory := Uint8Array_set (memory st1) ptr bytes;
                internals := internals st1 |} in
  alloc m len st0 = Returned ptr st1 ->
  Uint8Array_view (memory st1) ptr len <> None ->
  returns_to_host (run m ptr len st2) = true ->
  issued (per_call_protocol m st0 bytes x) =
  ([EAlloc len; EWrite ptr bytes; ERun ptr len]
     ++ calls (observe (run m ptr len st2) x) ++ [EFree ptr len])%list.
Proof.
  intros len st2 Ha Hv Hr. unfold per_call_protocol. fold len. rewrite Ha.
  destruct (Uint8Array_view (memory st1) ptr len); [|congruence].
  fold st2. rewrite (returns_to_host_completes _ x Hr).
  destruct (free m ptr len (leaves (observe (run m ptr len st2) x))) as [[] st4|st4];
    simpl; [|now rewrite <- ?app_assoc].
  destruct (JSON_parse (holds (observe (run m ptr len st2) x))); simpl;
    now rewrite <- ?app_assoc.
Qed.

(** The calls of [alloc] and [free] the protocol issues once [alloc] has
    returned and the request fits. *)
Lemma issued_alloc_free (m : compiled_module X) (st0 st1 : instance_state X)
  (bytes : list byte) (x : slot) (ptr : Z) :
  let len := Z.of_nat (List.length bytes) in
  let st2 := {| memory := Uint8Array_set (memory st1) ptr bytes;
                internals := internals st1 |} in
  alloc m len st0 = Returned ptr st1 ->
  Uint8Array_view (memory st1) ptr len <> None ->
  filter is_alloc (issued (per_call_protocol m st0 bytes x)) = [EAlloc len]
  /\ filter is_free (issued (per_call_protocol m st0 bytes x))
     = if returns_to_host (run m ptr len st2) then [EFree ptr len] else [].
Proof.
  intros len st2 Ha Hv. unfold per_call_protocol. fold len. rewrite Ha.
  destruct (Uint8Array_view (memory st1) ptr len); [|congruence].
  fold st2. unfold returns_to_host.
  destruct (observe_independent (run m ptr len st2) x SUndefined) as (C & _).
  rewrite <- C.
  destruct (completes (observe (run m ptr len st2) x)) as [[]|e].
  - destruct (free m ptr len (leaves (observe (run m ptr len st2) x))) as [[] st4|st4];
      [destruct (JSON_parse (holds (observe (run m ptr len st2) x)))|];
      cbn [issued]; rewrite ?filter_app; cbn [filter is_alloc is_free app];
      rewrite ?filter_app, !calls_filtered by reflexivity; auto.
  - cbn [issued]. rewrite ?filter_app. cbn [filter is_alloc is_free app].
    rewrite ?filter_app, !calls_filtered by reflexivity. auto.
Qed.

(** C1 (amended). In a call of either form -- of the one-shot function, or
    of the method of a handle whose instance is in any state -- in which
    [alloc] returns and the request fits the memory, [alloc] is called
    exactly once; [free] is called exactly once, with the pointer [alloc]
    returned and the length it was given, if [run] returns to the host
    (whether the call then returns a value, fails to parse the output or
    reports an evaluation error), and not at all if [run] traps or a call
    of the import fails. *)
Theorem C1_free_once_when_run_returns
  (w1 w2 : world X) (this : nat) (m : compiled_module X) (st0 st1 : instance_state X)
  (expression : string) (value previousValue : jsval) (now : Date) (ptr : Z) :
  let bytes := inputBytes expression value previousValue now in
  let len := Z.of_nat (List.length bytes) in
  let st2 := {| memory := Uint8Array_set (memory st1) ptr bytes;
                internals := internals st1 |} in
  alloc m len st0 = Returned ptr st1 ->
  Uint8Array_view (memory st1) ptr len <> None ->
  let frees := if returns_to_host (run m ptr len st2) then [EFree ptr len] else [] in
  let e1 := events_since w1
              (snd (evaluate compiles_to expression value previousValue now w1)) in
  let e2 := events_since w2
              (snd (Evaluator_evaluate this expression value previousValue now w2)) in
  (fst (loaded_module compiles_to evaluate_js w1) = Return m ->
   start m = Some st0 ->
   filter is_alloc e1 = [EAlloc len] /\ filter is_free e1 = frees)
  /\ (_instance (objects w2 this) = Some {| exports := m; state := st0 |} ->
      filter is_alloc e2 = [EAlloc len] /\ filter is_free e2 = frees).
Proof.
  intros bytes len st2 Ha Hv frees e1 e2. subst e1 e2 frees. split.
  - intros Hm Hst. rewrite (evaluate_events w1 m st0) by assumption. fold bytes.
    destruct (issued_alloc_free m st0 st1 bytes SUndefined ptr Ha Hv) as (A & F).
    rewrite !filter_app, !(compile_events_filtered _ evaluate_js w1) by reflexivity.
    cbn [filter is_alloc is_free app]. rewrite A, F. auto.
  - intros Hi.
    rewrite (Evaluator_events w2 this _ expression value previousValue now Hi).
    simpl exports. simpl state. fold bytes.
    exact (issued_alloc_free m st0 st1 bytes _ ptr Ha Hv).
Qed.

(** C2 (amended). In a call in which [alloc] returns, the request fits
    the memory, [run] returns without having called [evaluator.output] and
    [free] returns, the one-shot function fails with the SyntaxError of
    [JSON.parse(undefined)].  The method of a handle, its instance in any
    state, goes by what [_outputStr] held when the call started: with
    [_outputStr] null it fails with the TypeError of reading [error] of
    null. *)
Theorem C2_silent_run_fails_in_parsing
  (w1 w2 : world X) (this : nat) (m : compiled_module X)
  (st0 st1 st3 st4 : instance_state X)
  (expression : string) (value previousValue : jsval) (now : Date) (ptr : Z) :
  let bytes := inputBytes expression value previousValue now in
  let len := Z.of_nat (List.length bytes) in
  let st2 := {| memory := Uint8Array_set (memory st1) ptr bytes;
                internals := internals st1 |} in
  alloc m len st0 = Returned ptr st1 ->
  Uint8Array_view (memory st1) ptr len <> None ->
  run m ptr len st2 = RunReturn st3 ->
  free m ptr len st3 = Returned tt st4 ->
  let c1 := fst (evaluate compiles_to expression value previousValue now w1) in
  let c2 := fst (Evaluator_evaluate this expression value previousValue now w2) in
  (fst (loaded_module compiles_to evaluate_js w1) = Return m ->
   start m = Some st0 ->
   c1 = Throw SyntaxError)
  /\ (_instance (objects w2 this) = Some {| exports := m; state := st0 |} ->
      c2 = match JSON_parse (_outputStr (objects w2 this)) with
           | Return out => interpret out
           | Throw e => Throw e
           end
      /\ (_outputStr (objects w2 this) = SNull -> c2 = Throw TypeError)).
Proof.
  intros bytes len st2 Ha Hv Hr Hf c1 c2. subst c1 c2. split.
  - intros Hm Hst.
    rewrite (evaluate_protocol w1 m st0) by assumption. simpl fst.
    unfold per_call_protocol. fold bytes len. rewrite Ha.
    destruct (Uint8Array_view (memory st1) ptr len); [|congruence].
    fold st2. rewrite Hr. simpl. rewrite Hf. reflexivity.
  - intros Hi.
    destruct (Evaluator_protocol w2 this _ expression value previousValue now Hi)
      as (w' & E & _).
    rewrite E. simpl fst. unfold per_call_protocol. simpl exports. simpl state.
    fold bytes len. rewrite Ha.
    destruct (Uint8Array_view (memory st1) ptr len); [|congruence].
    fold st2. rewrite Hr. simpl. rewrite Hf.
    assert (G : result
                  match JSON_parse (_outputStr (objects w2 this)) with
                  | Return output =>
                      {| result := interpret output;
                         issued := [EAlloc len; EWrite ptr bytes; ERun ptr len;
                                    EFree ptr len];
                         left_in := st4; held := _outputStr (objects w2 this);
                         parsed := true |}
                  | Throw e =>
                      {| result := Throw e;
                         issued := [EAlloc len; EWrite ptr bytes; ERun ptr len;
                                    EFree ptr len];
                         left_in := st4; held := _outputStr (objects w2 this);
                         parsed := false |}
                  end
                = match JSON_parse (_outputStr (objects w2 this)) with
                  | Return out => interpret out
                  | Throw e => Throw e
                  end)
      by (destruct (JSON_parse (_outputStr (objects w2 this))); reflexivity).
    split; [exact G|]. intros Hx. rewrite G, Hx. reflexivity.
Qed.

(** The result of the protocol on the paths that reach the parsing of the
    output text. *)
Lemma result_when_free_returns (m : compiled_module X) (st0 st1 st4 : instance_state X)
  (bytes : list byte) (x : slot) (ptr : Z) :
  let len := Z.of_nat (List.length bytes) in
  let st2 := {| memory := Uint8Array_set (memory st1) ptr bytes;
                internals := internals st1 |} in
  let o := observe (run m ptr len st2) x in
  alloc m len st0 = Returned ptr st1 ->
  Uint8Array_view (memory st1) ptr len <> None ->
  completes o = Return tt ->
  free m ptr len (leaves o) = Returned tt st4 ->
  result (per_call_protocol m st0 bytes x) =
    match JSON_parse (holds o) with
    | Return out => interpret out
    | Throw e => Throw e
    end
  /\ parsed (per_call_protocol m st0 bytes x) =
       match JSON_parse (holds o) with
       | Return _ => true
       | Throw _ => false
       end
  /\ held (per_call_protocol m st0 bytes x) = holds o.
Proof.
  intros len st2 o Ha Hv Hc Hf. unfold per_call_protocol. fold len. rewrite Ha.
  destruct (Uint8Array_view (memory st1) ptr len); [|congruence].
  fold st2 o. rewrite Hc, Hf.
  destruct (JSON_parse (holds o)); simpl; auto.
Qed.

Lemma interpret_object (members : list (string * jsval)) :
  interpret (VObj members) =
  match lookup_member "error" members with
  | Some error =>
      if ToBoolean error then Throw (JsError error)
      else Return match lookup_member "data" members with
                  | Some d => d
                  | None => VUndef
                  end
  | None => Return match lookup_member "data" members with
                   | Some d => d
                   | None => VUndef
                   end
  end.
Proof.
  unfold interpret, get_property.
  destruct (lookup_member "error" members) as [error|]; simpl;
    [destruct (ToBoolean error)|]; destruct (lookup_member "data" members); reflexivity.
Qed.

(** What either form makes of an output text that parses, on the paths
    that reach the parsing. *)
Lemma both_forms_parse (w1 w2 : world X) (this : nat) (m : compiled_module X)
  (st0 st1 st4 : instance_state X)
  (expression : string) (value previousValue : jsval) (now : Date) (ptr : Z)
  (text : string) (out : jsval) :
  let bytes := inputBytes expression value previousValue now in
  let len := Z.of_nat (List.length bytes) in
  let st2 := {| memory := Uint8Array_set (memory st1) ptr bytes;
                internals := internals st1 |} in
  alloc m len st0 = Returned ptr st1 ->
  Uint8Array_view (memory st1) ptr len <> None ->
  returns_to_host (run m ptr len st2) = true ->
  (forall x, holds (observe (run m ptr len st2) x) = SText text) ->
  free m ptr len (leaves (observe (run m ptr len st2) SUndefined)) = Returned tt st4 ->
  JSON.parse text = Some out ->
  (fst (loaded_module compiles_to evaluate_js w1) = Return m ->
   start m = Some st0 ->
   fst (evaluate compiles_to expression value previousValue now w1) = interpret out)
  /\ (_instance (objects w2 this) = Some {| exports := m; state := st0 |} ->
      fst (Evaluator_evaluate this expression value previousValue now w2)
      = interpret out).
Proof.
  intros bytes len st2 Ha Hv Hr Hh Hf Hp. split.
  - intros Hm Hst.
    rewrite (evaluate_protocol w1 m st0) by assumption. simpl fst.
    destruct (result_when_free_returns m st0 st1 st4 bytes SUndefined ptr Ha Hv
                (returns_to_host_completes _ _ Hr) Hf) as (R & _).
    fold bytes. rewrite R. fold len st2. rewrite Hh. unfold JSON_parse.
    rewrite Hp. reflexivity.
  - intros Hi.
    destruct (Evaluator_protocol w2 this _ expression value previousValue now Hi)
      as (w' & E & _).
    rewrite E. simpl fst. simpl exports. simpl state. fold bytes.
    set (x := _outputStr (objects w2 this)).
    assert (Hf' : free m ptr len (leaves (observe (run m ptr len st2) x))
                  = Returned tt st4).
    { destruct (observe_independent (run m ptr len st2) x SUndefined) as (_ & L & _).
      rewrite L. exact Hf. }
    destruct (result_when_free_returns m st0 st1 st4 bytes x ptr Ha Hv
                (returns_to_host_completes _ _ Hr) Hf') as (R & _).
    rewrite R. fold len st2. rewrite Hh. unfold JSON_parse.
    rewrite Hp. reflexivity.
Qed.

(** C3 (amended). In a call of either form -- of the one-shot function, or
    of the method of a handle whose instance is in any state -- that reaches
    the reading of its output ([alloc], [run] and [free] return and the
    request fits the memory) and whose output text parses to an object, the
    Response Envelope: when its [error] field holds a text that is not
    empty, the call fails with an Error carrying exactly that text and
    returns no data, also when a [data] field is present; when it has no
    [error] field, the call returns the value of its [data] field. *)
Theorem C3_nonempty_error_is_thrown
  (w1 w2 : world X) (this : nat) (m : compiled_module X)
  (st0 st1 st4 : instance_state X)
  (expression : string) (value previousValue : jsval) (now : Date) (ptr : Z)
  (text : string) (members : list (string * jsval)) (error : option string) :
  let bytes := inputBytes expression value previousValue now in
  let len := Z.of_nat (List.length bytes) in
  let st2 := {| memory := Uint8Array_set (memory st1) ptr bytes;
                internals := internals st1 |} in
  alloc m len st0 = Returned ptr st1 ->
  Uint8Array_view (memory st1) ptr len <> None ->
  returns_to_host (run m ptr len st2) = true ->
  (forall x, holds (observe (run m ptr len st2) x) = SText text) ->
  free m ptr len (leaves (observe (run m ptr len st2) SUndefined)) = Returned tt st4 ->
  JSON.parse text = Some (VObj members) ->
  lookup_member "error" members = option_map VStr error ->
  error <> Some EmptyString ->
  let c1 := fst (evaluate compiles_to expression value previousValue now w1) in
  let c2 := fst (Evaluator_evaluate this expression value previousValue now w2) in
  let expected := match error with
                  | Some msg => Throw (JsError (VStr msg))
                  | None => Return match lookup_member "data" members with
                                   | Some d => d
                                   | None => VUndef
                                   end
                  end in
  (fst (loaded_module compiles_to evaluate_js w1) = Return m ->
   start m = Some st0 ->
   c1 = expected)
  /\ (_instance (objects w2 this) = Some {| exports := m; state := st0 |} ->
      c2 = expected).
Proof.
  intros bytes len st2 Ha Hv Hr Hh Hf Hp He Hne c1 c2 expected.
  assert (I : interpret (VObj members) = expected).
  { rewrite interpret_object, He. subst expected.
    destruct error as [msg|]; simpl; [|reflexivity].
    destruct (String.eqb_spec msg EmptyString) as [Heq|_]; [congruence|reflexivity]. }
  destruct (both_forms_parse w1 w2 this m st0 st1 st4 expression value previousValue
              now ptr text (VObj members) Ha Hv Hr Hh Hf Hp) as (B1 & B2).
  rewrite <- I. split; [exact B1|exact B2].
Qed.

(** C4 (amended). On a handle, after every session that reaches the
    parsing of its output ([alloc] returns, the request fits the memory,
    [run] returns to the host and [free] returns), [_outputStr] is null
    again if the output text parses as JSON, on success and on an
    evaluation error alike, and keeps the text if it does not parse: the
    sessions whose output parses keep [_outputStr] null between sessions. *)
Theorem C4_slot_cleared_when_output_parses
  (w : world X) (this : nat) (i : instance X) (st1 st4 : instance_state X)
  (expression : string) (value previousValue : jsval) (now : Date) (ptr : Z) :
  let bytes := inputBytes expression value previousValue now in
  let len := Z.of_nat (List.length bytes) in
  let st2 := {| memory := Uint8Array_set (memory st1) ptr bytes;
                internals := internals st1 |} in
  let o := observe (run (exports i) ptr len st2) (_outputStr (objects w this)) in
  _instance (objects w this) = Some i ->
  alloc (exports i) len (state i) = Returned ptr st1 ->
  Uint8Array_view (memory st1) ptr len <> None ->
  completes o = Return tt ->
  free (exports i) ptr len (leaves o) = Returned tt st4 ->
  let r := Evaluator_evaluate this expression value previousValue now w in
  match JSON_parse (holds o) with
  | Return out => fst r = interpret out /\ _outputStr (objects (snd r) this) = SNull
  | Throw e => fst r = Throw e /\ _outputStr (objects (snd r) this) = holds o
  end.
Proof.
  intros bytes len st2 o Hi Ha Hv Hc Hf r. subst r.
  destruct (Evaluator_protocol w this i expression value previousValue now Hi)
    as (w' & E & _ & Ho).
  rewrite E. simpl fst. simpl snd. rewrite Ho. simpl _outputStr.
  destruct (result_when_free_returns (exports i) (state i) st1 st4 bytes
              (_outputStr (objects w this)) ptr Ha Hv Hc Hf) as (R & P & H).
  fold bytes. rewrite R, P, H. fold len st2 o.
  destruct (JSON_parse (holds o)); auto.
Qed.

(** C6 (amended). When [alloc] returns 0 and the request fits the memory at
    address 0, the call does not stop there: either form -- the one-shot
    function, or the method of a handle whose instance is in any state --
    writes the request at address 0 and calls [run(0, len)]. *)
Theorem C6_pointer_zero_is_used
  (w1 w2 : world X) (this : nat) (m : compiled_module X) (st0 st1 : instance_state X)
  (expression : string) (value previousValue : jsval) (now : Date) :
  let bytes := inputBytes expression value previousValue now in
  let len := Z.of_nat (List.length bytes) in
  alloc m len st0 = Returned 0%Z st1 ->
  Uint8Array_view (memory st1) 0 len <> None ->
  let e1 := events_since w1
              (snd (evaluate compiles_to expression value previousValue now w1)) in
  let e2 := events_since w2
              (snd (Evaluator_evaluate this expression value previousValue now w2)) in
  (fst (loaded_module compiles_to evaluate_js w1) = Return m ->
   start m = Some st0 ->
   exists post : list event,
     e1 = (compile_events evaluate_js w1
             ++ [EInstantiate; EAlloc len; EWrite 0 bytes; ERun 0 len] ++ post)%list)
  /\ (_instance (objects w2 this) = Some {| exports := m; state := st0 |} ->
      exists post : list event,
        e2 = ([EAlloc len; EWrite 0 bytes; ERun 0 len] ++ post)%list).
Proof.
  intros bytes len Ha Hv e1 e2. subst e1 e2.
  assert (I : forall x, exists post,
             issued (per_call_protocol m st0 bytes x) =
             ([EAlloc len; EWrite 0 bytes; ERun 0 len] ++ post)%list).
  { intros x. unfold per_call_protocol. fold len. rewrite Ha.
    destruct (Uint8Array_view (memory st1) 0 len); [|congruence].
    set (o := observe _ x).
    destruct (completes o); [|simpl; eauto].
    destruct (free m 0 len (leaves o)) as [[] s|s];
      [destruct (JSON_parse (holds o))|]; simpl; rewrite <- ?app_assoc; simpl; eauto. }
  split.
  - intros Hm Hst. rewrite (evaluate_events w1 m st0) by assumption. fold bytes.
    destruct (I SUndefined) as (post & E). exists post. rewrite E. reflexivity.
  - intros Hi.
    rewrite (Evaluator_events w2 this _ expression value previousValue now Hi).
    simpl exports. simpl state. fold bytes. apply I.
Qed.

(** ** The two forms compared *)

Lemma protocol_independent (m : compiled_module X) (st0 : instance_state X)
  (bytes : list byte) (x y : slot) :
  (forall ptr st1,
     alloc m (Z.of_nat (List.length bytes)) st0 = Returned ptr st1 ->
     returns_silently
       (run m ptr (Z.of_nat (List.length bytes))
          {| memory := Uint8Array_set (memory st1) ptr bytes;
             internals := internals st1 |}) = false) ->
  result (per_call_protocol m st0 bytes x) = result (per_call_protocol m st0 bytes y)
  /\ issued (per_call_protocol m st0 bytes x) = issued (per_call_protocol m st0 bytes y).
Proof.
  intros Hs. unfold per_call_protocol.
  set (len := Z.of_nat (List.length bytes)) in *.
  destruct (alloc m len st0) as [ptr st1|st1] eqn:Ha; [|auto].
  destruct (Uint8Array_view (memory st1) ptr len); [|auto].
  specialize (Hs ptr st1 eq_refl).
  set (st2 := {| memory := _; internals := _ |}) in *.
  destruct (observe_independent (run m ptr len st2) x y) as (C & L & K & H).
  rewrite <- C, <- L, <- K.
  destruct (completes (observe (run m ptr len st2) x)) as [[]|e]; [|auto].
  rewrite <- (H Hs eq_refl).
  destruct (free m ptr len (leaves (observe (run m ptr len st2) x))) as [[] s|s];
    [|auto].
  destruct (JSON_parse (holds (observe (run m ptr len st2) x))); auto.
Qed.


(** ** The module cache and the artifact *)

Lemma evaluate_outcome (w : world X)
  (expression : string) (value previousValue : jsval) (now : Date) :
  let o := one_shot_outcome (fst (loaded_module compiles_to evaluate_js w))
             (inputBytes expression value previousValue now) in
  evaluate compiles_to expression value previousValue now w =
  (fst o, add_events (snd o) (snd (loaded_module compiles_to evaluate_js w))).
Proof.
  destruct (fst (loaded_module compiles_to evaluate_js w)) as [m|e] eqn:Hm.
  - destruct (start m) as [st0|] eqn:Hst.
    + rewrite (evaluate_protocol w m st0) by assumption.
      simpl. rewrite Hst. reflexivity.
    + simpl. rewrite Hst. unfold evaluate, bind.
      destruct (loaded_module compiles_to evaluate_js w) as [c w1].
      simpl in Hm. subst c. simpl.
      unfold WebAssembly_instantiate, bind, emit. rewrite Hst. reflexivity.
  - simpl. unfold evaluate, bind.
    destruct (loaded_module compiles_to evaluate_js w) as [c w1].
    simpl in Hm. subst c. reflexivity.
Qed.

Lemma vars_add_events (f : js_file) (evs : list event) (w : world X) :
  vars f (add_events evs w) = vars f w.
Proof.
  revert w. induction evs as [|e evs IH]; intros w; [reflexivity|].
  unfold add_events in *. simpl. rewrite IH. destruct f; reflexivity.
Qed.

(** What [await loadModule()] gives depends on the bindings of the file
    only. *)
Lemma loaded_module_result (f : js_file) (w : world X) :
  fst (loaded_module compiles_to f w) =
  match modulePromise (vars f w) with
  | Some p => outcome p
  | None => compile_outcome compiles_to (file (vars f w))
  end.
Proof.
  unfold loaded_module, loadModule, bind.
  destruct (modulePromise (vars f w)); reflexivity.
Qed.

Lemma loaded_module_caches (f : js_file) (w : world X) :
  exists p : promise X,
    modulePromise (vars f (snd (loaded_module compiles_to f w))) = Some p
    /\ outcome p = fst (loaded_module compiles_to f w).
Proof.
  rewrite loaded_module_result.
  unfold loaded_module, loadModule, bind.
  destruct (modulePromise (vars f w)) as [p|] eqn:Hp; simpl.
  - exists p. split; [|reflexivity]. destruct f; exact Hp.
  - eexists. split; [destruct f; reflexivity|]. reflexivity.
Qed.

(** *** Calls that overlap *)

Lemma evaluate_body_protocol (w : world X) (m : compiled_module X)
  (st0 : instance_state X)
  (expression : string) (value previousValue : jsval) (now : Date) :
  let s := per_call_protocol m st0 (inputBytes expression value previousValue now)
             SUndefined in
  evaluate_body m st0 expression value previousValue now w =
  (result s, add_events (issued s) w).
Proof.
  unfold evaluate_body, per_call_protocol.
  set (bytes := inputBytes expression value previousValue now).
  set (len := Z.of_nat (List.length bytes)).
  unfold call, bind, emit.
  destruct (alloc m len st0) as [ptr st1|st1]; simpl.
  2: reflexivity.
  unfold inputMem_set.
  destruct (Uint8Array_view (memory st1) ptr len) as [v|]; simpl.
  2: reflexivity.
  unfold bind, emit, ret. simpl.
  rewrite run_with_output_observe.
  set (o := observe _ _).
  destruct (completes o) as [[]|e]; simpl.
  2: same_log.
  destruct (free m ptr len (leaves o)) as [[] st4|st4]; simpl.
  2: same_log.
  unfold lift.
  destruct (JSON_parse (holds o)) as [out|e]; simpl.
  - same_log.
  - same_log.
Qed.

(** [evaluate] is its three parts, one after the other. *)
Lemma evaluate_parts (expression : string) (value previousValue : jsval) (now : Date) :
  evaluate compiles_to expression value previousValue now =
  bind (loaded_module compiles_to evaluate_js)
    (fun module =>
       bind (WebAssembly_instantiate module)
         (fun st => evaluate_body module st expression value previousValue now)).
Proof. reflexivity. Qed.

(** One turn of a call that is on its course keeps it there and keeps what
    [await loadModule()] gives. *)
Lemma resume_on_course (c0 : completion (compiled_module X))
  (expression : string) (value previousValue : jsval) (now : Date)
  (c : pending X) (k : nat) (w : world X) :
  fst (loaded_module compiles_to evaluate_js w) = c0 ->
  on_course c0 expression value previousValue now c k ->
  exists (c' : pending X) (w' : world X),
    resume compiles_to c w = (Return c', w')
    /\ fst (loaded_module compiles_to evaluate_js w') = c0
    /\ on_course c0 expression value previousValue now c' (S k).
Proof.
  intros Hc Ho. rewrite loaded_module_result in Hc.
  destruct c as [e v pv n|p e v pv n|m c e v pv n|r]; simpl in Ho.
  - destruct Ho as (-> & Hargs). simpl. unfold bind, loadModule.
    destruct (modulePromise (vars evaluate_js w)) as [p|] eqn:Hp.
    + eexists. eexists. split; [reflexivity|]. split.
      * rewrite loaded_module_result, Hp. exact Hc.
      * simpl. auto.
    + simpl. eexists. eexists. split; [reflexivity|]. split.
      * rewrite loaded_module_result. simpl. exact Hc.
      * simpl. auto.
  - destruct Ho as (-> & Hout & Hargs). simpl. unfold await. rewrite Hout.
    destruct c0 as [m|err].
    + unfold WebAssembly_instantiate, bind, emit.
      destruct (start m) as [st|] eqn:Hst; simpl.
      * eexists. eexists. split; [reflexivity|]. split.
        -- rewrite loaded_module_result. simpl. exact Hc.
        -- simpl. rewrite Hst. auto.
      * eexists. eexists. split; [reflexivity|]. split.
        -- rewrite loaded_module_result. simpl. exact Hc.
        -- simpl. rewrite Hst. auto.
    + eexists. eexists. split; [reflexivity|]. split.
      * rewrite loaded_module_result. simpl. exact Hc.
      * simpl. auto.
  - destruct Ho as (-> & -> & -> & Hargs). injection Hargs as -> -> -> ->. simpl.
    destruct (start m) as [st|] eqn:Hst.
    + rewrite evaluate_body_protocol.
      eexists. eexists. split; [reflexivity|]. split.
      * rewrite loaded_module_result, vars_add_events. exact Hc.
      * simpl. rewrite Hst. auto.
    + eexists. eexists. split; [reflexivity|]. split.
      * rewrite loaded_module_result. exact Hc.
      * simpl. rewrite Hst. auto.
  - destruct Ho as (Hk & ->). simpl.
    eexists. eexists. split; [reflexivity|]. split.
    + rewrite loaded_module_result. exact Hc.
    + simpl. auto.
Qed.

Lemma overlap_on_course (c0 : completion (compiled_module X))
  (expression1 expression2 : string) (value1 previousValue1 value2 previousValue2 : jsval)
  (now1 now2 : Date) (schedule : list bool) :
  forall (a b : pending X) (ka kb : nat) (w : world X),
  fst (loaded_module compiles_to evaluate_js w) = c0 ->
  on_course c0 expression1 value1 previousValue1 now1 a ka ->
  on_course c0 expression2 value2 previousValue2 now2 b kb ->
  exists (a' b' : pending X) (w' : world X),
    overlap compiles_to schedule a b w = (Return (a', b'), w')
    /\ on_course c0 expression1 value1 previousValue1 now1 a'
         (ka + turns true schedule)
    /\ on_course c0 expression2 value2 previousValue2 now2 b'
         (kb + turns false schedule).
Proof.
  induction schedule as [|[|] schedule IH]; intros a b ka kb w Hc Ha Hb.
  - exists a, b, w. unfold turns. simpl. rewrite !Nat.add_0_r. auto.
  - destruct (resume_on_course c0 _ _ _ _ a ka w Hc Ha) as (a1 & w1 & E & Hc1 & Ha1).
    destruct (IH a1 b (S ka) kb w1 Hc1 Ha1 Hb) as (a' & b' & w' & E' & Ha' & Hb').
    exists a', b', w'. simpl. unfold bind. rewrite E, E'.
    unfold turns in *. simpl. rewrite Nat.add_succ_r. auto.
  - destruct (resume_on_course c0 _ _ _ _ b kb w Hc Hb) as (b1 & w1 & E & Hc1 & Hb1).
    destruct (IH a b1 ka (S kb) w1 Hc1 Ha Hb1) as (a' & b' & w' & E' & Ha' & Hb').
    exists a', b', w'. simpl. unfold bind. rewrite E, E'.
    unfold turns in *. simpl. rewrite Nat.add_succ_r. auto.
Qed.

(** A call on its course has settled with the result it has by itself, or
    has had fewer than three turns. *)
Lemma on_course_settled (w : world X)
  (expression : string) (value previousValue : jsval) (now : Date)
  (c : pending X) (k : nat) :
  on_course (fst (loaded_module compiles_to evaluate_js w))
    expression value previousValue now c k ->
  match settled_as c with
  | Some r => r = fst (evaluate compiles_to expression value previousValue now w)
              /\ 2 <= k
  | None => k < 3
  end.
Proof.
  destruct c as [e v pv n|p e v pv n|m c e v pv n|r]; simpl.
  - intros (-> & _). lia.
  - intros (-> & _). lia.
  - intros (-> & _). lia.
  - intros (Hk & ->). rewrite evaluate_outcome. auto.
Qed.

Lemma loaded_module_keeps (f : js_file) (w : world X) (p : promise X) :
  modulePromise (vars f w) = Some p ->
  modulePromise (vars f (snd (loaded_module compiles_to f w))) = Some p.
Proof.
  intros Hp. unfold loaded_module, loadModule, bind. rewrite Hp. simpl.
  destruct f; exact Hp.
Qed.

(** C10. Every call of the one-shot function instantiates the module anew
    and works on the state of the fresh instance with an output text that
    starts undefined; only the promise of the compiled module is kept
    between calls: the second of two calls finds the promise the first left
    and leaves the same.  So a call gives the same result and makes the same
    calls into the sandbox whether or not another call ran before it, and
    two calls that overlap, their steps between the [await]s taken in any
    order, settle with the results they have by themselves. *)
Theorem C10_one_shot_calls_are_independent (w : world X)
  (expression1 expression2 : string) (value1 previousValue1 value2 previousValue2 : jsval)
  (now1 now2 : Date) (schedule : list bool) :
  let w' := snd (evaluate compiles_to expression1 value1 previousValue1 now1 w) in
  let after := evaluate compiles_to expression2 value2 previousValue2 now2 w' in
  let alone := evaluate compiles_to expression2 value2 previousValue2 now2 w in
  let fresh := one_shot_outcome (fst (loaded_module compiles_to evaluate_js w))
                 (inputBytes expression2 value2 previousValue2 now2) in
  let both := overlap compiles_to schedule
                (Called expression1 value1 previousValue1 now1)
                (Called expression2 value2 previousValue2 now2) w in
  (fst after = fst alone
   /\ filter sandbox_call (events_since w' (snd after))
      = filter sandbox_call (events_since w (snd alone)))
  /\ (fst after = fst fresh /\ events_since w' (snd after) = snd fresh)
  /\ (exists p : promise X,
        modulePromise (vars evaluate_js w') = Some p
        /\ modulePromise (vars evaluate_js (snd after)) = Some p
        /\ outcome p = fst (loaded_module compiles_to evaluate_js w))
  /\ (exists a b : pending X,
        fst both = Return (a, b)
        /\ match settled_as a with
           | Some r =>
               r = fst (evaluate compiles_to expression1 value1 previousValue1 now1 w)
               /\ 2 <= turns true schedule
           | None => turns true schedule < 3
           end
        /\ match settled_as b with
           | Some r => r = fst alone /\ 2 <= turns false schedule
           | None => turns false schedule < 3
           end).
Proof.
  intros w' after alone fresh both. subst after alone fresh both.
  assert (Hc : fst (loaded_module compiles_to evaluate_js w')
               = fst (loaded_module compiles_to evaluate_js w)).
  { subst w'. rewrite evaluate_outcome. simpl snd.
    rewrite (loaded_module_result evaluate_js (add_events _ _)), vars_add_events.
    destruct (loaded_module_caches evaluate_js w) as (p & Hp & Ho).
    rewrite Hp. exact Ho. }
  assert (Hn : compile_events evaluate_js w' = []).
  { subst w'. rewrite evaluate_outcome. simpl snd. unfold compile_events.
    rewrite vars_add_events.
    destruct (loaded_module_caches evaluate_js w) as (p & Hp & _).
    now rewrite Hp. }
  split; [|split; [|split]].
  - rewrite !evaluate_outcome. simpl fst. simpl snd. rewrite Hc. split; [reflexivity|].
    set (o := one_shot_outcome _ _).
    rewrite (events_since_app w' _ (compile_events evaluate_js w' ++ snd o)),
            (events_since_app w _ (compile_events evaluate_js w ++ snd o)).
    + rewrite !filter_app, !compile_events_filtered by reflexivity. reflexivity.
    + rewrite log_add_events, loaded_module_log, app_assoc. reflexivity.
    + rewrite log_add_events, loaded_module_log, app_assoc. reflexivity.
  - rewrite !evaluate_outcome. simpl fst. simpl snd. rewrite Hc. split; [reflexivity|].
    apply events_since_app.
    rewrite log_add_events, loaded_module_log, Hn, app_nil_r. reflexivity.
  - destruct (loaded_module_caches evaluate_js w) as (p & Hp & Ho).
    assert (Hp' : modulePromise (vars evaluate_js w') = Some p).
    { subst w'. rewrite evaluate_outcome. simpl snd. now rewrite vars_add_events. }
    exists p. split; [exact Hp'|]. split; [|exact Ho].
    rewrite evaluate_outcome. simpl snd. rewrite vars_add_events.
    now apply loaded_module_keeps.
  - destruct (overlap_on_course (fst (loaded_module compiles_to evaluate_js w))
                expression1 expression2 value1 previousValue1 value2 previousValue2
                now1 now2 schedule
                (Called expression1 value1 previousValue1 now1)
                (Called expression2 value2 previousValue2 now2) 0 0 w eq_refl)
      as (a & b & w2 & E & Ha & Hb); [simpl; auto ..|].
    exists a, b. rewrite E. split; [reflexivity|]. simpl in Ha, Hb.
    split; apply on_course_settled; assumption.
Qed.

(** C9. When the artifact is missing, a use of either file fails where the
    file is loaded, with the Error whose message tells to build the
    artifact; the only thing done before is the attempt to read the file
    (no instantiation, [alloc], [run] or [free]), and the file stays
    unloaded. *)
Theorem C9_missing_artifact_fails_before_sandbox (w : world X)
  (expression : string) (value previousValue : jsval) (now : Date) :
  artifact w = None ->
  loaded (vars evaluate_js w) = false ->
  loaded (vars evaluator_js w) = false ->
  let failure :=
    JsError (VStr "Could not find evaluator.wasm; you probably need to build it first. See the README.md or the Makefile.") in
  let r1 := use_evaluate compiles_to expression value previousValue now w in
  let r2 := use_Evaluator_create compiles_to w in
  (fst r1 = Throw failure /\ fst r2 = Throw failure)
  /\ (events_since w (snd r1) = [EReadFile] /\ events_since w (snd r2) = [EReadFile])
  /\ (filter sandbox_call (events_since w (snd r1)) = []
      /\ filter sandbox_call (events_since w (snd r2)) = [])
  /\ (loaded (vars evaluate_js (snd r1)) = false
      /\ loaded (vars evaluator_js (snd r2)) = false).
Proof.
  intros Ha H1 H2 failure r1 r2. subst r1 r2 failure.
  unfold use_evaluate, use_Evaluator_create, bind, require.
  rewrite H1, H2, Ha. simpl fst. simpl snd.
  assert (E : events_since w (add_event EReadFile w) = [EReadFile])
    by (apply events_since_app; reflexivity).
  rewrite E. simpl. auto.
Qed.

Lemma load_steps_cached (f : js_file) (steps : list cache_step) :
  forall (w : world X) (p : promise X),
  modulePromise (vars f w) = Some p ->
  exists w' : world X,
    load_steps compiles_to f steps w
    = (Return (repeat p (List.length (filter is_call steps))), w')
    /\ log w' = log w.
Proof.
  induction steps as [|[|] steps IH]; intros w p Hp; simpl.
  - eexists. split; reflexivity.
  - unfold bind, loadModule. rewrite Hp.
    destruct (IH w p Hp) as (w' & E & L). rewrite E. eexists. split; [reflexivity|exact L].
  - unfold bind, settle. rewrite Hp. simpl.
    match goal with
    | |- context [load_steps compiles_to f steps ?w1] =>
        destruct (IH w1 p) as (w' & E & L); [destruct f; exact Hp|]
    end.
    rewrite E. eexists. split; [reflexivity|exact L].
Qed.

Lemma loadModule_fresh (f : js_file) (w : world X) :
  modulePromise (vars f w) = None ->
  exists (p : promise X) (w1 : world X),
    loadModule compiles_to f w = (Return p, w1)
    /\ modulePromise (vars f w1) = Some p
    /\ outcome p = compile_outcome compiles_to (file (vars f w))
    /\ log w1 = (log w ++ [ECompile])%list.
Proof.
  intros Hp. unfold loadModule. rewrite Hp. unfold bind. simpl.
  eexists. eexists. split; [reflexivity|]. destruct f; simpl; auto.
Qed.

Lemma load_steps_fresh (f : js_file) (steps : list cache_step) :
  forall w : world X,
  modulePromise (vars f w) = None ->
  existsb is_call steps = true ->
  exists (p : promise X) (w' : world X),
    load_steps compiles_to f steps w
    = (Return (repeat p (List.length (filter is_call steps))), w')
    /\ outcome p = compile_outcome compiles_to (file (vars f w))
    /\ log w' = (log w ++ [ECompile])%list.
Proof.
  induction steps as [|[|] steps IH]; intros w Hp Hn; simpl in *.
  - discriminate Hn.
  - unfold bind.
    destruct (loadModule_fresh f w Hp) as (p & w1 & E1 & C & O & L1). rewrite E1.
    destruct (load_steps_cached f steps w1 p C) as (w' & E & L). rewrite E.
    exists p, w'. split; [reflexivity|]. split; [exact O|]. now rewrite L.
  - unfold bind, settle. rewrite Hp. simpl. apply IH; assumption.
Qed.

(** C7 (amended). For each of the two files taken alone: the artifact is
    read once, when the file is loaded, and however many times (at least
    once) its [loadModule] is called, before or after the promise settles,
    the artifact is compiled exactly once and every caller receives the
    same promise. *)
Theorem C7_one_compilation_per_file (f : js_file) (w : world X) (bytes : list byte)
  (steps : list cache_step) :
  loaded (vars f w) = false ->
  artifact w = Some bytes ->
  existsb is_call steps = true ->
  let r := bind (require f) (fun _ => load_steps compiles_to f steps) w in
  exists p : promise X,
    fst r = Return (repeat p (List.length (filter is_call steps)))
    /\ outcome p = compile_outcome compiles_to (Some bytes)
    /\ events_since w (snd r) = [EReadFile; ECompile].
Proof.
  intros Hl Ha Hn r. subst r. unfold bind, require. rewrite Hl, Ha.
  match goal with
  | |- context [load_steps compiles_to f steps ?w1] =>
      destruct (load_steps_fresh f steps w1) as (p & w' & E & O & L);
      [destruct f; reflexivity|exact Hn|]
  end.
  rewrite E. exists p. split; [reflexivity|]. split.
  - rewrite O. destruct f; reflexivity.
  - apply events_since_app. simpl snd. rewrite L. simpl.
    rewrite <- app_assoc. reflexivity.
Qed.

End Properties.

(** * The theorems at work on the sandboxes above *)

Ltac by_running :=
  first [ reflexivity | discriminate
        | vm_compute; reflexivity | vm_compute; discriminate
        | intros; vm_compute; reflexivity ].

(** C1: with a sandbox whose output is not JSON the call fails, and [free]
    has been called once with the pointer and the length of the request, by
    the one-shot function, by a new handle and by a handle that has been
    used before. *)
Lemma C1_free_once_witness :
  filter is_free
    (events_since with_evaluate
       (snd (evaluate (always (answering "oops")) "x" VUndef VUndef noon with_evaluate)))
  = [EFree 16 84]
  /\ filter is_free
       (events_since (with_Evaluator (answering "oops"))
          (snd (Evaluator_evaluate 0 "x" VUndef VUndef noon
                  (with_Evaluator (answering "oops")))))
     = [EFree 16 84]
  /\ filter is_free
       (events_since (used_Evaluator (answering "oops"))
          (snd (Evaluator_evaluate 0 "x" VUndef VUndef noon
                  (used_Evaluator (answering "oops")))))
     = [EFree 16 84].
Proof.
  destruct (C1_free_once_when_run_returns (always (answering "oops"))
              with_evaluate (with_Evaluator (answering "oops")) 0
              (answering "oops") blank blank "x" VUndef VUndef noon 16)
    as (A & B); [by_running ..|].
  destruct (C1_free_once_when_run_returns (always (answering "oops"))
              with_evaluate (used_Evaluator (answering "oops")) 0
              (answering "oops")
              (state_of_handle (used_Evaluator (answering "oops")))
              (state_of_handle (used_Evaluator (answering "oops")))
              "x" VUndef VUndef noon 16)
    as (_ & C); [by_running ..|].
  destruct A as (_ & F1); [by_running ..|].
  destruct B as (_ & F2); [by_running ..|].
  destruct C as (_ & F3); [by_running ..|].
  split; [exact F1|]. split; [exact F2|exact F3].
Defined.

(** C1, as the claim states it, fails: when [run] traps, the call has
    called [alloc] and never calls [free], in both forms. *)
Lemma C1_trap_skips_free_counterexample :
  (fst (evaluate (always trapping) "x" VUndef VUndef noon with_evaluate)
   = Throw RuntimeError
   /\ filter sandbox_call
        (events_since with_evaluate
           (snd (evaluate (always trapping) "x" VUndef VUndef noon with_evaluate)))
      = [EInstantiate; EAlloc 84; ERun 16 84])
  /\ (fst (Evaluator_evaluate 0 "x" VUndef VUndef noon (with_Evaluator trapping))
      = Throw RuntimeError
      /\ filter sandbox_call
           (events_since (with_Evaluator trapping)
              (snd (Evaluator_evaluate 0 "x" VUndef VUndef noon (with_Evaluator trapping))))
         = [EAlloc 84; ERun 16 84]).
Proof. vm_compute. auto. Qed.

(** C2: the silent sandbox, called by the one-shot function, on a new
    handle and on a handle that has been used before. *)
Lemma C2_silent_run_witness :
  fst (evaluate (always silent) "x" VUndef VUndef noon with_evaluate) = Throw SyntaxError
  /\ fst (Evaluator_evaluate 0 "x" VUndef VUndef noon (with_Evaluator silent))
     = Throw TypeError
  /\ fst (Evaluator_evaluate 0 "x" VUndef VUndef noon (used_Evaluator silent))
     = Throw TypeError.
Proof.
  destruct (C2_silent_run_fails_in_parsing (always silent)
              with_evaluate (with_Evaluator silent) 0 silent blank blank
              {| memory := Uint8Array_set (memory blank) 16
                             (inputBytes "x" VUndef VUndef noon);
                 internals := tt |}
              {| memory := Uint8Array_set (memory blank) 16
                             (inputBytes "x" VUndef VUndef noon);
                 internals := tt |}
              "x" VUndef VUndef noon 16) as (A & B); [by_running ..|].
  destruct (C2_silent_run_fails_in_parsing (always silent)
              with_evaluate (used_Evaluator silent) 0 silent
              (state_of_handle (used_Evaluator silent))
              (state_of_handle (used_Evaluator silent))
              {| memory := Uint8Array_set
                             (memory (state_of_handle (used_Evaluator silent))) 16
                             (inputBytes "x" VUndef VUndef noon);
                 internals := tt |}
              {| memory := Uint8Array_set
                             (memory (state_of_handle (used_Evaluator silent))) 16
                             (inputBytes "x" VUndef VUndef noon);
                 internals := tt |}
              "x" VUndef VUndef noon 16) as (_ & C); [by_running ..|].
  destruct B as (_ & B); [by_running|].
  destruct C as (_ & C); [by_running|].
  split; [apply A; by_running|]. split; [apply B; by_running|apply C; by_running].
Defined.

(** C2, as the claim states it, fails: the failures of a call whose [run]
    returned silently are the platform's SyntaxError and TypeError, not a
    failure the host makes for a protocol violation. *)
Lemma C2_no_protocol_violation_counterexample :
  (fst (evaluate (always silent) "x" VUndef VUndef noon with_evaluate) = Throw SyntaxError
   /\ host_made SyntaxError = false)
  /\ (fst (Evaluator_evaluate 0 "x" VUndef VUndef noon (with_Evaluator silent))
      = Throw TypeError
      /\ host_made TypeError = false).
Proof. vm_compute. auto. Qed.

(** C3: an envelope with the error [bad token] and data beside it, handed
    to the one-shot function, to a new handle and to a handle that has been
    used before. *)
Lemma C3_bad_token_witness :
  fst (evaluate (always (answering (dq "{'error':'bad token','data':1}")))
         "x" VUndef VUndef noon with_evaluate)
  = Throw (JsError (VStr "bad token"))
  /\ fst (Evaluator_evaluate 0 "x" VUndef VUndef noon
            (with_Evaluator (answering (dq "{'error':'bad token','data':1}"))))
     = Throw (JsError (VStr "bad token"))
  /\ fst (Evaluator_evaluate 0 "x" VUndef VUndef noon
            (used_Evaluator (answering (dq "{'error':'bad token','data':1}"))))
     = Throw (JsError (VStr "bad token")).
Proof.
  destruct (C3_nonempty_error_is_thrown
              (always (answering (dq "{'error':'bad token','data':1}")))
              with_evaluate
              (with_Evaluator (answering (dq "{'error':'bad token','data':1}"))) 0
              (answering (dq "{'error':'bad token','data':1}"))
              blank blank
              (poke {| memory := Uint8Array_set (memory blank) 16
                                   (inputBytes "x" VUndef VUndef noon);
                       internals := tt |}
                    512 (dq "{'error':'bad token','data':1}"))
              "x" VUndef VUndef noon 16
              (dq "{'error':'bad token','data':1}")
              [("error", VStr "bad token"); ("data", VNum "1")]
              (Some "bad token")) as (A & B); [by_running ..|].
  destruct (C3_nonempty_error_is_thrown
              (always (answering (dq "{'error':'bad token','data':1}")))
              with_evaluate
              (used_Evaluator (answering (dq "{'error':'bad token','data':1}"))) 0
              (answering (dq "{'error':'bad token','data':1}"))
              (state_of_handle
                 (used_Evaluator (answering (dq "{'error':'bad token','data':1}"))))
              (state_of_handle
                 (used_Evaluator (answering (dq "{'error':'bad token','data':1}"))))
              (poke {| memory := Uint8Array_set
                                   (memory
                                      (state_of_handle
                                         (used_Evaluator
                                            (answering
                                               (dq "{'error':'bad token','data':1}")))))
                                   16 (inputBytes "x" VUndef VUndef noon);
                       internals := tt |}
                    512 (dq "{'error':'bad token','data':1}"))
              "x" VUndef VUndef noon 16
              (dq "{'error':'bad token','data':1}")
              [("error", VStr "bad token"); ("data", VNum "1")]
              (Some "bad token")) as (_ & C); [by_running ..|].
  split; [apply A; by_running|]. split; [apply B; by_running|apply C; by_running].
Defined.

(** C3, as the claim states it, fails: an envelope whose [error] field is
    the empty text is not a failure; the call returns its data. *)
Lemma C3_empty_error_returns_data_counterexample :
  JSON.parse (dq "{'error':'','data':1}")
  = Some (VObj [("error", VStr EmptyString); ("data", VNum "1")])
  /\ fst (evaluate (always (answering (dq "{'error':'','data':1}")))
            "x" VUndef VUndef noon with_evaluate)
     = Return (VNum "1")
  /\ fst (Evaluator_evaluate 0 "x" VUndef VUndef noon
            (with_Evaluator (answering (dq "{'error':'','data':1}"))))
     = Return (VNum "1").
Proof. vm_compute. auto. Qed.

(** C4: after a session that reports an evaluation error the slot is null. *)
Lemma C4_slot_cleared_witness :
  fst (Evaluator_evaluate 0 "x" VUndef VUndef noon
         (with_Evaluator (answering (dq "{'error':'bad token'}"))))
  = Throw (JsError (VStr "bad token"))
  /\ _outputStr
       (objects (snd (Evaluator_evaluate 0 "x" VUndef VUndef noon
                        (with_Evaluator (answering (dq "{'error':'bad token'}"))))) 0)
     = SNull.
Proof.
  apply (C4_slot_cleared_when_output_parses
           (with_Evaluator (answering (dq "{'error':'bad token'}"))) 0
           {| exports := answering (dq "{'error':'bad token'}"); state := blank |}
           blank
           (poke {| memory := Uint8Array_set (memory blank) 16
                                (inputBytes "x" VUndef VUndef noon);
                    internals := tt |}
                 512 (dq "{'error':'bad token'}"))
           "x" VUndef VUndef noon 16); by_running.
Defined.

(** C4, as the claim states it, fails: after a session whose output does
    not parse, [_outputStr] keeps the text; and a text left behind by a
    session whose [run] trapped is what a later session returns when its
    own [run] hands over nothing. *)
Lemma C4_slot_kept_counterexample :
  (_outputStr (objects (with_Evaluator (answering "oops")) 0) = SNull
   /\ fst (Evaluator_evaluate 0 "x" VUndef VUndef noon (with_Evaluator (answering "oops")))
      = Throw SyntaxError
   /\ _outputStr
        (objects (snd (Evaluator_evaluate 0 "x" VUndef VUndef noon
                         (with_Evaluator (answering "oops")))) 0)
      = SText "oops")
  /\ (fst (Evaluator_evaluate 0 "first" VUndef VUndef noon
             (with_Evaluator (answering_once (dq "{'data':1}"))))
      = Throw RuntimeError
      /\ fst (Evaluator_evaluate 0 "second" VUndef VUndef noon
                (snd (Evaluator_evaluate 0 "first" VUndef VUndef noon
                        (with_Evaluator (answering_once (dq "{'data':1}"))))))
         = Return (VNum "1")).
Proof. vm_compute. auto. Qed.

(** C6: a sandbox whose allocator returns 0, called by the one-shot
    function, on a new handle and on a handle that has been used before. *)
Lemma C6_pointer_zero_witness :
  (exists post : list event,
     events_since with_evaluate
       (snd (evaluate (always (exhausted (dq "{'data':1}")))
               "x" VUndef VUndef noon with_evaluate))
     = ([ECompile; EInstantiate; EAlloc 84;
         EWrite 0 (inputBytes "x" VUndef VUndef noon); ERun 0 84] ++ post)%list)
  /\ (exists post : list event,
        events_since (with_Evaluator (exhausted (dq "{'data':1}")))
          (snd (Evaluator_evaluate 0 "x" VUndef VUndef noon
                  (with_Evaluator (exhausted (dq "{'data':1}")))))
        = ([EAlloc 84; EWrite 0 (inputBytes "x" VUndef VUndef noon); ERun 0 84]
             ++ post)%list)
  /\ (exists post : list event,
        events_since (used_Evaluator (exhausted (dq "{'data':1}")))
          (snd (Evaluator_evaluate 0 "x" VUndef VUndef noon
                  (used_Evaluator (exhausted (dq "{'data':1}")))))
        = ([EAlloc 84; EWrite 0 (inputBytes "x" VUndef VUndef noon); ERun 0 84]
             ++ post)%list).
Proof.
  destruct (C6_pointer_zero_is_used (always (exhausted (dq "{'data':1}")))
              with_evaluate (with_Evaluator (exhausted (dq "{'data':1}"))) 0
              (exhausted (dq "{'data':1}")) blank blank
              "x" VUndef VUndef noon) as (A & B); [by_running ..|].
  destruct (C6_pointer_zero_is_used (always (exhausted (dq "{'data':1}")))
              with_evaluate (used_Evaluator (exhausted (dq "{'data':1}"))) 0
              (exhausted (dq "{'data':1}"))
              (state_of_handle (used_Evaluator (exhausted (dq "{'data':1}"))))
              (state_of_handle (used_Evaluator (exhausted (dq "{'data':1}"))))
              "x" VUndef VUndef noon) as (_ & C); [by_running ..|].
  split; [apply A; by_running|]. split; [apply B; by_running|apply C; by_running].
Defined.

(** C6, as the claim states it, fails: when [alloc] returns 0 the call is
    not aborted; the entry point is called with pointer 0 and the call
    returns what the sandbox hands over. *)
Lemma C6_no_allocation_failure_counterexample :
  (fst (evaluate (always (exhausted (dq "{'data':1}"))) "x" VUndef VUndef noon
          with_evaluate)
   = Return (VNum "1")
   /\ filter sandbox_call
        (events_since with_evaluate
           (snd (evaluate (always (exhausted (dq "{'data':1}"))) "x" VUndef VUndef noon
                   with_evaluate)))
      = [EInstantiate; EAlloc 84; ERun 0 84; EFree 0 84])
  /\ (fst (Evaluator_evaluate 0 "x" VUndef VUndef noon
             (with_Evaluator (exhausted (dq "{'data':1}"))))
      = Return (VNum "1")
      /\ filter sandbox_call
           (events_since (with_Evaluator (exhausted (dq "{'data':1}")))
              (snd (Evaluator_evaluate 0 "x" VUndef VUndef noon
                      (with_Evaluator (exhausted (dq "{'data':1}"))))))
         = [EAlloc 84; ERun 0 84; EFree 0 84]).
Proof. vm_compute. auto. Qed.

(** C7: three callers of [loadModule] of evaluator.js, the promise settling
    after the first. *)
Lemma C7_three_callers_witness :
  exists p : promise unit,
    fst (bind (require evaluator_js)
           (fun _ => load_steps (always silent) evaluator_js
                       [CallLoadModule; Settle; CallLoadModule; CallLoadModule])
           (boot (Some [x00])))
    = Return [p; p; p]
    /\ outcome p = Return silent
    /\ events_since (boot (Some [x00]))
         (snd (bind (require evaluator_js)
                 (fun _ => load_steps (always silent) evaluator_js
                             [CallLoadModule; Settle; CallLoadModule; CallLoadModule])
                 (boot (Some [x00]))))
       = [EReadFile; ECompile].
Proof.
  apply (C7_one_compilation_per_file (always silent) evaluator_js
           (boot (Some [x00])) [x00]
           [CallLoadModule; Settle; CallLoadModule; CallLoadModule]); by_running.
Defined.

(** C7, as the claim states it, fails: evaluate.js and evaluator.js each
    read the artifact and each cache a compilation of their own, so the
    process of index.js reads the artifact twice and compiles it twice, and
    the callers of the two [loadModule] functions hold different promises. *)
Lemma C7_two_files_two_compilations_counterexample :
  fst (index_js (always (answering (dq "{'data':true}"))) always_noon (boot (Some [x00])))
  = Return tt
  /\ filter is_read
       (log (snd (index_js (always (answering (dq "{'data':true}"))) always_noon
                    (boot (Some [x00])))))
     = [EReadFile; EReadFile]
  /\ filter is_compile
       (log (snd (index_js (always (answering (dq "{'data':true}"))) always_noon
                    (boot (Some [x00])))))
     = [ECompile; ECompile]
  /\ option_map pid
       (modulePromise
          (vars evaluate_js
             (snd (index_js (always (answering (dq "{'data':true}"))) always_noon
                     (boot (Some [x00]))))))
     = Some 0
  /\ option_map pid
       (modulePromise
          (vars evaluator_js
             (snd (index_js (always (answering (dq "{'data':true}"))) always_noon
                     (boot (Some [x00]))))))
     = Some 1.
Proof. vm_compute. auto. Qed.



(** Two one-shot calls that overlap, the second running its last step
    before the first: both settle with the data, after one compilation and
    an instantiation each. *)
Example overlapping_calls :
  fst (overlap (always (answering (dq "{'data':1}")))
         [true; false; false; true; false; true]
         (Called "x" VUndef VUndef noon) (Called "yy" VNull VUndef noon) with_evaluate)
  = Return (Settled (Return (VNum "1")), Settled (Return (VNum "1")))
  /\ filter (fun e => is_compile e || sandbox_call e)
       (events_since with_evaluate
          (snd (overlap (always (answering (dq "{'data':1}")))
                  [true; false; false; true; false; true]
                  (Called "x" VUndef VUndef noon) (Called "yy" VNull VUndef noon)
                  with_evaluate)))
     = [ECompile; EInstantiate; EInstantiate;
        EAlloc 85; ERun 16 85; EFree 16 85; EAlloc 84; ERun 16 84; EFree 16 84].
Proof. vm_compute. auto. Qed.

(** C9: a process without the artifact. *)
Lemma C9_missing_artifact_witness :
  fst (use_evaluate (always silent) "x" VUndef VUndef noon (boot None))
  = Throw (JsError (VStr not_found_message))
  /\ fst (use_Evaluator_create (always silent) (boot None))
     = Throw (JsError (VStr not_found_message)).
Proof.
  apply (C9_missing_artifact_fails_before_sandbox (always silent) (boot None)
           "x" VUndef VUndef noon); by_running.
Defined.

(** * Further properties of the host code *)

Section Further.

Context {X : Type}.
Variable compiles_to : list byte -> option (compiled_module X).

(** ** The memory of the instance *)






(** ** The order of the calls into the sandbox *)

Lemma calls_are_per_call (r : run_outcome X) (x : slot) :
  forallb per_call_event (calls (observe r x)) = true.
Proof.
  revert x. induction r as [st p l k IH|st|st]; intros x; simpl; [|reflexivity..].
  destruct (output (memory st) p l); simpl; auto.
Qed.

Lemma issued_in_order (m : compiled_module X) (st0 : instance_state X)
  (bytes : list byte) (x : slot) :
  let len := Z.of_nat (List.length bytes) in
  let evs := issued (per_call_protocol m st0 bytes x) in
  forallb per_call_event evs = true
  /\ exists ptr : Z,
       In (filter sandbox_call evs)
          [ [EAlloc len]; [EAlloc len; ERun ptr len];
            [EAlloc len; ERun ptr len; EFree ptr len] ].
Proof.
  intros len evs. subst evs. unfold per_call_protocol. fold len.
  destruct (alloc m len st0) as [ptr st1|st1]; [|split; [reflexivity|exists 0%Z; simpl; auto]].
  destruct (Uint8Array_view (memory st1) ptr len);
    [|split; [reflexivity|exists 0%Z; simpl; auto]].
  set (o := observe _ x).
  assert (F : filter sandbox_call (calls o) = [])
    by (apply calls_filtered; reflexivity).
  assert (P : forallb per_call_event (calls o) = true)
    by apply calls_are_per_call.
  assert (A : forallb per_call_event
                ([EAlloc len; EWrite ptr bytes; ERun ptr len] ++ calls o) = true)
    by (simpl; exact P).
  assert (B : filter sandbox_call
                ([EAlloc len; EWrite ptr bytes; ERun ptr len] ++ calls o)
              = [EAlloc len; ERun ptr len])
    by (simpl; now rewrite F).
  assert (A' : forallb per_call_event
                 (([EAlloc len; EWrite ptr bytes; ERun ptr len] ++ calls o)
                    ++ [EFree ptr len]) = true)
    by (rewrite forallb_app, A; reflexivity).
  assert (B' : filter sandbox_call
                 (([EAlloc len; EWrite ptr bytes; ERun ptr len] ++ calls o)
                    ++ [EFree ptr len])
               = [EAlloc len; ERun ptr len; EFree ptr len])
    by (rewrite filter_app, B; reflexivity).
  destruct (completes o) as [[]|e].
  - destruct (free m ptr len (leaves o)) as [[] s|s];
      [destruct (JSON_parse (holds o))|]; cbn [issued];
      (split; [exact A'|exists ptr; rewrite B'; simpl; auto]).
  - cbn [issued]. split; [exact A|exists ptr; rewrite B; simpl; auto].
Qed.

(** X2. Whatever the sandbox does, a call of the one-shot function calls
    into the sandbox in this order and no further: one instantiation, one
    [alloc] with the byte length of the request, one [run] and one [free],
    both with that length and the same pointer.  It stops at any point of
    this list and never calls [free] twice or before [run]. *)
Theorem one_shot_calls_in_order (w : world X)
  (expression : string) (value previousValue : jsval) (now : Date) :
  let len := Z.of_nat (List.length (inputBytes expression value previousValue now)) in
  let evs := events_since w
               (snd (evaluate compiles_to expression value previousValue now w)) in
  exists ptr : Z,
    In (filter sandbox_call evs)
       [ []; [EInstantiate]; [EInstantiate; EAlloc len];
         [EInstantiate; EAlloc len; ERun ptr len];
         [EInstantiate; EAlloc len; ERun ptr len; EFree ptr len] ].
Proof.
  intros len evs. subst evs. rewrite evaluate_outcome. simpl snd.
  set (o := one_shot_outcome _ _).
  rewrite (events_since_app w _ (compile_events evaluate_js w ++ snd o))
    by (rewrite log_add_events, loaded_module_log, app_assoc; reflexivity).
  rewrite filter_app, compile_events_filtered by reflexivity. simpl app.
  subst o. unfold one_shot_outcome.
  destruct (fst (loaded_module compiles_to evaluate_js w)) as [m|e];
    [|exists 0%Z; simpl; auto].
  destruct (start m) as [st0|]; [|exists 0%Z; simpl; auto].
  destruct (issued_in_order m st0 (inputBytes expression value previousValue now)
              SUndefined) as (_ & ptr & H).
  exists ptr. cbn [snd filter sandbox_call]. fold len in H.
  simpl in H. simpl.
  destruct H as [H|[H|[H|[]]]]; rewrite <- H; auto 8.
Qed.

(** X3. Whatever the sandbox does and whatever the handle holds, a call of
    the method of a handle compiles nothing, instantiates nothing and reads
    no file; its calls into the sandbox are, in this order and no further,
    one [alloc] with the byte length of the request, one [run] and one
    [free], both with that length and the same pointer. *)
Theorem handle_calls_in_order (w : world X) (this : nat)
  (expression : string) (value previousValue : jsval) (now : Date) :
  let len := Z.of_nat (List.length (inputBytes expression value previousValue now)) in
  let evs := events_since w
               (snd (Evaluator_evaluate this expression value previousValue now w)) in
  forallb per_call_event evs = true
  /\ exists ptr : Z,
       In (filter sandbox_call evs)
          [ []; [EAlloc len]; [EAlloc len; ERun ptr len];
            [EAlloc len; ERun ptr len; EFree ptr len] ].
Proof.
  intros len evs. subst evs.
  destruct (_instance (objects w this)) as [i|] eqn:Hi.
  - rewrite (Evaluator_events w this i) by exact Hi.
    destruct (issued_in_order (exports i) (state i)
                (inputBytes expression value previousValue now)
                (_outputStr (objects w this))) as (P & ptr & H).
    split; [exact P|]. exists ptr. right. exact H.
  - unfold Evaluator_evaluate, bind, get_object. rewrite Hi. simpl snd.
    rewrite (events_since_app w w []) by now rewrite app_nil_r.
    split; [reflexivity|]. exists 0%Z. simpl. auto.
Qed.

(** ** A request that does not fit the memory *)

Lemma view_none (buffer : list byte) (ptr len : Z) :
  (ptr < 0 \/ Z.of_nat (List.length buffer) < ptr + len)%Z ->
  Uint8Array_view buffer ptr len = None.
Proof.
  intros H. unfold Uint8Array_view.
  destruct (_ && _)%bool eqn:E; [|reflexivity].
  apply andb_prop in E. destruct E as [E E3]. apply andb_prop in E. destruct E as [E1 E2].
  apply Z.leb_le in E1, E2, E3. lia.
Qed.

(** X4. When [alloc] returns a pointer that is negative, or so large that
    the request would end past the end of the memory, the call fails with a
    RangeError in both forms -- the one-shot function, and the method of a
    handle whose instance is in any state: nothing is written, [run] and
    [free] are not called, and the handle keeps its output text. *)
Theorem request_out_of_bounds_is_a_RangeError
  (w1 w2 : world X) (this : nat) (m : compiled_module X) (st0 st1 : instance_state X)
  (expression : string) (value previousValue : jsval) (now : Date) (ptr : Z) :
  let bytes := inputBytes expression value previousValue now in
  let len := Z.of_nat (List.length bytes) in
  alloc m len st0 = Returned ptr st1 ->
  (ptr < 0 \/ Z.of_nat (List.length (memory st1)) < ptr + len)%Z ->
  let r1 := evaluate compiles_to expression value previousValue now w1 in
  let r2 := Evaluator_evaluate this expression value previousValue now w2 in
  (fst (loaded_module compiles_to evaluate_js w1) = Return m ->
   start m = Some st0 ->
   fst r1 = Throw RangeError
   /\ events_since w1 (snd r1)
      = (compile_events evaluate_js w1 ++ [EInstantiate; EAlloc len])%list)
  /\ (_instance (objects w2 this) = Some {| exports := m; state := st0 |} ->
      fst r2 = Throw RangeError
      /\ events_since w2 (snd r2) = [EAlloc len]
      /\ objects (snd r2) this
         = {| _instance := Some {| exports := m; state := st1 |};
              _outputStr := _outputStr (objects w2 this) |}).
Proof.
  intros bytes len Ha Hb r1 r2. subst r1 r2.
  apply view_none in Hb.
  assert (S : forall x,
             per_call_protocol m st0 bytes x
             = {| result := Throw RangeError; issued := [EAlloc len];
                  left_in := st1; held := x; parsed := false |}).
  { intros x. unfold per_call_protocol. fold len. rewrite Ha, Hb. reflexivity. }
  split.
  - intros Hm Hst.
    rewrite (evaluate_events compiles_to w1 m st0) by assumption.
    rewrite (evaluate_protocol compiles_to w1 m st0) by assumption.
    fold bytes. rewrite S. simpl. auto.
  - intros Hi.
    rewrite (Evaluator_events w2 this _ expression value previousValue now Hi).
    destruct (Evaluator_protocol w2 this _ expression value previousValue now Hi)
      as (w' & E & _ & O).
    rewrite E. simpl fst. simpl snd. rewrite O. simpl exports. simpl state.
    fold bytes. rewrite S. simpl. auto.
Qed.

(** ** What the call makes of the output text *)

(** What both forms make of the text they hold when [free] has returned. *)
Lemma both_forms_interpret
  (w1 w2 : world X) (this : nat) (m : compiled_module X)
  (st0 st1 st4 : instance_state X)
  (expression : string) (value previousValue : jsval) (now : Date) (ptr : Z)
  (text : string) :
  let bytes := inputBytes expression value previousValue now in
  let len := Z.of_nat (List.length bytes) in
  let st2 := {| memory := Uint8Array_set (memory st1) ptr bytes;
                internals := internals st1 |} in
  alloc m len st0 = Returned ptr st1 ->
  Uint8Array_view (memory st1) ptr len <> None ->
  returns_to_host (run m ptr len st2) = true ->
  (forall x, holds (observe (run m ptr len st2) x) = SText text) ->
  free m ptr len (leaves (observe (run m ptr len st2) SUndefined)) = Returned tt st4 ->
  let expected := match JSON.parse text with
                  | Some out => interpret out
                  | None => Throw SyntaxError
                  end in
  (fst (loaded_module compiles_to evaluate_js w1) = Return m ->
   start m = Some st0 ->
   fst (evaluate compiles_to expression value previousValue now w1) = expected)
  /\ (_instance (objects w2 this) = Some {| exports := m; state := st0 |} ->
      fst (Evaluator_evaluate this expression value previousValue now w2) = expected).
Proof.
  intros bytes len st2 Ha Hv Hr Hh Hf expected. subst expected. split.
  - intros Hm Hst.
    rewrite (evaluate_protocol compiles_to w1 m st0) by assumption. simpl fst.
    destruct (result_when_free_returns m st0 st1 st4 bytes SUndefined ptr Ha Hv
                (returns_to_host_completes _ _ Hr) Hf) as (R & _).
    fold bytes. rewrite R. fold len st2. rewrite Hh. unfold JSON_parse.
    destruct (JSON.parse text); reflexivity.
  - intros Hi.
    destruct (Evaluator_protocol w2 this _ expression value previousValue now Hi)
      as (w' & E & _).
    rewrite E. simpl fst. simpl exports. simpl state. fold bytes.
    set (x := _outputStr (objects w2 this)).
    assert (Hf' : free m ptr len (leaves (observe (run m ptr len st2) x))
                  = Returned tt st4).
    { destruct (observe_independent (run m ptr len st2) x SUndefined) as (_ & L & _).
      rewrite L. exact Hf. }
    destruct (result_when_free_returns m st0 st1 st4 bytes x ptr Ha Hv
                (returns_to_host_completes _ _ Hr) Hf') as (R & _).
    rewrite R. fold len st2. rewrite Hh. unfold JSON_parse.
    destruct (JSON.parse text); reflexivity.
Qed.

(** X5. The [error] field of the envelope is tested for truth, whatever it
    holds, in both forms -- the one-shot function, and the method of a
    handle whose instance is in any state: when it is null, false, a number
    that is 0 (also one too small for a double, as 1e-400) or the empty text
    the call returns the data, and when it is anything else the call fails
    with an Error made of that value. *)
Theorem error_field_is_tested_for_truth
  (w1 w2 : world X) (this : nat) (m : compiled_module X)
  (st0 st1 st4 : instance_state X)
  (expression : string) (value previousValue : jsval) (now : Date) (ptr : Z)
  (text : string) (members : list (string * jsval)) (error : jsval) :
  let bytes := inputBytes expression value previousValue now in
  let len := Z.of_nat (List.length bytes) in
  let st2 := {| memory := Uint8Array_set (memory st1) ptr bytes;
                internals := internals st1 |} in
  alloc m len st0 = Returned ptr st1 ->
  Uint8Array_view (memory st1) ptr len <> None ->
  returns_to_host (run m ptr len st2) = true ->
  (forall x, holds (observe (run m ptr len st2) x) = SText text) ->
  free m ptr len (leaves (observe (run m ptr len st2) SUndefined)) = Returned tt st4 ->
  JSON.parse text = Some (VObj members) ->
  lookup_member "error" members = Some error ->
  let expected :=
    if ToBoolean error then Throw (JsError error)
    else Return match lookup_member "data" members with
                | Some d => d
                | None => VUndef
                end in
  (fst (loaded_module compiles_to evaluate_js w1) = Return m ->
   start m = Some st0 ->
   fst (evaluate compiles_to expression value previousValue now w1) = expected)
  /\ (_instance (objects w2 this) = Some {| exports := m; state := st0 |} ->
      fst (Evaluator_evaluate this expression value previousValue now w2) = expected).
Proof.
  intros bytes len st2 Ha Hv Hr Hh Hf Hp He expected.
  pose proof (both_forms_interpret w1 w2 this m st0 st1 st4 expression value
                previousValue now ptr text Ha Hv Hr Hh Hf) as B.
  cbv zeta in B. rewrite Hp, interpret_object, He in B. exact B.
Qed.

(** X6. An output text that is valid JSON but not an object is no failure
    of its own, in both forms -- the one-shot function, and the method of a
    handle whose instance is in any state: the text [null] fails the call
    with a TypeError (the read of [error] of null), and an array, a text, a
    number or a boolean makes the call return undefined. *)
Theorem envelope_that_is_no_object
  (w1 w2 : world X) (this : nat) (m : compiled_module X)
  (st0 st1 st4 : instance_state X)
  (expression : string) (value previousValue : jsval) (now : Date) (ptr : Z)
  (text : string) (out : jsval) :
  let bytes := inputBytes expression value previousValue now in
  let len := Z.of_nat (List.length bytes) in
  let st2 := {| memory := Uint8Array_set (memory st1) ptr bytes;
                internals := internals st1 |} in
  alloc m len st0 = Returned ptr st1 ->
  Uint8Array_view (memory st1) ptr len <> None ->
  returns_to_host (run m ptr len st2) = true ->
  (forall x, holds (observe (run m ptr len st2) x) = SText text) ->
  free m ptr len (leaves (observe (run m ptr len st2) SUndefined)) = Returned tt st4 ->
  JSON.parse text = Some out ->
  (forall members, out <> VObj members) ->
  let expected := match out with
                  | VNull | VUndef => Throw TypeError
                  | _ => Return VUndef
                  end in
  (fst (loaded_module compiles_to evaluate_js w1) = Return m ->
   start m = Some st0 ->
   fst (evaluate compiles_to expression value previousValue now w1) = expected)
  /\ (_instance (objects w2 this) = Some {| exports := m; state := st0 |} ->
      fst (Evaluator_evaluate this expression value previousValue now w2) = expected).
Proof.
  intros bytes len st2 Ha Hv Hr Hh Hf Hp Hn expected.
  pose proof (both_forms_interpret w1 w2 this m st0 st1 st4 expression value
                previousValue now ptr text Ha Hv Hr Hh Hf) as B.
  cbv zeta in B. rewrite Hp in B. subst expected.
  destruct out; try exact B. exfalso. eapply Hn. reflexivity.
Qed.

(** ** Several calls of the import in one call of [run] *)

Lemma last_cons {A : Type} (l : list A) (a d : A) : last (a :: l) d = last l a.
Proof.
  revert a d. induction l as [|b l IH]; intros a d; [reflexivity|].
  change (last (a :: b :: l) d) with (last (b :: l) d). now rewrite !IH.
Qed.

Lemma holds_last (r : run_outcome X) (x : slot) :
  completes (observe r x) = Return tt ->
  holds (observe r x) = match handed_over r with
                        | [] => x
                        | s :: rest => SText (last rest s)
                        end.
Proof.
  revert x. induction r as [st p l k IH|st|st]; intros x; simpl.
  - destruct (output (memory st) p l) as [s|e]; simpl; [|discriminate].
    intros H. rewrite (IH (SText s) H).
    destruct (handed_over k) as [|s0 l0]; [reflexivity|].
    now rewrite last_cons.
  - reflexivity.
  - discriminate.
Qed.

(** X7. When [run] calls the import several times before it returns, the
    call goes by the text of the last of them, each text being the one
    decoded from the memory at the moment it was handed over: what the
    sandbox does to its memory afterwards does not count.  This holds of
    both forms -- the one-shot function, and the method of a handle whose
    instance is in any state. *)
Theorem last_output_counts
  (w1 w2 : world X) (this : nat) (m : compiled_module X)
  (st0 st1 st4 : instance_state X)
  (expression : string) (value previousValue : jsval) (now : Date) (ptr : Z)
  (first : string) (others : list string) :
  let bytes := inputBytes expression value previousValue now in
  let len := Z.of_nat (List.length bytes) in
  let st2 := {| memory := Uint8Array_set (memory st1) ptr bytes;
                internals := internals st1 |} in
  alloc m len st0 = Returned ptr st1 ->
  Uint8Array_view (memory st1) ptr len <> None ->
  returns_to_host (run m ptr len st2) = true ->
  handed_over (run m ptr len st2) = first :: others ->
  free m ptr len (leaves (observe (run m ptr len st2) SUndefined)) = Returned tt st4 ->
  let expected := match JSON.parse (last others first) with
                  | Some out => interpret out
                  | None => Throw SyntaxError
                  end in
  (fst (loaded_module compiles_to evaluate_js w1) = Return m ->
   start m = Some st0 ->
   fst (evaluate compiles_to expression value previousValue now w1) = expected)
  /\ (_instance (objects w2 this) = Some {| exports := m; state := st0 |} ->
      fst (Evaluator_evaluate this expression value previousValue now w2) = expected).
Proof.
  intros bytes len st2 Ha Hv Hr Hh Hf.
  apply (both_forms_interpret w1 w2 this m st0 st1 st4 expression value
           previousValue now ptr (last others first) Ha Hv Hr); [|exact Hf].
  fold bytes len st2. intros x.
  rewrite (holds_last _ x (returns_to_host_completes _ x Hr)), Hh. reflexivity.
Qed.

(** ** What a computation leaves as it was *)

Section Frame.

Variable P : event -> bool.
Variable touched : nat -> bool.
Variable files : js_file -> bool.

Lemma extends_refl (w : world X) : extends P touched files w w.
Proof.
  unfold extends. split; [exists []; now rewrite app_nil_r|auto].
Qed.

Lemma extends_trans (w1 w2 w3 : world X) :
  extends P touched files w1 w2 -> extends P touched files w2 w3 ->
  extends P touched files w1 w3.
Proof.
  intros ((e1 & L1 & F1) & A1 & O1 & V1) ((e2 & L2 & F2) & A2 & O2 & V2).
  unfold extends. split; [|split; [congruence|split]].
  - exists (e1 ++ e2)%list. rewrite L2, L1, app_assoc, forallb_app, F1, F2. auto.
  - intros i Hi. rewrite O2, O1; auto.
  - intros f Hf. rewrite V2, V1; auto.
Qed.

Lemma preserves_bind {A B : Type} (c : M X A) (k : A -> M X B) :
  preserves (extends P touched files) c ->
  (forall a, preserves (extends P touched files) (k a)) ->
  preserves (extends P touched files) (bind c k).
Proof.
  intros Hc Hk w. unfold bind. specialize (Hc w).
  destruct (c w) as [[a|e] w']; simpl in *; [|exact Hc].
  eapply extends_trans; [exact Hc|apply Hk].
Qed.

Lemma preserves_pure {A : Type} (c : completion A) :
  preserves (extends P touched files) (@lift X A c).
Proof. intros w. apply extends_refl. Qed.

Lemma preserves_emit (e : event) :
  P e = true -> preserves (extends P touched files) (@emit X e).
Proof.
  intros He w. unfold extends. simpl.
  split; [exists [e]; simpl; now rewrite He|].
  split; [reflexivity|]. split; [auto|].
  intros f _. destruct f; reflexivity.
Qed.

Lemma preserves_set_object (this : nat) (o : world X -> Evaluator X) :
  touched this = true ->
  preserves (extends P touched files)
    (fun w => (Return tt, set_object this (o w) w)).
Proof.
  intros Ht w. unfold extends. simpl.
  split; [exists []; now rewrite app_nil_r|].
  split; [reflexivity|]. split.
  - intros i Hi. destruct (Nat.eqb_spec i this); [congruence|reflexivity].
  - intros f _. destruct f; reflexivity.
Qed.

Lemma preserves_await (p : promise X) :
  preserves (extends P touched files) (await p).
Proof.
  intros w. unfold extends. simpl.
  split; [exists []; now rewrite app_nil_r|].
  split; [reflexivity|]. split; [auto|].
  intros f _. destruct f; reflexivity.
Qed.

Lemma preserves_loadModule (f : js_file) :
  P ECompile = true -> files f = true ->
  preserves (extends P touched files) (loadModule compiles_to f).
Proof.
  intros Hp Hf w. unfold loadModule.
  destruct (modulePromise (vars f w)); [apply extends_refl|].
  unfold bind, extends. simpl.
  split; [exists [ECompile]; simpl; now rewrite Hp|].
  split; [reflexivity|]. split; [auto|].
  intros g Hg. destruct f, g; try reflexivity; congruence.
Qed.

End Frame.

Lemma preserves_run_on (P : event -> bool) (touched : nat -> bool)
  (files : js_file -> bool) (this : nat) (r : run_outcome X) :
  P = per_call_event -> touched this = true ->
  preserves (extends P touched files) (run_on this r).
Proof.
  intros -> Ht. induction r as [st p l k IH|st|st]; simpl.
  - unfold set_state, set_outputStr.
    apply preserves_bind; [apply preserves_set_object; exact Ht|intros _].
    apply preserves_bind; [apply preserves_emit; reflexivity|intros _].
    apply preserves_bind; [apply preserves_pure|intros s].
    apply preserves_bind; [apply preserves_set_object; exact Ht|intros _].
    exact IH.
  - unfold set_state.
    apply preserves_bind; [apply preserves_set_object; exact Ht|intros _].
    apply (preserves_pure _ _ _ (Return st)).
  - unfold set_state.
    apply preserves_bind; [apply preserves_set_object; exact Ht|intros _].
    apply (preserves_pure _ _ _ (Throw RuntimeError)).
Qed.

Lemma preserves_call_on (touched : nat -> bool) (files : js_file -> bool)
  {A : Type} (this : nat) (e : event) (r : call_result X A) :
  per_call_event e = true -> touched this = true ->
  preserves (extends per_call_event touched files) (call_on this e r).
Proof.
  intros He Ht. unfold call_on, set_state.
  apply preserves_bind; [apply preserves_emit; exact He|intros _].
  destruct r as [a st|st];
    (apply preserves_bind; [apply preserves_set_object; exact Ht|intros _]).
  - apply (preserves_pure _ _ _ (Return (a, st))).
  - apply (preserves_pure _ _ _ (Throw RuntimeError)).
Qed.

Lemma preserves_inputMem_set (P : event -> bool) (touched : nat -> bool)
  (files : js_file -> bool) (st : instance_state X) (ptr len : Z) (bytes : list byte) :
  P (EWrite ptr bytes) = true ->
  preserves (extends P touched files) (inputMem_set st ptr len bytes).
Proof.
  intros Hp. unfold inputMem_set.
  destruct (Uint8Array_view (memory st) ptr len).
  - apply preserves_bind; [apply preserves_emit; exact Hp|intros _].
    apply (preserves_pure _ _ _ (Return _)).
  - apply (preserves_pure _ _ _ (Throw RangeError)).
Qed.

(** The method of a handle adds events of the call only and leaves alone
    the artifact, every other object and the bindings of both files. *)
Lemma Evaluator_evaluate_frame (this : nat)
  (expression : string) (value previousValue : jsval) (now : Date) :
  preserves (X := X)
    (extends per_call_event (fun i => Nat.eqb i this) (fun _ => false))
    (Evaluator_evaluate this expression value previousValue now).
Proof.
  unfold Evaluator_evaluate.
  apply preserves_bind; [intros w; apply extends_refl|intros self].
  destruct (_instance self) as [i|]; [|apply (preserves_pure _ _ _ (Throw TypeError))].
  apply preserves_bind;
    [apply preserves_call_on; [reflexivity|apply Nat.eqb_refl]|intros [inputPtr st]].
  apply preserves_bind; [apply preserves_inputMem_set; reflexivity|intros st'].
  apply preserves_bind;
    [unfold set_state; apply preserves_set_object; apply Nat.eqb_refl|intros _].
  apply preserves_bind; [apply preserves_emit; reflexivity|intros _].
  apply preserves_bind;
    [apply preserves_run_on; [reflexivity|apply Nat.eqb_refl]|intros st''].
  apply preserves_bind;
    [apply preserves_call_on; [reflexivity|apply Nat.eqb_refl]|intros _].
  apply preserves_bind; [intros w; apply extends_refl|intros self'].
  apply preserves_bind; [apply preserves_pure|intros out].
  apply preserves_bind;
    [unfold set_outputStr; apply preserves_set_object; apply Nat.eqb_refl|intros _].
  apply preserves_pure.
Qed.

(** X8. A call of the method of a handle interferes with nothing but its
    own handle: every other [Evaluator] object, the artifact and the
    bindings of both files (their module caches) are as they were, and the
    handle itself still holds the exports it held. *)
Theorem handle_call_touches_its_handle_only (w : world X) (this other : nat)
  (expression : string) (value previousValue : jsval) (now : Date) :
  other <> this ->
  let w' := snd (Evaluator_evaluate this expression value previousValue now w) in
  objects w' other = objects w other
  /\ vars evaluate_js w' = vars evaluate_js w
  /\ vars evaluator_js w' = vars evaluator_js w
  /\ artifact w' = artifact w
  /\ option_map exports (_instance (objects w' this))
     = option_map exports (_instance (objects w this)).
Proof.
  intros Hne w'. subst w'.
  destruct (Evaluator_evaluate_frame this expression value previousValue now w)
    as (_ & A & O & V).
  split; [apply O; now apply Nat.eqb_neq|].
  split; [now apply V|]. split; [now apply V|]. split; [exact A|].
  destruct (_instance (objects w this)) as [i|] eqn:Hi.
  - destruct (Evaluator_protocol w this i expression value previousValue now Hi)
      as (w' & E & _ & Ho).
    rewrite E. simpl snd. rewrite Ho. reflexivity.
  - unfold Evaluator_evaluate, bind, get_object. rewrite Hi. simpl. now rewrite Hi.
Qed.

Lemma extends_weaken (P P' : event -> bool) (t t' : nat -> bool)
  (f f' : js_file -> bool) (w w' : world X) :
  (forall e, P e = true -> P' e = true) ->
  (forall i, t i = true -> t' i = true) ->
  (forall g, f g = true -> f' g = true) ->
  extends P t f w w' -> extends P' t' f' w w'.
Proof.
  intros HP Ht Hf ((evs & L & F) & A & O & V). unfold extends.
  split; [|split; [exact A|split]].
  - exists evs. split; [exact L|]. rewrite forallb_forall in *. auto.
  - intros i Hi. apply O. destruct (t i) eqn:E; [|reflexivity].
    rewrite (Ht i E) in Hi. discriminate.
  - intros g Hg. apply V. destruct (f g) eqn:E; [|reflexivity].
    rewrite (Hf g E) in Hg. discriminate.
Qed.

Lemma preserves_weaken (P P' : event -> bool) (t t' : nat -> bool)
  (f f' : js_file -> bool) {A : Type} (c : M X A) :
  (forall e, P e = true -> P' e = true) ->
  (forall i, t i = true -> t' i = true) ->
  (forall g, f g = true -> f' g = true) ->
  preserves (extends P t f) c -> preserves (extends P' t' f') c.
Proof. intros HP Ht Hf H w. eapply extends_weaken; eauto. Qed.

Lemma preserves_loaded_module (P : event -> bool) (touched : nat -> bool)
  (files : js_file -> bool) (f : js_file) :
  P ECompile = true -> files f = true ->
  preserves (extends P touched files) (loaded_module compiles_to f).
Proof.
  intros Hp Hf. unfold loaded_module.
  apply preserves_bind; [now apply preserves_loadModule|intros p].
  apply preserves_await.
Qed.

Lemma preserves_instantiate (P : event -> bool) (touched : nat -> bool)
  (files : js_file -> bool) (m : compiled_module X) :
  P EInstantiate = true ->
  preserves (extends P touched files) (WebAssembly_instantiate m).
Proof.
  intros Hp. unfold WebAssembly_instantiate.
  apply preserves_bind; [now apply preserves_emit|intros _].
  destruct (start m).
  - apply (preserves_pure _ _ _ (Return _)).
  - apply (preserves_pure _ _ _ (Throw (start_failure m))).
Qed.

Lemma preserves_call (P : event -> bool) (touched : nat -> bool)
  (files : js_file -> bool) {A : Type} (e : event) (r : call_result X A) :
  P e = true -> preserves (extends P touched files) (call e r).
Proof.
  intros He. unfold call.
  apply preserves_bind; [now apply preserves_emit|intros _].
  destruct r as [a st|st].
  - apply (preserves_pure _ _ _ (Return (a, st))).
  - apply (preserves_pure _ _ _ (Throw RuntimeError)).
Qed.

Lemma preserves_run_with_output (P : event -> bool) (touched : nat -> bool)
  (files : js_file -> bool) (r : run_outcome X) (x : slot) :
  (forall p l, P (EOutput p l) = true) ->
  preserves (extends P touched files) (run_with_output r x).
Proof.
  intros Hp. revert x. induction r as [st p l k IH|st|st]; intros x; simpl.
  - apply preserves_bind; [apply preserves_emit; apply Hp|intros _].
    apply preserves_bind; [apply preserves_pure|intros s]. apply IH.
  - apply (preserves_pure _ _ _ (Return (x, st))).
  - apply (preserves_pure _ _ _ (Throw RuntimeError)).
Qed.

Lemma no_read_filter (evs : list event) :
  forallb no_read evs = true -> filter is_read evs = [].
Proof.
  induction evs as [|e evs IH]; [reflexivity|]. simpl. intros F.
  apply andb_prop in F. destruct F as [F1 F2]. unfold no_read in F1.
  destruct (is_read e); [discriminate|]. now apply IH.
Qed.

(** The one-shot function reads no file and leaves alone the artifact,
    every [Evaluator] object and the bindings of evaluator.js. *)
Lemma evaluate_frame
  (expression : string) (value previousValue : jsval) (now : Date) :
  preserves (extends no_read (fun _ => false) only_evaluate_js)
    (evaluate compiles_to expression value previousValue now).
Proof.
  unfold evaluate.
  apply preserves_bind; [apply preserves_loaded_module; reflexivity|intros m].
  apply preserves_bind; [apply preserves_instantiate; reflexivity|intros st].
  apply preserves_bind; [apply preserves_call; reflexivity|intros [inputPtr st1]].
  apply preserves_bind; [apply preserves_inputMem_set; reflexivity|intros st2].
  apply preserves_bind; [|intros [outputStr st3]].
  { apply preserves_bind; [apply preserves_emit; reflexivity|intros _].
    apply preserves_run_with_output. reflexivity. }
  apply preserves_bind; [apply preserves_call; reflexivity|intros [u st4]].
  apply preserves_bind; [apply preserves_pure|intros out].
  apply preserves_pure.
Qed.

(** X9. A call of the one-shot function reads no file and leaves every
    [Evaluator] object, the artifact and the bindings of evaluator.js as
    they were; of the bindings of evaluate.js it changes nothing but the
    cached promise. *)
Theorem one_shot_call_touches_its_cache_only (w : world X) (i : nat)
  (expression : string) (value previousValue : jsval) (now : Date) :
  let w' := snd (evaluate compiles_to expression value previousValue now w) in
  objects w' i = objects w i
  /\ vars evaluator_js w' = vars evaluator_js w
  /\ artifact w' = artifact w
  /\ filter is_read (events_since w w') = []
  /\ loaded (vars evaluate_js w') = loaded (vars evaluate_js w)
  /\ file (vars evaluate_js w') = file (vars evaluate_js w).
Proof.
  intros w'. subst w'.
  destruct (evaluate_frame expression value previousValue now w)
    as ((evs & L & F) & A & O & V).
  split; [now apply O|]. split; [now apply V|]. split; [exact A|]. split.
  - rewrite (events_since_app _ _ _ L). now apply no_read_filter.
  - rewrite evaluate_outcome. simpl snd. rewrite vars_add_events.
    unfold loaded_module, loadModule, bind.
    destruct (modulePromise (vars evaluate_js w)); simpl; auto.
Qed.

(** ** [Evaluator.create] *)

Lemma create_makes_a_handle (w : world X) (m : compiled_module X)
  (st0 : instance_state X) :
  fst (loaded_module compiles_to evaluator_js w) = Return m ->
  start m = Some st0 ->
  exists w' : world X,
    Evaluator_create compiles_to w = (Return (next_object w), w')
    /\ objects w' (next_object w)
       = {| _instance := Some {| exports := m; state := st0 |}; _outputStr := SNull |}
    /\ (forall i, i <> next_object w -> objects w' i = objects w i)
    /\ log w' = (log w ++ compile_events evaluator_js w ++ [EInstantiate])%list
    /\ next_object w' = S (next_object w)
    /\ artifact w' = artifact w
    /\ vars evaluate_js w' = vars evaluate_js w
    /\ fst (loaded_module compiles_to evaluator_js w') = Return m
    /\ compile_events evaluator_js w' = [].
Proof.
  intros Hm Hst. rewrite loaded_module_result in Hm.
  unfold Evaluator_create, Evaluator_new, loaded_module, loadModule,
    WebAssembly_instantiate, compile_events, bind, emit, ret. simpl in *.
  destruct (modulePromise (vars_evaluator_js w)) as [p|] eqn:Hp; simpl.
  - rewrite Hm, Hst. simpl. eexists. split; [reflexivity|]. simpl.
    rewrite ?Nat.eqb_refl, Hp. simpl.
    repeat split; auto.
    intros i Hi. apply Nat.eqb_neq in Hi. now rewrite Hi.
  - rewrite Hm, Hst. simpl. eexists. split; [reflexivity|]. simpl.
    rewrite ?Nat.eqb_refl. simpl.
    repeat split; auto.
    + intros i Hi. apply Nat.eqb_neq in Hi. now rewrite Hi.
    + now rewrite <- app_assoc.
Qed.

(** X10. When the module loads and instantiates, [Evaluator.create] hands
    out a handle that did not exist before, holding a fresh instance and no
    output text; it has instantiated once, compiled only if evaluator.js
    had no promise cached, and called neither [alloc] nor [run] nor [free];
    the objects that existed are as they were. *)
Theorem create_hands_out_a_fresh_handle (w : world X) (m : compiled_module X)
  (st0 : instance_state X) :
  fst (loaded_module compiles_to evaluator_js w) = Return m ->
  start m = Some st0 ->
  let r := Evaluator_create compiles_to w in
  fst r = Return (next_object w)
  /\ objects (snd r) (next_object w)
     = {| _instance := Some {| exports := m; state := st0 |}; _outputStr := SNull |}
  /\ (forall i, i <> next_object w -> objects (snd r) i = objects w i)
  /\ events_since w (snd r) = (compile_events evaluator_js w ++ [EInstantiate])%list
  /\ next_object (snd r) = S (next_object w).
Proof.
  intros Hm Hst r. subst r.
  destruct (create_makes_a_handle w m st0 Hm Hst) as (w' & E & O & F & L & N & _).
  rewrite E. simpl fst. simpl snd.
  split; [reflexivity|]. split; [exact O|]. split; [exact F|].
  split; [now apply events_since_app|exact N].
Qed.

(** X11. Two handles made one after the other are different objects with
    an instance each, made of one compilation: the second [create] finds
    the promise the first one cached and only instantiates. *)
Theorem two_handles_share_a_compilation (w : world X) (m : compiled_module X)
  (st0 : instance_state X) :
  fst (loaded_module compiles_to evaluator_js w) = Return m ->
  start m = Some st0 ->
  let r1 := Evaluator_create compiles_to w in
  let r2 := Evaluator_create compiles_to (snd r1) in
  let fresh := {| _instance := Some {| exports := m; state := st0 |};
                  _outputStr := SNull |} in
  fst r1 = Return (next_object w)
  /\ fst r2 = Return (S (next_object w))
  /\ objects (snd r2) (next_object w) = fresh
  /\ objects (snd r2) (S (next_object w)) = fresh
  /\ events_since w (snd r2)
     = (compile_events evaluator_js w ++ [EInstantiate; EInstantiate])%list.
Proof.
  intros Hm Hst r1 r2 fresh. subst r1 r2 fresh.
  destruct (create_makes_a_handle w m st0 Hm Hst)
    as (w1 & E1 & O1 & F1 & L1 & N1 & _ & _ & Hm1 & C1).
  rewrite E1. simpl fst. simpl snd.
  destruct (create_makes_a_handle w1 m st0 Hm1 Hst)
    as (w2 & E2 & O2 & F2 & L2 & N2 & _).
  rewrite E2. simpl fst. simpl snd. rewrite N1 in *.
  split; [reflexivity|]. split; [reflexivity|].
  split; [rewrite F2 by lia; exact O1|]. split; [exact O2|].
  apply events_since_app. rewrite L2, L1, C1. simpl.
  rewrite <- !app_assoc. reflexivity.
Qed.

(** X12. When the compilation or the instantiation fails, [Evaluator.create]
    fails with that failure (for the instantiation the one the platform
    rejects with: a LinkError for an import that does not fit, a
    RuntimeError for a start function that traps) and hands out no handle;
    it has called neither [alloc] nor [run] nor [free], and the objects that
    existed are as they were. *)
Theorem create_fails_with_the_load_failure (w : world X) :
  let c := fst (loaded_module compiles_to evaluator_js w) in
  (forall m, c = Return m -> start m = None) ->
  let r := Evaluator_create compiles_to w in
  fst r = match c with
          | Return m => Throw (start_failure m)
          | Throw e => Throw e
          end
  /\ events_since w (snd r)
     = (compile_events evaluator_js w
          ++ match c with Return _ => [EInstantiate] | Throw _ => [] end)%list
  /\ (forall i, i <> next_object w -> objects (snd r) i = objects w i).
Proof.
  intros c Hc r. subst r c. rewrite loaded_module_result in *.
  unfold Evaluator_create, Evaluator_new, loaded_module, loadModule,
    WebAssembly_instantiate, compile_events, bind, emit, ret, throw. simpl in *.
  destruct (modulePromise (vars_evaluator_js w)) as [p|] eqn:Hp; simpl.
  - destruct (outcome p) as [m|e]; simpl.
    + rewrite (Hc m eq_refl). simpl. split; [reflexivity|]. split.
      * apply events_since_app. reflexivity.
      * intros i Hi. apply Nat.eqb_neq in Hi. now rewrite Hi.
    + split; [reflexivity|]. split.
      * apply events_since_app. simpl. now rewrite app_nil_r.
      * intros i Hi. apply Nat.eqb_neq in Hi. now rewrite Hi.
  - destruct (compile_outcome compiles_to (file (vars_evaluator_js w))) as [m|e]; simpl.
    + rewrite (Hc m eq_refl). simpl. split; [reflexivity|]. split.
      * apply events_since_app. simpl. now rewrite <- app_assoc.
      * intros i Hi. apply Nat.eqb_neq in Hi. now rewrite Hi.
    + split; [reflexivity|]. split.
      * apply events_since_app. reflexivity.
      * intros i Hi. apply Nat.eqb_neq in Hi. now rewrite Hi.
Qed.

(** ** The program index.js *)

Lemma Evaluator_create_frame :
  preserves (extends no_read anything any_file) (Evaluator_create compiles_to).
Proof.
  unfold Evaluator_create.
  apply preserves_bind; [|intros self].
  { intros w. unfold Evaluator_new, extends. simpl.
    split; [exists []; now rewrite app_nil_r|].
    split; [reflexivity|]. split; [discriminate|].
    intros f _. destruct f; reflexivity. }
  apply preserves_bind; [apply preserves_loaded_module; reflexivity|intros m].
  apply preserves_bind; [apply preserves_instantiate; reflexivity|intros st].
  apply preserves_bind; [apply preserves_set_object; reflexivity|intros _].
  apply (preserves_pure _ _ _ (Return self)).
Qed.

Lemma evaluate_reads_nothing
  (expression : string) (value previousValue : jsval) (now : Date) :
  preserves (extends no_read anything any_file)
    (evaluate compiles_to expression value previousValue now).
Proof.
  eapply preserves_weaken; [| | |apply evaluate_frame]; auto.
Qed.

Lemma Evaluator_evaluate_reads_nothing (this : nat)
  (expression : string) (value previousValue : jsval) (now : Date) :
  preserves (X := X) (extends no_read anything any_file)
    (Evaluator_evaluate this expression value previousValue now).
Proof.
  eapply preserves_weaken; [| | |apply Evaluator_evaluate_frame]; auto.
  intros [] H; (reflexivity || discriminate H).
Qed.

(** X13. Where the artifact is there, a run of index.js reads it exactly
    twice, once for each of the two files it requires, whatever the sandbox
    does afterwards: none of the calls of [evaluate], [Evaluator.create] and
    the method of the handle reads a file. *)
Theorem index_js_reads_the_artifact_twice (clock : nat -> Date) (w : world X)
  (bytes : list byte) :
  artifact w = Some bytes ->
  loaded (vars evaluate_js w) = false ->
  loaded (vars evaluator_js w) = false ->
  filter is_read (events_since w (snd (index_js compiles_to clock w)))
  = [EReadFile; EReadFile].
Proof.
  intros Ha H1 H2. unfold index_js.
  unfold bind at 1. unfold require at 1. rewrite H1, Ha.
  unfold bind at 1. unfold require at 1. simpl vars. simpl in H2. rewrite H2.
  simpl artifact. rewrite Ha.
  match goal with
  | |- context [snd (bind ?a ?k ?w2)] =>
      assert (F : preserves (extends no_read anything any_file) (bind a k));
      [|destruct (F w2) as ((evs & L & N) & _)]
  end.
  { repeat (apply preserves_bind;
            [first [ apply evaluate_reads_nothing
                   | apply Evaluator_evaluate_reads_nothing
                   | apply Evaluator_create_frame ]|intros ?]).
    apply (preserves_pure _ _ _ (Return tt)). }
  simpl log in L.
  rewrite (events_since_app w _ ([EReadFile; EReadFile] ++ evs))
    by (rewrite L, <- !app_assoc; reflexivity).
  rewrite filter_app, (no_read_filter evs N). reflexivity.
Qed.

(** ** A module that does not load *)

(** X14. A failure to compile the artifact is cached like a success: the
    call that meets it fails with it after at most the one compilation, and
    every later call of the one-shot function fails with the same failure
    without compiling again and without any call into the sandbox. *)
Theorem failed_load_is_not_retried (w : world X) (e : js_error)
  (expression1 expression2 : string) (value1 previousValue1 value2 previousValue2 : jsval)
  (now1 now2 : Date) :
  fst (loaded_module compiles_to evaluate_js w) = Throw e ->
  let r1 := evaluate compiles_to expression1 value1 previousValue1 now1 w in
  let r2 := evaluate compiles_to expression2 value2 previousValue2 now2 (snd r1) in
  fst r1 = Throw e
  /\ events_since w (snd r1) = compile_events evaluate_js w
  /\ fst r2 = Throw e
  /\ events_since (snd r1) (snd r2) = [].
Proof.
  intros He r1 r2. subst r1 r2.
  rewrite (evaluate_outcome compiles_to w). rewrite He. simpl fst. simpl snd.
  change (add_events [] ?w0) with w0.
  destruct (loaded_module_caches compiles_to evaluate_js w) as (p & Hp & Ho).
  rewrite He in Ho.
  set (w1 := snd (loaded_module compiles_to evaluate_js w)) in *.
  assert (He1 : fst (loaded_module compiles_to evaluate_js w1) = Throw e)
    by (rewrite loaded_module_result, Hp; exact Ho).
  rewrite (evaluate_outcome compiles_to w1). rewrite He1. simpl fst. simpl snd.
  change (add_events [] ?w0) with w0.
  split; [reflexivity|].
  split; [apply events_since_app; subst w1; apply loaded_module_log|].
  split; [reflexivity|].
  apply events_since_app. rewrite loaded_module_log. unfold compile_events.
  now rewrite Hp.
Qed.

(** ** The output text a handle holds *)

(** X15. What [_outputStr] holds when a call starts has no part in the
    result of the call, as long as [run] does not return without having
    called the import: a text left behind by an earlier session is
    overwritten before it is read. *)
Theorem earlier_output_has_no_part (w : world X) (this : nat) (i : instance X)
  (x : slot) (expression : string) (value previousValue : jsval) (now : Date) :
  let bytes := inputBytes expression value previousValue now in
  let len := Z.of_nat (List.length bytes) in
  _instance (objects w this) = Some i ->
  (forall ptr st1,
     alloc (exports i) len (state i) = Returned ptr st1 ->
     returns_silently
       (run (exports i) ptr len
          {| memory := Uint8Array_set (memory st1) ptr bytes;
             internals := internals st1 |}) = false) ->
  fst (Evaluator_evaluate this expression value previousValue now
         (snd (set_outputStr this x w)))
  = fst (Evaluator_evaluate this expression value previousValue now w).
Proof.
  intros bytes len Hi Hs.
  destruct (Evaluator_protocol w this i expression value previousValue now Hi)
    as (w1 & E1 & _).
  assert (Hi' : _instance (objects (snd (set_outputStr this x w)) this) = Some i)
    by (simpl; now rewrite Nat.eqb_refl).
  destruct (Evaluator_protocol _ this i expression value previousValue now Hi')
    as (w2 & E2 & _).
  rewrite E1, E2. simpl fst.
  apply (protocol_independent (exports i) (state i) bytes). exact Hs.
Qed.

(** ** The date of the request *)

Lemma length_append (a b : string) :
  String.length (a ++ b) = String.length a + String.length b.
Proof. induction a as [|c a IH]; simpl; [reflexivity|now rewrite IH]. Qed.

Lemma all_from_spec (f : Z -> bool) (n : nat) :
  forall y z : Z,
  all_from f y n = true -> (y <= z < y + Z.of_nat n)%Z -> f z = true.
Proof.
  induction n as [|n IH]; intros y z H Hz; [lia|].
  simpl in H. apply andb_prop in H. destruct H as [Hy Hn].
  destruct (Z.eq_dec z y) as [->|Hne]; [exact Hy|].
  apply (IH (y + 1)%Z z Hn). lia.
Qed.

Lemma year_of_four_digits (y : Z) :
  (1000 <= y <= 9999)%Z -> String.length (string_of_Z y) = 4.
Proof.
  intros H.
  assert (F : all_from (fun z => Nat.eqb (String.length (string_of_Z z)) 4)
                1000 (Z.to_nat 9000) = true) by (vm_compute; reflexivity).
  apply Nat.eqb_eq.
  apply (all_from_spec _ _ 1000%Z y F). lia.
Qed.

(** X16. For a month from 0 to 11 and a day of the month up to 31,
    [nowToDate] writes the year as it is, the number of the month counted
    from 1 and the day, the last two with two digits each, with hyphens
    between them; for a year of four digits that is a text of ten
    characters. *)
Theorem nowToDate_pads_month_and_day (now : Date) :
  getMonth now < 12 ->
  getDate now <= 31 ->
  nowToDate now
  = string_of_Z (getFullYear now) ++ "-" ++ pad2 (S (getMonth now))
      ++ "-" ++ pad2 (getDate now)
  /\ ((1000 <= getFullYear now <= 9999)%Z -> String.length (nowToDate now) = 10).
Proof.
  intros Hm Hd.
  assert (E : nowToDate now
              = string_of_Z (getFullYear now) ++ "-" ++ pad2 (S (getMonth now))
                  ++ "-" ++ pad2 (getDate now)).
  { unfold nowToDate. f_equal. f_equal. f_equal.
    - destruct (getMonth now) as [|m]; [reflexivity|].
      do 11 (destruct m as [|m]; [reflexivity|]). lia.
    - f_equal. destruct (getDate now) as [|d]; [reflexivity|].
      do 31 (destruct d as [|d]; [reflexivity|]). lia. }
  split; [exact E|]. intros Hy. rewrite E.
  rewrite !length_append, (year_of_four_digits _ Hy). reflexivity.
Qed.

End Further.

(** ** Reading back what [JSON.stringify] writes *)

Section jsval_induction.

Variable P : jsval -> Prop.
Hypothesis HUndef : P VUndef.
Hypothesis HNull : P VNull.
Hypothesis HBool : forall b, P (VBool b).
Hypothesis HNum : forall lit, P (VNum lit).
Hypothesis HStr : forall s, P (VStr s).
Hypothesis HArr : forall elems, Forall P elems -> P (VArr elems).
Hypothesis HObj :
  forall members, Forall (fun kv : string * jsval => P (snd kv)) members ->
  P (VObj members).

Fixpoint jsval_induction (v : jsval) : P v :=
  match v with
  | VUndef => HUndef
  | VNull => HNull
  | VBool b => HBool b
  | VNum lit => HNum lit
  | VStr s => HStr s
  | VArr elems =>
      HArr elems
        ((fix go (l : list jsval) : Forall P l :=
            match l with
            | [] => Forall_nil P
            | x :: l' => Forall_cons x (jsval_induction x) (go l')
            end) elems)
  | VObj members =>
      HObj members
        ((fix go (l : list (string * jsval))
            : Forall (fun kv : string * jsval => P (snd kv)) l :=
            match l with
            | [] => Forall_nil _
            | (k, x) :: l' => Forall_cons (k, x) (jsval_induction x) (go l')
            end) members)
  end.

End jsval_induction.

Lemma prepend_prepend (a b : list JSON.token) (o : option (list JSON.token)) :
  prepend a (prepend b o) = prepend (a ++ b) o.
Proof. destruct o; simpl; [now rewrite app_assoc|reflexivity]. Qed.

Lemma prepend_nil (o : option (list JSON.token)) : prepend [] o = o.
Proof. destruct o; reflexivity. Qed.

Lemma lex_cons (st : JSON.lex_state) (c : ascii) (s : string) :
  JSON.lex st (String c s) =
  match JSON.lex_step st c with
  | None => None
  | Some (st', toks) => prepend toks (JSON.lex st' s)
  end.
Proof. reflexivity. Qed.

Lemma lex_stepped (st st' : JSON.lex_state) (toks : list JSON.token)
  (c : ascii) (s : string) :
  JSON.lex_step st c = Some (st', toks) ->
  JSON.lex st (String c s) = prepend toks (JSON.lex st' s).
Proof. intros H. rewrite lex_cons, H. reflexivity. Qed.

Lemma lex_app (a b : string) :
  forall st : JSON.lex_state,
  JSON.lex st (a ++ b) =
  match lex_steps st a with
  | None => None
  | Some (st', toks) => prepend toks (JSON.lex st' b)
  end.
Proof.
  induction a as [|c a IH]; intros st.
  - simpl. now rewrite prepend_nil.
  - change (String c a ++ b) with (String c (a ++ b)). rewrite lex_cons. simpl.
    destruct (JSON.lex_step st c) as [[st' toks]|]; [|reflexivity].
    rewrite IH. destruct (lex_steps st' a) as [[st'' toks']|]; [|reflexivity].
    now rewrite prepend_prepend.
Qed.

(** One character of a text, as [quote] writes it, is read back as that
    character. *)
Lemma lex_quote_char (c : ascii) (acc : string) :
  lex_steps (JSON.LStr acc) (JSON.quote_char c) = Some (JSON.LStr (snoc acc c), []).
Proof.
  destruct c as [[|] [|] [|] [|] [|] [|] [|] [|]]; reflexivity.
Qed.

Lemma append_nil_r (s : string) : s ++ EmptyString = s.
Proof. induction s as [|c s IH]; simpl; [reflexivity|now rewrite IH]. Qed.

Lemma lex_quote_body (s : string) :
  forall (acc rest : string),
  JSON.lex (JSON.LStr acc) (JSON.quote_body s ++ String dquote rest)
  = prepend [JSON.TString (acc ++ s)] (JSON.lex JSON.LStart rest).
Proof.
  induction s as [|c s IH]; intros acc rest.
  - simpl JSON.quote_body. simpl append. rewrite lex_cons, append_nil_r. reflexivity.
  - simpl JSON.quote_body. rewrite append_assoc, lex_app, lex_quote_char, prepend_nil.
    rewrite IH. unfold snoc. rewrite append_assoc. reflexivity.
Qed.

Lemma lex_quote (s rest : string) :
  JSON.lex JSON.LStart (JSON.quote s ++ rest)
  = prepend [JSON.TString s] (JSON.lex JSON.LStart rest).
Proof.
  unfold JSON.quote.
  change (String dquote (JSON.quote_body s) ++ String dquote EmptyString)
    with (String dquote (JSON.quote_body s ++ String dquote EmptyString)).
  change (String dquote (JSON.quote_body s ++ String dquote EmptyString) ++ rest)
    with (String dquote ((JSON.quote_body s ++ String dquote EmptyString) ++ rest)).
  rewrite append_assoc. simpl (String dquote EmptyString ++ rest).
  rewrite lex_cons.
  change (JSON.lex_step JSON.LStart dquote)
    with (Some (JSON.LStr EmptyString, @nil JSON.token)).
  cbv iota beta.
  rewrite (lex_quote_body s EmptyString rest), prepend_nil. reflexivity.
Qed.

Lemma closes_cases (rest : string) :
  closes rest = true ->
  rest = EmptyString
  \/ exists r, rest = String ","%char r \/ rest = String "]"%char r
               \/ rest = String "}"%char r.
Proof.
  destruct rest as [|c r]; [auto|]. simpl. intros H. right. exists r.
  rewrite <- (ascii_nat_embedding c).
  destruct (Nat.eqb_spec (nat_of_ascii c) 44) as [->|_]; [auto|].
  destruct (Nat.eqb_spec (nat_of_ascii c) 93) as [->|_]; [auto|].
  destruct (Nat.eqb_spec (nat_of_ascii c) 125) as [->|_]; [auto|].
  discriminate H.
Qed.

Lemma lex_after_number (ns : JSON.num_state) (lit rest : string) :
  JSON.num_accepting ns = true -> closes rest = true ->
  JSON.lex (JSON.LNum ns lit) rest
  = prepend [JSON.TNumber lit] (JSON.lex JSON.LStart rest).
Proof.
  intros Ha Hc.
  destruct (closes_cases rest Hc) as [H|(r & [H|[H|H]])]; subst rest.
  - simpl. rewrite Ha. reflexivity.
  - rewrite !lex_cons. destruct ns; try discriminate Ha; simpl;
      now rewrite prepend_prepend.
  - rewrite !lex_cons. destruct ns; try discriminate Ha; simpl;
      now rewrite prepend_prepend.
  - rewrite !lex_cons. destruct ns; try discriminate Ha; simpl;
      now rewrite prepend_prepend.
Qed.

Lemma lex_number (lit rest : string) :
  valid_number lit = true -> closes rest = true ->
  JSON.lex JSON.LStart (lit ++ rest)
  = prepend [JSON.TNumber lit] (JSON.lex JSON.LStart rest).
Proof.
  unfold valid_number. intros Hv Hc. rewrite lex_app.
  destruct (lex_steps JSON.LStart lit) as [[[] toks]|]; try discriminate Hv.
  destruct toks; [|discriminate Hv].
  apply andb_prop in Hv. destruct Hv as [Ha He].
  apply String.eqb_eq in He. subst acc.
  rewrite prepend_nil. now apply lex_after_number.
Qed.

Lemma lex_punctuation (rest : string) :
  JSON.lex JSON.LStart (String ","%char rest)
  = prepend [JSON.TComma] (JSON.lex JSON.LStart rest)
  /\ JSON.lex JSON.LStart (String "]"%char rest)
     = prepend [JSON.TRBracket] (JSON.lex JSON.LStart rest)
  /\ JSON.lex JSON.LStart (String "}"%char rest)
     = prepend [JSON.TRBrace] (JSON.lex JSON.LStart rest)
  /\ JSON.lex JSON.LStart (String "["%char rest)
     = prepend [JSON.TLBracket] (JSON.lex JSON.LStart rest)
  /\ JSON.lex JSON.LStart (String "{"%char rest)
     = prepend [JSON.TLBrace] (JSON.lex JSON.LStart rest)
  /\ JSON.lex JSON.LStart (String ":"%char rest)
     = prepend [JSON.TColon] (JSON.lex JSON.LStart rest).
Proof. repeat split; rewrite lex_cons; reflexivity. Qed.

Lemma lex_words (rest : string) :
  JSON.lex JSON.LStart ("null" ++ rest)
  = prepend [JSON.TNull] (JSON.lex JSON.LStart rest)
  /\ JSON.lex JSON.LStart ("true" ++ rest)
     = prepend [JSON.TTrue] (JSON.lex JSON.LStart rest)
  /\ JSON.lex JSON.LStart ("false" ++ rest)
     = prepend [JSON.TFalse] (JSON.lex JSON.LStart rest).
Proof.
  repeat split; simpl append;
    repeat (erewrite lex_stepped by reflexivity; rewrite ?prepend_nil); reflexivity.
Qed.

Lemma serialize_is_json (v : jsval) :
  is_json v = true -> exists t, JSON.serialize v = Some t.
Proof. destruct v as [| |[|]| | | |]; simpl; intros H; try discriminate; eauto. Qed.

Lemma lex_joined (elems : list jsval) :
  Forall (fun v => is_json v = true -> forall t rest,
            JSON.serialize v = Some t -> closes rest = true ->
            JSON.lex JSON.LStart (t ++ rest)
            = prepend (tokens_of v) (JSON.lex JSON.LStart rest)) elems ->
  forallb is_json elems = true -> elems <> [] ->
  forall rest, closes rest = true ->
  JSON.lex JSON.LStart (String.concat "," (map elem_text elems) ++ rest)
  = prepend (joined (map tokens_of elems)) (JSON.lex JSON.LStart rest).
Proof.
  induction 1 as [|x l Hx Hl IH]; [congruence|]. intros Hj _ rest Hc.
  simpl in Hj. apply andb_prop in Hj. destruct Hj as [Hjx Hjl].
  destruct (serialize_is_json x Hjx) as [tx Hx'].
  destruct l as [|y l'].
  - simpl. unfold elem_text. rewrite Hx'. now apply Hx.
  - change (String.concat "," (map elem_text (x :: y :: l')))
      with (elem_text x ++ "," ++ String.concat "," (map elem_text (y :: l'))).
    change (joined (map tokens_of (x :: y :: l')))
      with (tokens_of x ++ JSON.TComma :: joined (map tokens_of (y :: l')))%list.
    unfold elem_text at 1. rewrite Hx', !append_assoc.
    change ("," ++ (String.concat "," (map elem_text (y :: l')) ++ rest))
      with (String ","%char (String.concat "," (map elem_text (y :: l')) ++ rest)).
    rewrite (Hx Hjx tx (String ","%char
                          (String.concat "," (map elem_text (y :: l')) ++ rest))
               Hx' eq_refl).
    destruct (lex_punctuation (String.concat "," (map elem_text (y :: l')) ++ rest))
      as (E & _). rewrite E.
    rewrite IH by (auto; discriminate).
    rewrite !prepend_prepend, <- app_assoc. reflexivity.
Qed.

Lemma written_members_json (ms : list (string * jsval)) :
  forallb (fun kv => match kv with (_, x) => is_json x end) ms = true ->
  map fst (JSON.written_members ms) = map fst ms.
Proof.
  induction ms as [|[k x] ms IH]; [reflexivity|]. simpl. intros H.
  apply andb_prop in H. destruct H as [Hx Hm].
  destruct (serialize_is_json x Hx) as [t Ht]. rewrite Ht. simpl. now rewrite IH.
Qed.

Lemma written_members_cons (k : string) (x : jsval) (t : string)
  (ms : list (string * jsval)) :
  JSON.serialize x = Some t ->
  JSON.written_members ((k, x) :: ms) = (k, t) :: JSON.written_members ms.
Proof. intros H. simpl. now rewrite H. Qed.

Lemma concat_cons2 (a : string) (l : list string) :
  l <> [] -> String.concat "," (a :: l) = a ++ "," ++ String.concat "," l.
Proof. destruct l; [congruence|reflexivity]. Qed.

Lemma lex_members (ms : list (string * jsval)) :
  Forall (fun kv => is_json (snd kv) = true -> forall t rest,
            JSON.serialize (snd kv) = Some t -> closes rest = true ->
            JSON.lex JSON.LStart (t ++ rest)
            = prepend (tokens_of (snd kv)) (JSON.lex JSON.LStart rest)) ms ->
  forallb (fun kv => match kv with (_, x) => is_json x end) ms = true -> ms <> [] ->
  forall rest, closes rest = true ->
  JSON.lex JSON.LStart
    (String.concat "," (map JSON.member_text (JSON.written_members ms)) ++ rest)
  = prepend (joined (map member_tokens ms)) (JSON.lex JSON.LStart rest).
Proof.
  induction 1 as [|[k x] l Hx Hl IH]; [congruence|]. intros Hj _ rest Hc.
  simpl in Hj. apply andb_prop in Hj. destruct Hj as [Hjx Hjl]. simpl in Hx.
  destruct (serialize_is_json x Hjx) as [tx Hx'].
  assert (M : forall r, closes r = true ->
            JSON.lex JSON.LStart (JSON.member_text (k, tx) ++ r)
            = prepend (member_tokens (k, x)) (JSON.lex JSON.LStart r)).
  { intros r Hr. unfold JSON.member_text. simpl fst. simpl snd.
    rewrite !append_assoc, lex_quote.
    change (":" ++ (tx ++ r)) with (String ":"%char (tx ++ r)).
    destruct (lex_punctuation (tx ++ r)) as (_ & _ & _ & _ & _ & E). rewrite E.
    rewrite (Hx Hjx tx r Hx' Hr), !prepend_prepend. reflexivity. }
  rewrite (written_members_cons k x tx l Hx'). cbn [map].
  destruct l as [|[k' y] l'].
  - simpl. now apply M.
  - rewrite concat_cons2.
    2:{ intros E.
        assert (L : map fst (JSON.written_members ((k', y) :: l'))
                    = map fst ((k', y) :: l')) by now apply written_members_json.
        apply (f_equal (@List.length _)) in E. apply (f_equal (@List.length _)) in L.
        rewrite !length_map in *. simpl List.length in *. lia. }
    change (joined (map member_tokens ((k, x) :: (k', y) :: l')))
      with (member_tokens (k, x)
              ++ JSON.TComma :: joined (map member_tokens ((k', y) :: l')))%list.
    rewrite !append_assoc.
    change ("," ++ ?r) with (String ","%char r).
    rewrite M by reflexivity.
    match goal with
    | |- context [JSON.lex JSON.LStart (String ","%char ?r)] =>
        destruct (lex_punctuation r) as (E & _); rewrite E
    end.
    rewrite IH; [|exact Hjl|discriminate|exact Hc].
    rewrite !prepend_prepend, <- app_assoc. reflexivity.
Qed.

Lemma serialize_array (elems : list jsval) :
  JSON.serialize (VArr elems)
  = Some ("[" ++ String.concat "," (map elem_text elems) ++ "]").
Proof. reflexivity. Qed.

Lemma lex_serialize (v : jsval) :
  is_json v = true -> forall t rest,
  JSON.serialize v = Some t -> closes rest = true ->
  JSON.lex JSON.LStart (t ++ rest) = prepend (tokens_of v) (JSON.lex JSON.LStart rest).
Proof.
  induction v as [| |b|lit|s|elems IH|members IH] using jsval_induction;
    intros Hj t rest Hs Hc.
  - discriminate Hj.
  - injection Hs as <-. apply lex_words.
  - destruct b; injection Hs as <-; apply lex_words.
  - injection Hs as <-. now apply lex_number.
  - injection Hs as <-. apply lex_quote.
  - rewrite serialize_array in Hs. injection Hs as <-.
    change ("[" ++ ?a) with (String "["%char a).
    change (String "["%char ?a ++ rest) with (String "["%char (a ++ rest)).
    rewrite append_assoc.
    change ("]" ++ rest) with (String "]"%char rest).
    destruct (lex_punctuation
                (String.concat "," (map elem_text elems) ++ String "]"%char rest))
      as (_ & _ & _ & E & _). rewrite E.
    destruct (lex_punctuation rest) as (_ & E' & _).
    destruct elems as [|x l].
    + simpl String.concat. simpl append. rewrite E', prepend_prepend. reflexivity.
    + rewrite (lex_joined (x :: l) IH Hj) by (discriminate || reflexivity).
      rewrite E', !prepend_prepend. cbn [tokens_of].
      rewrite <- app_assoc. reflexivity.
  - rewrite serialize_object in Hs. injection Hs as <-.
    change ("{" ++ ?a) with (String "{"%char a).
    change (String "{"%char ?a ++ rest) with (String "{"%char (a ++ rest)).
    rewrite append_assoc.
    change ("}" ++ rest) with (String "}"%char rest).
    match goal with
    | |- context [JSON.lex JSON.LStart (String "{"%char ?r)] =>
        destruct (lex_punctuation r) as (_ & _ & _ & _ & E & _); rewrite E
    end.
    destruct (lex_punctuation rest) as (_ & _ & E' & _).
    destruct members as [|kx l].
    + simpl String.concat. simpl append. rewrite E', prepend_prepend. reflexivity.
    + rewrite (lex_members (kx :: l) IH Hj) by (discriminate || reflexivity).
      rewrite E', !prepend_prepend. cbn [tokens_of].
      rewrite <- app_assoc. reflexivity.
Qed.

(** The first token of a value opens a value. *)
Lemma tokens_of_head (v : jsval) :
  exists t r, tokens_of v = t :: r
    /\ forall stk, JSON.parse_step (JSON.SArr0 stk) t
                   = JSON.parse_step (JSON.SVal (JSON.FArr [] :: stk)) t.
Proof.
  destruct v as [| |[|]| | | |]; simpl; eexists; eexists; split;
    (reflexivity || (intros; reflexivity)).
Qed.

Lemma parse_joined (elems : list jsval) :
  Forall (fun v => is_json v = true -> forall stk ts,
            JSON.parse_tokens (JSON.SVal stk) (tokens_of v ++ ts)
            = JSON.parse_tokens (JSON.SDone v stk) ts) elems ->
  forallb is_json elems = true -> elems <> [] ->
  forall done stk ts,
  JSON.parse_tokens (JSON.SVal (JSON.FArr done :: stk))
    (joined (map tokens_of elems) ++ JSON.TRBracket :: ts)
  = JSON.parse_tokens (JSON.SDone (VArr (rev done ++ elems)) stk) ts.
Proof.
  induction 1 as [|x l Hx Hl IH]; [congruence|]. intros Hj _ done stk ts.
  simpl in Hj. apply andb_prop in Hj. destruct Hj as [Hjx Hjl].
  destruct l as [|y l'].
  - simpl joined. rewrite (Hx Hjx). simpl. reflexivity.
  - change (joined (map tokens_of (x :: y :: l')))
      with (tokens_of x ++ JSON.TComma :: joined (map tokens_of (y :: l')))%list.
    rewrite <- app_assoc. rewrite (Hx Hjx). simpl app.
    change (JSON.parse_tokens (JSON.SDone x (JSON.FArr done :: stk))
              (JSON.TComma :: ?r))
      with (JSON.parse_tokens (JSON.SVal (JSON.FArr (x :: done) :: stk)) r).
    rewrite IH by (auto; discriminate).
    simpl rev. rewrite <- app_assoc. reflexivity.
Qed.

Lemma parse_members (ms : list (string * jsval)) :
  Forall (fun kv => is_json (snd kv) = true -> forall stk ts,
            JSON.parse_tokens (JSON.SVal stk) (tokens_of (snd kv) ++ ts)
            = JSON.parse_tokens (JSON.SDone (snd kv) stk) ts) ms ->
  forallb (fun kv => match kv with (_, x) => is_json x end) ms = true -> ms <> [] ->
  forall done stk ts,
  JSON.parse_tokens (JSON.SKey stk done)
    (joined (map member_tokens ms) ++ JSON.TRBrace :: ts)
  = JSON.parse_tokens (JSON.SDone (VObj (rev done ++ ms)) stk) ts.
Proof.
  induction 1 as [|[k x] l Hx Hl IH]; [congruence|]. intros Hj _ done stk ts.
  simpl in Hj. apply andb_prop in Hj. destruct Hj as [Hjx Hjl]. simpl in Hx.
  destruct l as [|ky l'].
  - simpl joined. unfold member_tokens. simpl app.
    change (JSON.parse_tokens (JSON.SKey stk done)
              (JSON.TString k :: JSON.TColon :: ?r))
      with (JSON.parse_tokens (JSON.SVal (JSON.FObj done k :: stk)) r).
    rewrite (Hx Hjx). simpl. reflexivity.
  - change (joined (map member_tokens ((k, x) :: ky :: l')))
      with (member_tokens (k, x)
              ++ JSON.TComma :: joined (map member_tokens (ky :: l')))%list.
    rewrite <- app_assoc. unfold member_tokens at 1. simpl app.
    change (JSON.parse_tokens (JSON.SKey stk done)
              (JSON.TString k :: JSON.TColon :: ?r))
      with (JSON.parse_tokens (JSON.SVal (JSON.FObj done k :: stk)) r).
    rewrite (Hx Hjx).
    change (JSON.parse_tokens (JSON.SDone x (JSON.FObj done k :: stk))
              (JSON.TComma :: ?r))
      with (JSON.parse_tokens (JSON.SKey stk ((k, x) :: done)) r).
    rewrite IH by (auto; discriminate).
    simpl rev. rewrite <- app_assoc. reflexivity.
Qed.

Lemma parse_tokens_of (v : jsval) :
  is_json v = true -> forall stk ts,
  JSON.parse_tokens (JSON.SVal stk) (tokens_of v ++ ts)
  = JSON.parse_tokens (JSON.SDone v stk) ts.
Proof.
  induction v as [| |b|lit|s|elems IH|members IH] using jsval_induction;
    intros Hj stk ts.
  - discriminate Hj.
  - reflexivity.
  - destruct b; reflexivity.
  - reflexivity.
  - reflexivity.
  - cbn [tokens_of]. destruct elems as [|x l]; [reflexivity|].
    set (J := joined (map tokens_of (x :: l))).
    rewrite <- app_comm_cons, <- app_assoc. simpl app. subst J.
    change (JSON.parse_tokens (JSON.SVal stk) (JSON.TLBracket :: ?r))
      with (JSON.parse_tokens (JSON.SArr0 stk) r).
    destruct (tokens_of_head x) as (t & r & Ht & Hstep).
    assert (E : forall rest,
              JSON.parse_tokens (JSON.SArr0 stk)
                (joined (map tokens_of (x :: l)) ++ rest)
              = JSON.parse_tokens (JSON.SVal (JSON.FArr [] :: stk))
                  (joined (map tokens_of (x :: l)) ++ rest)).
    { intros rest. destruct l as [|y l'].
      - simpl joined. rewrite Ht. cbn [app JSON.parse_tokens]. now rewrite Hstep.
      - change (joined (map tokens_of (x :: y :: l')))
          with (tokens_of x ++ JSON.TComma :: joined (map tokens_of (y :: l')))%list.
        rewrite Ht. cbn [app JSON.parse_tokens]. now rewrite Hstep. }
    rewrite E. rewrite (parse_joined (x :: l) IH Hj) by discriminate. reflexivity.
  - cbn [tokens_of]. destruct members as [|[k x] l]; [reflexivity|].
    change (map (fun kv : string * jsval =>
                   let (k0, x0) := kv in
                   JSON.TString k0 :: JSON.TColon :: tokens_of x0) ((k, x) :: l))
      with (map member_tokens ((k, x) :: l)).
    set (J := joined (map member_tokens ((k, x) :: l))).
    rewrite <- app_comm_cons, <- app_assoc. simpl app. subst J.
    change (JSON.parse_tokens (JSON.SVal stk) (JSON.TLBrace :: ?r))
      with (JSON.parse_tokens (JSON.SObj0 stk) r).
    assert (E : forall rest,
              JSON.parse_tokens (JSON.SObj0 stk)
                (joined (map member_tokens ((k, x) :: l)) ++ rest)
              = JSON.parse_tokens (JSON.SKey stk [])
                  (joined (map member_tokens ((k, x) :: l)) ++ rest)).
    { intros rest. destruct l as [|ky l']; reflexivity. }
    rewrite E. rewrite (parse_members ((k, x) :: l) IH Hj) by discriminate. reflexivity.
Qed.

Lemma parse_of_serialize (v : jsval) (t : string) :
  is_json v = true -> JSON.serialize v = Some t -> JSON.parse t = Some v.
Proof.
  intros Hj Ht.
  assert (L : JSON.lex JSON.LStart t = Some (tokens_of v)).
  { rewrite <- (append_nil_r t).
    rewrite (lex_serialize v Hj t EmptyString Ht eq_refl).
    change (JSON.lex JSON.LStart EmptyString) with (Some (@nil JSON.token)).
    unfold prepend. now rewrite app_nil_r. }
  unfold JSON.parse. rewrite L. rewrite <- (app_nil_r (tokens_of v)).
  now rewrite (parse_tokens_of v Hj).
Qed.

(** A value of JSON is read back from the text [JSON.stringify] writes for
    it: the text exists, and [JSON.parse] of it is the value. *)
Lemma stringify_then_parse_gives_the_value (v : jsval) :
  is_json v = true ->
  exists text, JSON.stringify v = Some text /\ JSON.parse text = Some v.
Proof.
  intros Hj. destruct (serialize_is_json v Hj) as [t Ht].
  exists t. split; [exact Ht|]. now apply parse_of_serialize.
Qed.



(** * The further properties at work *)


(** X4: a sandbox of 1024 bytes whose [alloc] returns 2000, called by the
    one-shot function, on a new handle and on a handle that has been used
    before. *)
Lemma request_out_of_bounds_witness :
  fst (evaluate (always (allocating_at 2000)) "x" VUndef VUndef noon with_evaluate)
  = Throw RangeError
  /\ fst (Evaluator_evaluate 0 "x" VUndef VUndef noon
            (with_Evaluator (allocating_at 2000)))
     = Throw RangeError
  /\ events_since (with_Evaluator (allocating_at 2000))
       (snd (Evaluator_evaluate 0 "x" VUndef VUndef noon
               (with_Evaluator (allocating_at 2000))))
     = [EAlloc 84]
  /\ fst (Evaluator_evaluate 0 "x" VUndef VUndef noon
            (used_Evaluator (allocating_at 2000)))
     = Throw RangeError.
Proof.
  destruct (request_out_of_bounds_is_a_RangeError (always (allocating_at 2000))
              with_evaluate (with_Evaluator (allocating_at 2000)) 0
              (allocating_at 2000) blank blank "x" VUndef VUndef noon 2000)
    as (A & B); [first [by_running | right; by_running] ..|].
  destruct (request_out_of_bounds_is_a_RangeError (always (allocating_at 2000))
              with_evaluate (used_Evaluator (allocating_at 2000)) 0
              (allocating_at 2000)
              (state_of_handle (used_Evaluator (allocating_at 2000)))
              (state_of_handle (used_Evaluator (allocating_at 2000)))
              "x" VUndef VUndef noon 2000)
    as (_ & C); [first [by_running | right; by_running] ..|].
  destruct A as (A & _); [by_running ..|].
  destruct B as (B1 & B2 & _); [by_running ..|].
  destruct C as (C & _); [by_running ..|].
  split; [exact A|]. split; [exact B1|]. split; [exact B2|exact C].
Defined.

(** X5: an envelope whose [error] field is a number too small for a double
    is no failure, for the one-shot function, a new handle and a handle
    that has been used before. *)
Lemma error_field_zero_witness :
  fst (evaluate (always (answering (dq "{'error':1e-400,'data':'ok'}")))
         "x" VUndef VUndef noon with_evaluate)
  = Return (VStr "ok")
  /\ fst (Evaluator_evaluate 0 "x" VUndef VUndef noon
            (with_Evaluator (answering (dq "{'error':1e-400,'data':'ok'}"))))
     = Return (VStr "ok")
  /\ fst (Evaluator_evaluate 0 "x" VUndef VUndef noon
            (used_Evaluator (answering (dq "{'error':1e-400,'data':'ok'}"))))
     = Return (VStr "ok").
Proof.
  destruct (error_field_is_tested_for_truth
              (always (answering (dq "{'error':1e-400,'data':'ok'}")))
              with_evaluate
              (with_Evaluator (answering (dq "{'error':1e-400,'data':'ok'}"))) 0
              (answering (dq "{'error':1e-400,'data':'ok'}"))
              blank blank
              (poke {| memory := Uint8Array_set (memory blank) 16
                                   (inputBytes "x" VUndef VUndef noon);
                       internals := tt |}
                    512 (dq "{'error':1e-400,'data':'ok'}"))
              "x" VUndef VUndef noon 16
              (dq "{'error':1e-400,'data':'ok'}")
              [("error", VNum "1e-400"); ("data", VStr "ok")]
              (VNum "1e-400")) as (A & B); [by_running ..|].
  destruct (error_field_is_tested_for_truth
              (always (answering (dq "{'error':1e-400,'data':'ok'}")))
              with_evaluate
              (used_Evaluator (answering (dq "{'error':1e-400,'data':'ok'}"))) 0
              (answering (dq "{'error':1e-400,'data':'ok'}"))
              (state_of_handle
                 (used_Evaluator (answering (dq "{'error':1e-400,'data':'ok'}"))))
              (state_of_handle
                 (used_Evaluator (answering (dq "{'error':1e-400,'data':'ok'}"))))
              (poke {| memory := Uint8Array_set
                                   (memory
                                      (state_of_handle
                                         (used_Evaluator
                                            (answering
                                               (dq "{'error':1e-400,'data':'ok'}")))))
                                   16 (inputBytes "x" VUndef VUndef noon);
                       internals := tt |}
                    512 (dq "{'error':1e-400,'data':'ok'}"))
              "x" VUndef VUndef noon 16
              (dq "{'error':1e-400,'data':'ok'}")
              [("error", VNum "1e-400"); ("data", VStr "ok")]
              (VNum "1e-400")) as (_ & C); [by_running ..|].
  split; [apply A; by_running|]. split; [apply B; by_running|apply C; by_running].
Defined.

(** X6: an output that is an array makes the call return undefined, for
    the one-shot function, a new handle and a handle that has been used
    before. *)
Lemma envelope_that_is_an_array_witness :
  fst (evaluate (always (answering "[1]")) "x" VUndef VUndef noon with_evaluate)
  = Return VUndef
  /\ fst (Evaluator_evaluate 0 "x" VUndef VUndef noon (with_Evaluator (answering "[1]")))
     = Return VUndef
  /\ fst (Evaluator_evaluate 0 "x" VUndef VUndef noon (used_Evaluator (answering "[1]")))
     = Return VUndef.
Proof.
  destruct (envelope_that_is_no_object (always (answering "[1]"))
              with_evaluate (with_Evaluator (answering "[1]")) 0
              (answering "[1]") blank blank
              (poke {| memory := Uint8Array_set (memory blank) 16
                                   (inputBytes "x" VUndef VUndef noon);
                       internals := tt |}
                    512 "[1]")
              "x" VUndef VUndef noon 16 "[1]" (VArr [VNum "1"]))
    as (A & B); [by_running ..|].
  destruct (envelope_that_is_no_object (always (answering "[1]"))
              with_evaluate (used_Evaluator (answering "[1]")) 0
              (answering "[1]")
              (state_of_handle (used_Evaluator (answering "[1]")))
              (state_of_handle (used_Evaluator (answering "[1]")))
              (poke {| memory := Uint8Array_set
                                   (memory
                                      (state_of_handle (used_Evaluator (answering "[1]"))))
                                   16 (inputBytes "x" VUndef VUndef noon);
                       internals := tt |}
                    512 "[1]")
              "x" VUndef VUndef noon 16 "[1]" (VArr [VNum "1"]))
    as (_ & C); [by_running ..|].
  split; [apply A; by_running|]. split; [apply B; by_running|apply C; by_running].
Defined.

(** X7: a sandbox that hands over two texts and then wipes its memory,
    called by the one-shot function, on a new handle and on a handle that
    has been used before. *)
Lemma last_output_counts_witness :
  fst (evaluate (always (answering_twice (dq "{'data':1}") (dq "{'data':2}")))
         "x" VUndef VUndef noon with_evaluate)
  = Return (VNum "2")
  /\ fst (Evaluator_evaluate 0 "x" VUndef VUndef noon
            (with_Evaluator (answering_twice (dq "{'data':1}") (dq "{'data':2}"))))
     = Return (VNum "2")
  /\ fst (Evaluator_evaluate 0 "x" VUndef VUndef noon
            (used_Evaluator (answering_twice (dq "{'data':1}") (dq "{'data':2}"))))
     = Return (VNum "2").
Proof.
  destruct (last_output_counts
              (always (answering_twice (dq "{'data':1}") (dq "{'data':2}")))
              with_evaluate
              (with_Evaluator (answering_twice (dq "{'data':1}") (dq "{'data':2}"))) 0
              (answering_twice (dq "{'data':1}") (dq "{'data':2}"))
              blank blank blank
              "x" VUndef VUndef noon 16
              (dq "{'data':1}") [dq "{'data':2}"]) as (A & B); [by_running ..|].
  destruct (last_output_counts
              (always (answering_twice (dq "{'data':1}") (dq "{'data':2}")))
              with_evaluate
              (used_Evaluator (answering_twice (dq "{'data':1}") (dq "{'data':2}"))) 0
              (answering_twice (dq "{'data':1}") (dq "{'data':2}"))
              (state_of_handle
                 (used_Evaluator (answering_twice (dq "{'data':1}") (dq "{'data':2}"))))
              (state_of_handle
                 (used_Evaluator (answering_twice (dq "{'data':1}") (dq "{'data':2}"))))
              blank
              "x" VUndef VUndef noon 16
              (dq "{'data':1}") [dq "{'data':2}"]) as (_ & C); [by_running ..|].
  split; [apply A; by_running|]. split; [apply B; by_running|apply C; by_running].
Defined.

(** X8: a call on the handle 0 leaves the object 1 and the bindings alone. *)
Lemma handle_call_touches_its_handle_only_witness :
  objects (snd (Evaluator_evaluate 0 "x" VUndef VUndef noon
                  (with_Evaluator (answering (dq "{'data':1}"))))) 1
  = objects (with_Evaluator (answering (dq "{'data':1}"))) 1
  /\ vars evaluator_js (snd (Evaluator_evaluate 0 "x" VUndef VUndef noon
                               (with_Evaluator (answering (dq "{'data':1}")))))
     = vars evaluator_js (with_Evaluator (answering (dq "{'data':1}"))).
Proof.
  destruct (handle_call_touches_its_handle_only
              (with_Evaluator (answering (dq "{'data':1}"))) 0 1
              "x" VUndef VUndef noon) as (A & _ & B & _); [by_running|].
  split; [exact A|exact B].
Defined.

(** X10: the first handle of a process is the object 0, made by one
    compilation and one instantiation. *)
Lemma create_hands_out_a_fresh_handle_witness :
  fst (Evaluator_create (always silent) (snd (require evaluator_js (boot (Some [x00])))))
  = Return 0%nat
  /\ events_since (snd (require evaluator_js (boot (Some [x00]))))
       (snd (Evaluator_create (always silent)
               (snd (require evaluator_js (boot (Some [x00]))))))
     = [ECompile; EInstantiate].
Proof.
  destruct (create_hands_out_a_fresh_handle (always silent)
              (snd (require evaluator_js (boot (Some [x00])))) silent blank)
    as (A & _ & _ & B & _); [by_running ..|].
  split; [exact A|exact B].
Defined.

(** X11: two handles, one compilation, two instantiations. *)
Lemma two_handles_share_a_compilation_witness :
  fst (Evaluator_create (always silent)
         (snd (Evaluator_create (always silent)
                 (snd (require evaluator_js (boot (Some [x00])))))))
  = Return 1%nat
  /\ events_since (snd (require evaluator_js (boot (Some [x00]))))
       (snd (Evaluator_create (always silent)
               (snd (Evaluator_create (always silent)
                       (snd (require evaluator_js (boot (Some [x00]))))))))
     = [ECompile; EInstantiate; EInstantiate].
Proof.
  destruct (two_handles_share_a_compilation (always silent)
              (snd (require evaluator_js (boot (Some [x00])))) silent blank)
    as (_ & A & _ & _ & B); [by_running ..|].
  split; [exact A|exact B].
Defined.

(** X12: a module whose start function traps, and one with an import that
    does not fit. *)
Lemma create_fails_with_the_load_failure_witness :
  fst (Evaluator_create (always start_traps)
         (snd (require evaluator_js (boot (Some [x00])))))
  = Throw RuntimeError
  /\ events_since (snd (require evaluator_js (boot (Some [x00]))))
       (snd (Evaluator_create (always start_traps)
               (snd (require evaluator_js (boot (Some [x00]))))))
     = [ECompile; EInstantiate]
  /\ fst (Evaluator_create (always unlinkable)
            (snd (require evaluator_js (boot (Some [x00])))))
     = Throw LinkError.
Proof.
  destruct (create_fails_with_the_load_failure (always start_traps)
              (snd (require evaluator_js (boot (Some [x00])))))
    as (A & B & _).
  { intros m H. vm_compute in H. injection H as <-. reflexivity. }
  destruct (create_fails_with_the_load_failure (always unlinkable)
              (snd (require evaluator_js (boot (Some [x00])))))
    as (C & _).
  { intros m H. vm_compute in H. injection H as <-. reflexivity. }
  split; [exact A|]. split; [exact B|exact C].
Defined.

(** X13: index.js on a process that has the artifact. *)
Lemma index_js_reads_the_artifact_twice_witness :
  filter is_read
    (events_since (boot (Some [x00]))
       (snd (index_js (always (answering (dq "{'data':1}"))) always_noon
               (boot (Some [x00])))))
  = [EReadFile; EReadFile].
Proof.
  apply (index_js_reads_the_artifact_twice (always (answering (dq "{'data':1}")))
           always_noon (boot (Some [x00])) [x00]); by_running.
Defined.

(** X14: an artifact that does not compile. *)
Lemma failed_load_is_not_retried_witness :
  fst (evaluate never "x" VUndef VUndef noon with_evaluate) = Throw CompileError
  /\ fst (evaluate never "y" VNull VUndef noon
            (snd (evaluate never "x" VUndef VUndef noon with_evaluate)))
     = Throw CompileError
  /\ events_since (snd (evaluate never "x" VUndef VUndef noon with_evaluate))
       (snd (evaluate never "y" VNull VUndef noon
               (snd (evaluate never "x" VUndef VUndef noon with_evaluate))))
     = [].
Proof.
  destruct (failed_load_is_not_retried never with_evaluate CompileError
              "x" "y" VUndef VUndef VNull VUndef noon noon)
    as (A & _ & B & C); [by_running|].
  split; [exact A|]. split; [exact B|exact C].
Defined.

(** X15: a stale text in the slot of a handle whose sandbox answers. *)
Lemma earlier_output_has_no_part_witness :
  fst (Evaluator_evaluate 0 "x" VUndef VUndef noon
         (snd (set_outputStr 0 (SText "stale")
                 (with_Evaluator (answering (dq "{'data':1}"))))))
  = fst (Evaluator_evaluate 0 "x" VUndef VUndef noon
           (with_Evaluator (answering (dq "{'data':1}")))).
Proof.
  apply (earlier_output_has_no_part (with_Evaluator (answering (dq "{'data':1}"))) 0
           {| exports := answering (dq "{'data':1}"); state := blank |}
           (SText "stale") "x" VUndef VUndef noon); by_running.
Defined.

(** X16: the fifth of March 2024. *)
Lemma nowToDate_pads_month_and_day_witness :
  nowToDate noon = "2024-03-05" /\ String.length (nowToDate noon) = 10%nat.
Proof.
  destruct (nowToDate_pads_month_and_day noon) as (A & B); [simpl; lia ..|].
  split; [exact A|]. apply B. simpl. lia.
Defined.

